(** * LMA bus tracker: the arrival-estimation core against its specification

  A shallow embedding of [js/api.js] (transport, normalizers, ETA
  calculator, haversine distance), of the reconciliation and polling code
  of the application module, and of the view switch of [js/ui.js].

  JavaScript Numbers are IEEE-754 binary64 values: they are modelled by
  Rocq's primitive [float]s, whose arithmetic is specified by
  [FloatAxioms] against [SpecFloat].  What ECMAScript leaves to the
  engine ([Math.sin], [Math.cos], [Math.atan2], number printing and
  parsing, [JSON.parse], [String.prototype.trim]) is an [Engine]. *)

From Stdlib Require Import ZArith List String Ascii Bool Lia Floats DecimalString.
From Stdlib Require Import Sorting.Sorted Sorting.Permutation.
Import ListNotations.

Set Warnings "-register-all".

Local Open Scope string_scope.
Local Open Scope list_scope.

(** ** JavaScript values, completions, and the engine *)

Module JS.

(** Values that [JSON.parse] can build, plus [undefined].  An object is its
    own-property list in the order in which [for ... in] enumerates it. *)
Inductive value : Type :=
| Undefined
| Null
| Bool (b : bool)
| Num (x : float)
| Str (s : string)
| Arr (items : list value)
| Obj (props : list (string * value)).

Inductive error : Type :=
| TypeError
| SyntaxError
| NetworkError
| HttpError.

(** The outcome of evaluating an expression or calling a function. *)
Inductive completion (A : Type) : Type :=
| Normal (a : A)
| Throw (e : error).
Arguments Normal {A} a.
Arguments Throw {A} e.

Definition bind {A B} (c : completion A) (k : A -> completion B) : completion B :=
  match c with
  | Normal a => k a
  | Throw e => Throw e
  end.

(** [try { body } catch (error) { handler }] *)
Definition try_catch {A} (body : completion A) (handler : error -> completion A)
  : completion A :=
  match body with
  | Normal a => Normal a
  | Throw e => handler e
  end.

Declare Scope js_scope.
Delimit Scope js_scope with js.
Notation "x <- c ;; k" := (bind c (fun x => k))
  (at level 61, c at next level, right associativity) : js_scope.
Local Open Scope js_scope.

Fixpoint mapM {A B} (f : A -> completion B) (l : list A) : completion (list B) :=
  match l with
  | [] => Normal []
  | x :: r =>
      match f x with
      | Normal y =>
          match mapM f r with
          | Normal ys => Normal (y :: ys)
          | Throw e => Throw e
          end
      | Throw e => Throw e
      end
  end.

(** What the language leaves to the implementation. *)
Class Engine : Type := {
  Math_sin : float -> float;
  Math_cos : float -> float;
  Math_atan2 : float -> float -> float;
  Number_toString : float -> string;
  parseFloat_string : string -> float;
  parseInt_string : string -> float;
  JSON_parse : string -> option value;
  String_trim : string -> string
}.

(** ToBoolean *)
Definition truthy (v : value) : bool :=
  match v with
  | Undefined | Null => false
  | Bool b => b
  | Num x => negb (PrimFloat.is_nan x || PrimFloat.is_zero x)
  | Str s => negb (String.eqb s "")
  | Arr _ | Obj _ => true
  end.

(** [a || b] on values *)
Definition or_else (a b : value) : value := if truthy a then a else b.

(** [x || d] where [x] is a Number *)
Definition num_or (x d : float) : float :=
  if PrimFloat.is_nan x || PrimFloat.is_zero x then d else x.

Fixpoint lookup (k : string) (props : list (string * value)) : option value :=
  match props with
  | [] => None
  | (k', v) :: r => if String.eqb k k' then Some v else lookup k r
  end.

(** [o.k] for the property names the program reads ([id], [name], [all],
    ...): none of them exists on a string, number, boolean or array, so the
    read gives [undefined] there; on [null] and [undefined] it throws. *)
Definition get (o : value) (k : string) : completion value :=
  match o with
  | Undefined | Null => Throw TypeError
  | Obj props =>
      match lookup k props with
      | Some v => Normal v
      | None => Normal Undefined
      end
  | _ => Normal Undefined
  end.

Definition isArray (v : value) : bool :=
  match v with Arr _ => true | _ => false end.

Fixpoint chars (s : string) : list string :=
  match s with
  | EmptyString => []
  | String c r => String c EmptyString :: chars r
  end.

Fixpoint index_keys (i n : nat) : list string :=
  match n with
  | O => []
  | S n' => NilZero.string_of_uint (Nat.to_uint i) :: index_keys (S i) n'
  end.

(** The (key, value) pairs that [for (const key in o)] visits, [o[key]]
    included.  Strings and arrays enumerate their indices; numbers and
    booleans have no enumerable property; [null] and [undefined] are
    skipped by the loop. *)
Definition for_in (o : value) : list (string * value) :=
  match o with
  | Obj props => props
  | Arr items => combine (index_keys 0 (List.length items)) items
  | Str s => combine (index_keys 0 (String.length s)) (map Str (chars s))
  | _ => []
  end.

(** [o.hasOwnProperty(key)] for a key that [for ... in] produced.  The
    method is looked up on [o] itself first: an own property of that name
    (never a function in parsed JSON) shadows the inherited method, and
    calling it throws. *)
Definition hasOwnProperty_call (o : value) (key : string) : completion bool :=
  match o with
  | Undefined | Null => Throw TypeError
  | Obj props =>
      match lookup "hasOwnProperty" props with
      | Some _ => Throw TypeError
      | None => Normal true
      end
  | _ => Normal true
  end.

Section WithEngine.
Context {E : Engine}.

(** ToString *)
Fixpoint ToString (v : value) : string :=
  match v with
  | Undefined => "undefined"
  | Null => "null"
  | Bool true => "true"
  | Bool false => "false"
  | Num x => Number_toString x
  | Str s => s
  | Arr items =>
      (fix join (l : list value) : string :=
         match l with
         | [] => ""
         | x :: r =>
             let sx := match x with
                       | Undefined | Null => ""
                       | _ => ToString x
                       end in
             match r with
             | [] => sx
             | _ :: _ => (sx ++ "," ++ join r)%string
             end
         end) items
  | Obj _ => "[object Object]"
  end.

Definition parseFloat (v : value) : float := parseFloat_string (ToString v).
Definition parseInt (v : value) : float := parseInt_string (ToString v).

(** [String(a) === String(b)] *)
Definition same_string (a b : value) : bool :=
  String.eqb (ToString a) (ToString b).
End WithEngine.

(** SameValueZero, the key equality of [Map]: no conversion between types.
    Arrays and objects compare by identity; two separately parsed ones are
    never the same. *)
Definition same_value_zero (a b : value) : bool :=
  match a, b with
  | Undefined, Undefined => true
  | Null, Null => true
  | Bool x, Bool y => Bool.eqb x y
  | Num x, Num y => (PrimFloat.is_nan x && PrimFloat.is_nan y) || PrimFloat.eqb x y
  | Str x, Str y => String.eqb x y
  | _, _ => false
  end.

End JS.


(** ** [js/api.js] *)

Module API.
Import JS.
Local Open Scope js_scope.
Local Open Scope float_scope.

Definition SYSTEM_ID : string := "6986".

Inductive proxy_type : Type := allorigins | standard | corssh.

Record Proxy : Type := { proxy_url : string; proxy_kind : proxy_type }.

Definition CORS_PROXIES : list Proxy :=
  [ {| proxy_url := "https://api.allorigins.win/post?url="; proxy_kind := allorigins |};
    {| proxy_url := "https://corsproxy.io/?"; proxy_kind := standard |};
    {| proxy_url := "https://proxy.cors.sh/"; proxy_kind := corssh |} ].

(** What [fetch] gives back: a rejected promise, or a response with its
    [ok] flag and body text. *)
Inductive fetched : Type :=
| Rejected
| Response (ok : bool) (text : string).

(** The network, as seen by one call: the reply to a request sent through a
    proxy to an endpoint with a body. *)
Definition Transport : Type := Proxy -> string -> value -> fetched.

Record Route : Type := {
  route_id : value;
  route_name : value;
  route_shortName : value;
  route_color : value;
  route_points : list (float * float);
  route_groupId : value;
  route_active : bool
}.

Record Stop : Type := {
  stop_id : value;
  stop_name : value;
  stop_latitude : float;
  stop_longitude : float;
  stop_routeId : value;
  stop_routeName : value;
  stop_color : value
}.

Record Bus : Type := {
  bus_id : value;
  bus_busName : value;
  bus_routeId : value;
  bus_latitude : float;
  bus_longitude : float;
  bus_heading : float;
  bus_speed : float;
  bus_paxLoad : value;
  bus_timestamp : value
}.

(** An arrival, as built by [getStopArrivals] (no colour, distance or speed),
    by [calculateETAs] (no scheduled time) or enriched by [refreshArrivals].
    A property that the object does not have reads as [Undefined] / [None]. *)
Record Arrival : Type := {
  arr_busId : value;
  arr_busName : value;
  arr_routeId : value;
  arr_routeName : value;
  arr_routeColor : value;
  arr_eta : float;
  arr_distance : option float;
  arr_speed : option float;
  arr_scheduledTime : value;
  arr_timestamp : value
}.

(** [Math.PI] *)
Definition Math_PI : float := 0x1.921fb54442d18p+1. (* 3.141592653589793 *)

(** [Math.sqrt]: the correctly rounded square root. *)
Definition Math_sqrt (x : float) : float := PrimFloat.sqrt x.

(** [Math.max] of two Numbers: NaN if either is, and [+0] above [-0]. *)
Definition Math_max (x y : float) : float :=
  if PrimFloat.is_nan x || PrimFloat.is_nan y then nan
  else if x <? y then y
  else if y <? x then x
  else if PrimFloat.get_sign x then y else x.

(** The integer [z] as a Number, for [|z| < 2^63]. *)
Definition float_of_Z (z : Z) : float :=
  match z with
  | Z0 => zero
  | Zpos _ => of_uint63 (Uint63.of_Z z)
  | Zneg _ => - of_uint63 (Uint63.of_Z (Z.opp z))
  end.

(** [Math.round]: the nearest integer, ties towards [+Infinity]; the sign of
    a zero result is that of the argument.  A finite [m * 2^e] with [e >= 0]
    is an integer already; otherwise the result is
    [floor ((m + 2^(-e-1)) / 2^(-e))]. *)
Definition Math_round (x : float) : float :=
  match Prim2SF x with
  | S754_finite s m e =>
      if (0 <=? e)%Z then x
      else
        let n := cond_Zopp s (Zpos m) in
        let q := Z.div (n + 2 ^ (- e - 1)) (2 ^ (- e)) in
        if (q =? 0)%Z then (if s then neg_zero else zero) else float_of_Z q
  | _ => x
  end.

(** Elements of [s.split(',')] *)
Fixpoint split_comma_from (cur : string) (s : string) : list string :=
  match s with
  | EmptyString => [cur]
  | String c r =>
      if Ascii.eqb c ","%char then cur :: split_comma_from "" r
      else split_comma_from (cur ++ String c "")%string r
  end.

Definition split_comma (s : string) : list string := split_comma_from "" s.

Section WithEngine.
Context {E : Engine}.

(** *** Transport *)

(** The body of the [try] block of [postRequest], for the proxy at the
    current index ([None] when the index is out of the table: reading
    [proxy.type] throws). *)
Definition attempt (proxy : option Proxy) (net : Transport)
    (endpoint : string) (body : value) : completion value :=
  match proxy with
  | None => Throw TypeError
  | Some p =>
      match net p endpoint body with
      | Rejected => Throw NetworkError
      | Response ok text0 =>
          if negb ok then Throw HttpError
          else
            let text :=
              match proxy_kind p with
              | allorigins =>
                  (* try { wrapped = JSON.parse(text);
                           text = wrapped.contents || text } catch (e) {} *)
                  match JSON_parse text0 with
                  | None => Str text0
                  | Some wrapped =>
                      match get wrapped "contents" with
                      | Normal c => or_else c (Str text0)
                      | Throw _ => Str text0
                      end
                  end
              | _ => Str text0
              end in
            if negb (truthy text) then Normal Null
            else
              match text with
              | Str t =>
                  if String.eqb (String_trim t) "" then Normal Null
                  else
                    match JSON_parse t with
                    | Some v => Normal v
                    | None => Throw SyntaxError
                    end
              | _ => Throw TypeError (* text.trim is not a function *)
              end
      end
  end.

(** [postRequest], threading [currentProxyIndex], for one call running from
    start to end (calls in flight together would share the index).  The
    recursion of the [catch] block moves to the next proxy; [fuel] bounds
    it, and [length CORS_PROXIES] is always enough (see
    [postRequest_fuel_enough]). *)
Fixpoint postRequest_fuel (fuel : nat) (net : Transport) (currentProxyIndex : nat)
    (endpoint : string) (body : value) : completion value * nat :=
  match attempt (nth_error CORS_PROXIES currentProxyIndex) net endpoint body with
  | Normal v => (Normal v, currentProxyIndex)
  | Throw error =>
      if currentProxyIndex <? List.length CORS_PROXIES - 1 then
        match fuel with
        | S fuel' => postRequest_fuel fuel' net (S currentProxyIndex) endpoint body
        | O => (Throw error, currentProxyIndex)
        end
      else (Throw error, currentProxyIndex)
  end%nat.

Definition postRequest (net : Transport) (currentProxyIndex : nat)
    (endpoint : string) (body : value) : completion value * nat :=
  postRequest_fuel (List.length CORS_PROXIES) net currentProxyIndex endpoint body.

(** *** Normalizers *)

(** [`${prefix}${v}`] *)
Definition template (prefix : string) (v : value) : value :=
  Str (prefix ++ ToString v)%string.

Fixpoint point_pairs (parts : list string) : list (float * float) :=
  match parts with
  | a :: b :: r =>
      let lat := parseFloat_string a in
      let lng := parseFloat_string b in
      if negb (PrimFloat.is_nan lat) && negb (PrimFloat.is_nan lng)
      then (lat, lng) :: point_pairs r
      else point_pairs r
  | _ => []
  end.

Definition parseRoutePoints (pointsStr : value) : completion (list (float * float)) :=
  if negb (truthy pointsStr) then Normal []
  else
    match pointsStr with
    | Str s => Normal (point_pairs (split_comma s))
    | _ => Throw TypeError (* pointsStr.split is not a function *)
    end.

(** The arrow function that [getRoutes] maps over [routesArray]. *)
Definition normalizeRoute (route : value) : completion Route :=
  myid <- get route "myid" ;;
  id <- get route "id" ;;
  name <- get route "name" ;;
  longName <- get route "longName" ;;
  shortName <- get route "shortName" ;;
  color <- get route "color" ;;
  pts <- get route "points" ;;
  points <- parseRoutePoints pts ;;
  groupId <- get route "groupId" ;;
  Normal {| route_id := or_else myid id;
            route_name := or_else (or_else name longName) (template "Route " id);
            route_shortName := or_else shortName name;
            route_color := or_else color (Str "#4a90d9");
            route_points := points;
            route_groupId := groupId;
            route_active := true |}.

(** [getRoutes] after [await postRequest(...)] has produced [data]. *)
Definition routes_of_payload (data : value) : completion (list Route) :=
  if negb (truthy data) then Normal []
  else
    all <- get data "all" ;;
    let routesArray := or_else all (Arr []) in
    match routesArray with
    | Arr items => mapM normalizeRoute items
    | _ => Throw TypeError (* routesArray.map is not a function *)
    end.

Definition getRoutes (net : Transport) (currentProxyIndex : nat)
    : completion (list Route) * nat :=
  let '(res, idx) :=
    postRequest net currentProxyIndex "getRoutes=2"
      (Obj [("systemSelected0", Num (parseInt (Str SYSTEM_ID))); ("amount", Num 1)]) in
  (data <- res ;; routes_of_payload data, idx).

Definition normalizeStop (stop : value) : completion Stop :=
  id <- get stop "id" ;;
  stopId <- get stop "stopId" ;;
  name <- get stop "name" ;;
  latitude <- get stop "latitude" ;;
  longitude <- get stop "longitude" ;;
  routeId <- get stop "routeId" ;;
  routeName <- get stop "routeName" ;;
  color <- get stop "color" ;;
  Normal {| stop_id := or_else id stopId;
            stop_name := or_else name (template "Stop " id);
            stop_latitude := parseFloat latitude;
            stop_longitude := parseFloat longitude;
            stop_routeId := routeId;
            stop_routeName := routeName;
            stop_color := or_else color (Str "#666666") |}.

(** [for (const key in o) { if (o.hasOwnProperty(key)) { body(o[key]) } }]
    where [body] pushes the elements [each item] onto the result. *)
Fixpoint own_items {A} (o : value) (each : value -> completion (list A))
    (props : list (string * value)) : completion (list A) :=
  match props with
  | [] => Normal []
  | (key, item) :: r =>
      own <- hasOwnProperty_call o key ;;
      pushed <- (if own : bool then each item else Normal []) ;;
      rest <- own_items o each r ;;
      Normal (pushed ++ rest)
  end.

Definition stops_of_payload (data : value) : completion (list Stop) :=
  if negb (truthy data) then Normal []
  else
    stopsObj <- get data "stops" ;;
    if negb (truthy stopsObj) then Normal []
    else
      own_items stopsObj
        (fun stop => s <- normalizeStop stop ;; Normal [s])
        (for_in stopsObj).

Definition getStops (net : Transport) (currentProxyIndex : nat)
    : completion (list Stop) * nat :=
  let '(res, idx) :=
    postRequest net currentProxyIndex "getStops=2"
      (Obj [("s0", Str SYSTEM_ID); ("sA", Num 1)]) in
  (data <- res ;; stops_of_payload data, idx).

(** The arrow function that [getBuses] maps over [busesArray]; [now] is
    [Date.now()]. *)
Definition normalizeBus (now : float) (bus : value) : completion Bus :=
  busId <- get bus "busId" ;;
  id <- get bus "id" ;;
  busName <- get bus "busName" ;;
  name <- get bus "name" ;;
  routeId <- get bus "routeId" ;;
  route <- get bus "route" ;;
  latitude <- get bus "latitude" ;;
  longitude <- get bus "longitude" ;;
  heading <- get bus "heading" ;;
  speed <- get bus "speed" ;;
  paxLoad <- get bus "paxLoad" ;;
  updated <- get bus "updated" ;;
  timestamp <- get bus "timestamp" ;;
  Normal {| bus_id := or_else busId id;
            bus_busName :=
              or_else (or_else busName name) (template "Bus " (or_else busId id));
            bus_routeId := or_else routeId route;
            bus_latitude := parseFloat latitude;
            bus_longitude := parseFloat longitude;
            bus_heading := num_or (parseFloat heading) 0;
            bus_speed := num_or (parseFloat speed) 0;
            bus_paxLoad := or_else paxLoad (Num 0);
            bus_timestamp := or_else (or_else updated timestamp) (Num now) |}.

(** The flat [busesArray] (or the arrivals array) built from a container
    that is an array, or is enumerated as a keyed map whose values are single
    records or batches. *)
Definition flatten_container (container : value) : completion (list value) :=
  match container with
  | Arr items => Normal items
  | _ =>
      own_items container
        (fun item =>
           match item with
           | Arr batch => Normal batch
           | _ => Normal [item]
           end)
        (for_in container)
  end.

Definition buses_of_payload (now : float) (data : value) : completion (list Bus) :=
  if negb (truthy data) then Normal []
  else
    buses <- get data "buses" ;;
    if negb (truthy buses) then Normal []
    else
      busesArray <- flatten_container buses ;;
      mapM (normalizeBus now) busesArray.

Definition getBuses (now : float) (net : Transport) (currentProxyIndex : nat)
    : completion (list Bus) * nat :=
  let '(res, idx) :=
    postRequest net currentProxyIndex "getBuses=1"
      (Obj [("s0", Str SYSTEM_ID); ("sA", Num 1)]) in
  (data <- res ;; buses_of_payload now data, idx).

Definition normalizeArrival (now : float) (arrival : value) : completion Arrival :=
  busId <- get arrival "busId" ;;
  bus <- get arrival "bus" ;;
  busName <- get arrival "busName" ;;
  routeId <- get arrival "routeId" ;;
  route <- get arrival "route" ;;
  routeName <- get arrival "routeName" ;;
  eta <- get arrival "eta" ;;
  minutes <- get arrival "minutes" ;;
  scheduledTime <- get arrival "scheduledTime" ;;
  scheduled <- get arrival "scheduled" ;;
  Normal {| arr_busId := or_else busId bus;
            arr_busName := or_else busName (template "Bus " busId);
            arr_routeId := or_else routeId route;
            arr_routeName := routeName;
            arr_routeColor := Undefined;
            arr_eta := num_or (parseInt (or_else eta minutes)) 0;
            arr_distance := None;
            arr_speed := None;
            arr_scheduledTime := or_else scheduledTime scheduled;
            arr_timestamp := Num now |}.

(** The [try] block of [getStopArrivals] after the [await]. *)
Definition arrivals_of_payload (now : float) (data : value) : completion (list Arrival) :=
  if negb (truthy data) then Normal []
  else
    container <- get data "arrivals" ;;
    arrivals <- (if truthy container then flatten_container container
                 else Normal []) ;;
    mapM (normalizeArrival now) arrivals.

Definition getStopArrivals (now : float) (net : Transport) (currentProxyIndex : nat)
    (stopId : value) : completion (list Arrival) * nat :=
  let '(res, idx) :=
    postRequest net currentProxyIndex "getStopArrivals=2"
      (Obj [("stop", stopId); ("s0", Str SYSTEM_ID); ("sA", Num 1)]) in
  (try_catch (data <- res ;; arrivals_of_payload now data)
             (fun error => Normal []),
   idx).

(** *** ETA calculator *)

(** [getDistanceKm]: haversine distance, Earth radius 6371 km. *)
Definition getDistanceKm (lat1 lon1 lat2 lon2 : float) : float :=
  let R := 6371 in
  let dLat := (lat2 - lat1) * Math_PI / 180 in
  let dLon := (lon2 - lon1) * Math_PI / 180 in
  let a := Math_sin (dLat / 2) * Math_sin (dLat / 2) +
           Math_cos (lat1 * Math_PI / 180) * Math_cos (lat2 * Math_PI / 180) *
           Math_sin (dLon / 2) * Math_sin (dLon / 2) in
  let c := 2 * Math_atan2 (Math_sqrt a) (Math_sqrt (1 - a)) in
  R * c.

(** A [Map] from route ids to routes: [set] replaces the entry whose key is
    the same value (SameValueZero), [get] finds it. *)
Fixpoint Map_set (m : list (value * Route)) (k : value) (r : Route)
    : list (value * Route) :=
  match m with
  | [] => [(k, r)]
  | (k', r') :: rest =>
      if same_value_zero k' k then (k', r) :: rest
      else (k', r') :: Map_set rest k r
  end.

Fixpoint Map_get (m : list (value * Route)) (k : value) : option Route :=
  match m with
  | [] => None
  | (k', r') :: rest => if same_value_zero k' k then Some r' else Map_get rest k
  end.

(** [routes.forEach(r => routeMap.set(r.id, r))] *)
Definition routeMap_of (routes : list Route) : list (value * Route) :=
  fold_left (fun m r => Map_set m (route_id r) r) routes [].

(** [avgSpeed] of the arrow function of [calculateETAs]: the estimate assumes
    20 km/h when the bus reports no speed.  1.6 is the double
    [0x1.999999999999ap+0]. *)
Definition avgSpeed (bus : Bus) : float :=
  if 0 <? bus_speed bus
  then Math_max (bus_speed bus * 0x1.999999999999ap+0) 15
  else 20.

(** [distance] and [etaMinutes] of the same arrow function. *)
Definition distance (stop : Stop) (bus : Bus) : float :=
  getDistanceKm (bus_latitude bus) (bus_longitude bus)
                (stop_latitude stop) (stop_longitude stop).

Definition etaMinutes (stop : Stop) (bus : Bus) : float :=
  Math_round ((distance stop bus / avgSpeed bus) * 60).

(** The arrow function that [calculateETAs] maps over the filtered buses. *)
Definition arrivalOf (now : float) (stop : Stop) (routeMap : list (value * Route))
    (bus : Bus) : Arrival :=
  let distance := distance stop bus in
  let etaMinutes := etaMinutes stop bus in
  let route := Map_get routeMap (bus_routeId bus) in
  {| arr_busId := bus_id bus;
     arr_busName := bus_busName bus;
     arr_routeId := bus_routeId bus;
     arr_routeName :=
       match route with
       | Some r => or_else (route_shortName r) (route_name r)
       | None => template "Route " (bus_routeId bus)
       end;
     arr_routeColor :=
       match route with
       | Some r => route_color r
       | None => Str "#4a90d9"
       end;
     arr_eta := etaMinutes;
     arr_distance := Some distance;
     arr_speed := Some (bus_speed bus);
     arr_scheduledTime := Undefined;
     arr_timestamp := Num now |}.

(** [filterRouteIds.includes(String(routeId))] *)
Definition includes_route (filterRouteIds : list string) (routeId : value) : bool :=
  existsb (String.eqb (ToString routeId)) filterRouteIds.


Definition filterBuses (buses : list Bus) (filterRouteIds : option (list string))
    : list Bus :=
  match filterRouteIds with
  | Some ((_ :: _) as ids) =>
      filter (fun bus => includes_route ids (bus_routeId bus)) buses
  | _ => buses
  end.

End WithEngine.

(** [Array.prototype.sort] with a compare function returning a Number: a
    stable sort, [x] moving behind [y] only when [cmp x y > 0] (a NaN result
    counts as 0).  For a consistent compare function this is the sorted
    order every engine returns; otherwise the language leaves the order to
    the engine, and this insertion sort is one admissible outcome. *)
Fixpoint sort_insert {A} (cmp : A -> A -> float) (x : A) (l : list A) : list A :=
  match l with
  | [] => [x]
  | y :: r => if 0 <? cmp x y then y :: sort_insert cmp x r else x :: y :: r
  end.

Fixpoint Array_sort {A} (cmp : A -> A -> float) (l : list A) : list A :=
  match l with
  | [] => []
  | x :: r => sort_insert cmp x (Array_sort cmp r)
  end.

(** [(a, b) => a.eta - b.eta] *)
Definition by_eta (a b : Arrival) : float := arr_eta a - arr_eta b.

Section WithEngine2.
Context {E : Engine}.

(** [calculateETAs(buses, stop, routes, filterRouteIds = null)]; [now] is
    [Date.now()]. *)
Definition calculateETAs (now : float) (buses : list Bus) (stop : Stop)
    (routes : list Route) (filterRouteIds : option (list string)) : list Arrival :=
  let routeMap := routeMap_of routes in
  let filteredBuses := filterBuses buses filterRouteIds in
  firstn 10 (Array_sort by_eta (map (arrivalOf now stop routeMap) filteredBuses)).

End WithEngine2.
End API.

(** ** Persisted settings ([js/storage.js]), as the core reads them *)

Module Storage.

Record settings : Type := {
  selectedRoutes : list string; (* empty means all routes *)
  defaultSource : string;
  defaultDest : string
}.

Definition defaults : settings :=
  {| selectedRoutes := []; defaultSource := ""; defaultDest := "" |}.

End Storage.

(** ** View state of [js/ui.js] *)

Module UI.
Import JS API.

Inductive view : Type := selection | details | busNav.

Record state : Type := {
  stops : list Stop;
  routes : list Route;
  currentView : view;
  selectedSourceStop : option Stop;
  selectedDestStop : option Stop;
  sourceStop_value : string;      (* elements.sourceStop.value *)
  destStop_value : string;        (* elements.destStop.value *)
  stop_options : list string;     (* values of the options of both dropdowns *)
  arrivalsList : option (list Arrival)
    (* the list rendered by updateArrivals; None: the loading placeholder *)
}.

Definition with_view (v : view) (st : state) : state :=
  {| stops := stops st; routes := routes st; currentView := v;
     selectedSourceStop := selectedSourceStop st;
     selectedDestStop := selectedDestStop st;
     sourceStop_value := sourceStop_value st;
     destStop_value := destStop_value st;
     stop_options := stop_options st;
     arrivalsList := arrivalsList st |}.

Definition with_selected (src dst : option Stop) (st : state) : state :=
  {| stops := stops st; routes := routes st; currentView := currentView st;
     selectedSourceStop := src;
     selectedDestStop := dst;
     sourceStop_value := sourceStop_value st;
     destStop_value := destStop_value st;
     stop_options := stop_options st;
     arrivalsList := arrivalsList st |}.

Definition with_values (src dst : string) (st : state) : state :=
  {| stops := stops st; routes := routes st; currentView := currentView st;
     selectedSourceStop := selectedSourceStop st;
     selectedDestStop := selectedDestStop st;
     sourceStop_value := src;
     destStop_value := dst;
     stop_options := stop_options st;
     arrivalsList := arrivalsList st |}.

Definition with_arrivals (l : option (list Arrival)) (st : state) : state :=
  {| stops := stops st; routes := routes st; currentView := currentView st;
     selectedSourceStop := selectedSourceStop st;
     selectedDestStop := selectedDestStop st;
     sourceStop_value := sourceStop_value st;
     destStop_value := destStop_value st;
     stop_options := stop_options st;
     arrivalsList := l |}.

Section WithEngine.
Context {E : Engine}.

(** [stops.find(s => String(s.id) === String(id))] *)
Definition find_stop (l : list Stop) (id : string) : option Stop :=
  find (fun s => same_string (stop_id s) (Str id)) l.

Definition updateSelections (st : state) : state :=
  with_selected (find_stop (stops st) (sourceStop_value st))
                (find_stop (stops st) (destStop_value st)) st.

(** [showSelectionView]: switches the view, re-applies the saved defaults
    to the dropdowns and updates the selection.  It does not reach into the
    application module. *)
Definition showSelectionView (cfg : Storage.settings) (st : state) : state :=
  let st := with_view selection st in
  let defaultSource := Storage.defaultSource cfg in
  let defaultDest := Storage.defaultDest cfg in
  let src :=
    if negb (String.eqb defaultSource "")
       && existsb (String.eqb defaultSource) (stop_options st)
    then defaultSource else sourceStop_value st in
  let dst :=
    if negb (String.eqb defaultDest "")
       && existsb (String.eqb defaultDest) (stop_options st)
    then defaultDest else destStop_value st in
  updateSelections (with_values src dst st).

Definition showDetailsView (sourceStop : Stop) (destStop : option Stop)
    (st : state) : state :=
  with_arrivals None
    (with_selected (Some sourceStop) destStop (with_view details st)).

Definition showBusNavView (st : state) : state := with_view busNav st.

Definition updateArrivals (arrivals : list Arrival) (st : state) : state :=
  with_arrivals (Some arrivals) st.

End WithEngine.
End UI.

(** ** The application module: reconciliation and polling *)

Module App.
Import JS API.

Definition BUS_REFRESH_INTERVAL : Z := 5000.
Definition ARRIVALS_REFRESH_INTERVAL : Z := 10000.

(** What an interval timer runs when it fires. *)
Inductive callback : Type :=
| run_refreshBuses
| run_refreshArrivals (stop : Stop).

Record timer : Type := {
  timer_id : nat;
  timer_delay : Z;
  timer_callback : callback
}.

(** The module's variables, the view state, the settings, the browser's
    table of active interval timers, and [currentProxyIndex] of the API
    module. *)
Record world : Type := {
  routes : list Route;
  stops : list Stop;
  buses : list Bus;
  busRefreshInterval : option nat;
  arrivalsRefreshInterval : option nat;
  ui : UI.state;
  settings : Storage.settings;
  timers : list timer;
  timer_counter : nat;
  currentProxyIndex : nat
}.

Definition with_buses (l : list Bus) (w : world) : world :=
  {| routes := routes w; stops := stops w; buses := l;
     busRefreshInterval := busRefreshInterval w;
     arrivalsRefreshInterval := arrivalsRefreshInterval w;
     ui := ui w; settings := settings w; timers := timers w;
     timer_counter := timer_counter w;
     currentProxyIndex := currentProxyIndex w |}.

Definition with_busRefreshInterval (i : option nat) (w : world) : world :=
  {| routes := routes w; stops := stops w; buses := buses w;
     busRefreshInterval := i;
     arrivalsRefreshInterval := arrivalsRefreshInterval w;
     ui := ui w; settings := settings w; timers := timers w;
     timer_counter := timer_counter w;
     currentProxyIndex := currentProxyIndex w |}.

Definition with_arrivalsRefreshInterval (i : option nat) (w : world) : world :=
  {| routes := routes w; stops := stops w; buses := buses w;
     busRefreshInterval := busRefreshInterval w;
     arrivalsRefreshInterval := i;
     ui := ui w; settings := settings w; timers := timers w;
     timer_counter := timer_counter w;
     currentProxyIndex := currentProxyIndex w |}.

Definition with_ui (u : UI.state) (w : world) : world :=
  {| routes := routes w; stops := stops w; buses := buses w;
     busRefreshInterval := busRefreshInterval w;
     arrivalsRefreshInterval := arrivalsRefreshInterval w;
     ui := u; settings := settings w; timers := timers w;
     timer_counter := timer_counter w;
     currentProxyIndex := currentProxyIndex w |}.

Definition with_timers (l : list timer) (c : nat) (w : world) : world :=
  {| routes := routes w; stops := stops w; buses := buses w;
     busRefreshInterval := busRefreshInterval w;
     arrivalsRefreshInterval := arrivalsRefreshInterval w;
     ui := ui w; settings := settings w; timers := l;
     timer_counter := c;
     currentProxyIndex := currentProxyIndex w |}.

Definition with_currentProxyIndex (i : nat) (w : world) : world :=
  {| routes := routes w; stops := stops w; buses := buses w;
     busRefreshInterval := busRefreshInterval w;
     arrivalsRefreshInterval := arrivalsRefreshInterval w;
     ui := ui w; settings := settings w; timers := timers w;
     timer_counter := timer_counter w;
     currentProxyIndex := i |}.

(** [setInterval]: registers the timer and returns its id, a positive
    integer (so the id is truthy). *)
Definition setInterval (cb : callback) (delay : Z) (w : world) : nat * world :=
  let id := S (timer_counter w) in
  (id, with_timers (timers w ++ [{| timer_id := id; timer_delay := delay;
                                    timer_callback := cb |}]) id w).

Definition clearInterval (id : nat) (w : world) : world :=
  with_timers (filter (fun t => negb (Nat.eqb (timer_id t) id)) (timers w))
              (timer_counter w) w.

Definition getRouteFilter (w : world) : list string :=
  Storage.selectedRoutes (settings w).

Definition startBusPolling (w : world) : world :=
  let w := match busRefreshInterval w with
           | Some id => clearInterval id w
           | None => w
           end in
  let '(id, w) := setInterval run_refreshBuses BUS_REFRESH_INTERVAL w in
  with_busRefreshInterval (Some id) w.

Definition startArrivalsPolling (stop : Stop) (w : world) : world :=
  let w := match arrivalsRefreshInterval w with
           | Some id => clearInterval id w
           | None => w
           end in
  let '(id, w) := setInterval (run_refreshArrivals stop) ARRIVALS_REFRESH_INTERVAL w in
  with_arrivalsRefreshInterval (Some id) w.

(** Defined by the module, but neither called in it nor exported from it. *)
Definition stopArrivalsPolling (w : world) : world :=
  match arrivalsRefreshInterval w with
  | Some id => with_arrivalsRefreshInterval None (clearInterval id w)
  | None => w
  end.

Section WithEngine.
Context {E : Engine}.

(** The [else] branch of [refreshArrivals]: filter the upstream arrivals by
    the selected routes and attach the route's colour and name. *)
Definition enrich (routes : list Route) (selectedRoutes : list string)
    (arrivals : list Arrival) : list Arrival :=
  map (fun arrival =>
         let route :=
           find (fun r => same_string (route_id r) (arr_routeId arrival)) routes in
         {| arr_busId := arr_busId arrival;
            arr_busName := arr_busName arrival;
            arr_routeId := arr_routeId arrival;
            arr_routeName :=
              or_else (arr_routeName arrival)
                match route with
                | Some r => or_else (route_shortName r) (route_name r)
                | None => template "Route " (arr_routeId arrival)
                end;
            arr_routeColor :=
              match route with
              | Some r => route_color r
              | None => Str "#4a90d9"
              end;
            arr_eta := arr_eta arrival;
            arr_distance := arr_distance arrival;
            arr_speed := arr_speed arrival;
            arr_scheduledTime := arr_scheduledTime arrival;
            arr_timestamp := arr_timestamp arrival |})
      (filter (fun arrival =>
                 match selectedRoutes with
                 | [] => true
                 | _ :: _ => includes_route selectedRoutes (arr_routeId arrival)
                 end)
              arrivals).

(** [refreshArrivals(stop)] from the point where
    [await API.getStopArrivals(stop.id)] has completed with [fetched]: the
    rest of the [try] block, or the [catch] block when the fetch threw.
    The calls into the view ([UI.updateArrivals], [UI.updateRefreshTime])
    complete normally. *)
Definition refreshArrivals_after (now : float) (stop : Stop)
    (fetched : completion (list Arrival)) (w : world) : completion unit * world :=
  let selectedRoutes := getRouteFilter w in
  match fetched with
  | Normal arrivals =>
      let arrivals :=
        match arrivals with
        | [] => calculateETAs now (buses w) stop (routes w) (Some selectedRoutes)
        | _ :: _ => enrich (routes w) selectedRoutes arrivals
        end in
      (Normal tt, with_ui (UI.updateArrivals arrivals (ui w)) w)
  | Throw error =>
      (* catch: fall back to calculated ETAs *)
      let filteredRoutes := getRouteFilter w in
      let arrivals := calculateETAs now (buses w) stop (routes w) (Some filteredRoutes) in
      (Normal tt, with_ui (UI.updateArrivals arrivals (ui w)) w)
  end.

Definition refreshArrivals (net : Transport) (now : float) (stop : Stop) (w : world)
    : completion unit * world :=
  let '(fetched, idx) :=
    getStopArrivals now net (currentProxyIndex w) (stop_id stop) in
  refreshArrivals_after now stop fetched (with_currentProxyIndex idx w).

Definition refreshBuses (net : Transport) (now : float) (w : world)
    : completion unit * world :=
  let '(fetched, idx) := getBuses now net (currentProxyIndex w) in
  let w := with_currentProxyIndex idx w in
  match fetched with
  | Normal l =>
      let w := with_buses l w in
      match UI.currentView (ui w), UI.selectedSourceStop (ui w) with
      | UI.details, Some source =>
          let filteredRoutes := getRouteFilter w in
          let arrivals := calculateETAs now (buses w) source (routes w) (Some filteredRoutes) in
          (Normal tt, with_ui (UI.updateArrivals arrivals (ui w)) w)
      | _, _ => (Normal tt, w)
      end
  | Throw error => (Normal tt, w)
  end.

Definition handleSearch (net : Transport) (now : float)
    (sourceStop : Stop) (destStop : option Stop) (w : world) : world :=
  let w := with_ui (UI.showDetailsView sourceStop destStop (ui w)) w in
  let '(_, w) := refreshArrivals net now sourceStop w in
  startArrivalsPolling sourceStop w.

(** [goBackToDetailsView] of the UI module, which calls back into
    [App.refreshArrivals]. *)
Definition goBackToDetailsView (net : Transport) (now : float) (w : world) : world :=
  let u := ui w in
  let sourceStop :=
    match UI.selectedSourceStop u with
    | Some s => Some s
    | None =>
        let defaultSourceId := Storage.defaultSource (settings w) in
        if String.eqb defaultSourceId "" then None
        else UI.find_stop (UI.stops u) defaultSourceId
    end in
  let destStop :=
    match UI.selectedDestStop u with
    | Some s => Some s
    | None =>
        let defaultDestId := Storage.defaultDest (settings w) in
        if String.eqb defaultDestId "" then None
        else UI.find_stop (UI.stops u) defaultDestId
    end in
  match sourceStop with
  | Some s =>
      let w := with_ui (UI.showDetailsView s destStop u) w in
      snd (refreshArrivals net now s w)
  | None => with_ui (UI.showSelectionView (settings w) u) w
  end.

(** The click handler of the back button. *)
Definition backClicked (net : Transport) (now : float) (w : world) : world :=
  match UI.currentView (ui w) with
  | UI.busNav => goBackToDetailsView net now w
  | _ => with_ui (UI.showSelectionView (settings w) (ui w)) w
  end.

(** What the user and the browser can do to a running application; an
    event that reaches the network carries what the network answers and
    the time.  [BusClicked] stands for a click on a bus marker or an arrival
    card: of [handleBusClick] only the switch to the bus view matters here. *)
Inductive event : Type :=
| SearchClicked (net : Transport) (now : float)
| BackClicked (net : Transport) (now : float)
| BusClicked
| TimerFired (id : nat) (net : Transport) (now : float).

Definition find_timer (id : nat) (w : world) : option timer :=
  find (fun t => Nat.eqb (timer_id t) id) (timers w).

Definition step (w : world) (ev : event) : world :=
  match ev with
  | SearchClicked net now =>
      match UI.selectedSourceStop (ui w) with
      | Some s => handleSearch net now s (UI.selectedDestStop (ui w)) w
      | None => w
      end
  | BackClicked net now => backClicked net now w
  | BusClicked => with_ui (UI.showBusNavView (ui w)) w
  | TimerFired id net now =>
      match find_timer id w with
      | Some t =>
          match timer_callback t with
          | run_refreshBuses => snd (refreshBuses net now w)
          | run_refreshArrivals stop => snd (refreshArrivals net now stop w)
          end
      | None => w
      end
  end.

Definition run (w : world) (evs : list event) : world := fold_left step evs w.

(** The arrivals timers that are still registered with the browser. *)
Definition arrivals_timers (w : world) : list timer :=
  filter (fun t => match timer_callback t with
                   | run_refreshArrivals _ => true
                   | run_refreshBuses => false
                   end) (timers w).

End WithEngine.
End App.

(** ** A sample engine, for the examples

    It follows ECMAScript on the values the language fixes (NaN, zeros and
    infinities of the [Math] functions; printing of integers, NaN and
    infinities), approximates the trigonometric functions by series, reads and
    prints plain decimal numerals, and parses the JSON documents of the
    examples only. *)

Module Sample.
Import JS API.
Local Open Scope float_scope.

Definition two_pi : float := 2 * Math_PI.
Definition half_pi : float := Math_PI / 2.

(** [x^2/(k(k-1))]-style series, summed by Horner's rule:
    [series x2 [c0; c1; ...] = c0 + x2 * (c1 + x2 * ...)]. *)
Fixpoint series (x2 : float) (coeffs : list float) : float :=
  match coeffs with
  | [] => 0
  | c :: r => c + x2 * series x2 r
  end.

Fixpoint factorial_f (n : nat) : float :=
  match n with
  | O => 1
  | S k => float_of_Z (Z.of_nat n) * factorial_f k
  end.

(** [1/1!, -1/3!, 1/5!, ...] and [1/0!, -1/2!, 1/4!, ...] *)
Fixpoint alternating (start : nat) (terms : nat) (sign : bool) : list float :=
  match terms with
  | O => []
  | S t =>
      (if sign then - (1 / factorial_f start) else 1 / factorial_f start)
        :: alternating (S (S start)) t (negb sign)
  end.

Definition sin_coeffs : list float := Eval vm_compute in alternating 1 14 false.
Definition cos_coeffs : list float := Eval vm_compute in alternating 0 14 false.

(** Reduction of a non-negative argument to [[-pi, pi]]. *)
Definition reduce (x : float) : float :=
  if x <=? Math_PI then x else x - two_pi * Math_round (x / two_pi).

Definition sin_pos (x : float) : float :=
  let r := reduce x in r * series (r * r) sin_coeffs.

Definition sin (x : float) : float :=
  if PrimFloat.is_nan x || PrimFloat.is_infinity x then nan
  else if PrimFloat.is_zero x then x
  else if x <? 0 then - sin_pos (- x) else sin_pos x.

Definition cos (x : float) : float :=
  if PrimFloat.is_nan x || PrimFloat.is_infinity x then nan
  else let r := reduce (abs x) in series (r * r) cos_coeffs.

(** [1, -1/3, 1/5, ...] *)
Fixpoint atan_coeffs_from (k : nat) (terms : nat) (sign : bool) : list float :=
  match terms with
  | O => []
  | S t =>
      let c := 1 / float_of_Z (Z.of_nat k) in
      (if sign then - c else c) :: atan_coeffs_from (S (S k)) t (negb sign)
  end.

Definition atan_coeffs : list float := Eval vm_compute in atan_coeffs_from 1 12 false.

Definition halve_tangent (t : float) : float := t / (1 + PrimFloat.sqrt (1 + t * t)).

(** Arc tangent of [0 <= t <= 1]: three angle halvings, then the series. *)
Definition atan_unit (t : float) : float :=
  let u := halve_tangent (halve_tangent (halve_tangent t)) in
  8 * (u * series (u * u) atan_coeffs).

(** Arc tangent of [t >= 0] *)
Definition atan_pos (t : float) : float :=
  if t <=? 1 then atan_unit t
  else if PrimFloat.is_infinity t then half_pi
  else half_pi - atan_unit (1 / t).

Definition atan2 (y x : float) : float :=
  if PrimFloat.is_nan y || PrimFloat.is_nan x then nan
  else if PrimFloat.is_zero y && (0 <? x) then y
  else
    let sy := PrimFloat.get_sign y in
    let ay := abs y in
    let r :=
      if PrimFloat.is_zero x then (if PrimFloat.is_zero y then
                                     (if PrimFloat.get_sign x then Math_PI else 0)
                                   else half_pi)
      else if PrimFloat.is_infinity x && PrimFloat.is_infinity y then
        (if 0 <? x then Math_PI / 4 else 3 * Math_PI / 4)
      else if 0 <? x then atan_pos (ay / x)
      else Math_PI - atan_pos (ay / - x) in
    if sy then - r else r.

(** Printing *)
Definition string_of_Z (z : Z) : string :=
  NilZero.string_of_int (Z.to_int z).

Fixpoint fraction_digits (n : nat) (num den : Z) : string :=
  match n with
  | O => ""
  | S k =>
      if (num =? 0)%Z then ""
      else
        (string_of_Z (10 * num / den) ++ fraction_digits k (10 * num mod den) den)%string
  end.

Definition toString (x : float) : string :=
  match Prim2SF x with
  | S754_nan => "NaN"
  | S754_infinity false => "Infinity"
  | S754_infinity true => "-Infinity"
  | S754_zero _ => "0"
  | S754_finite s m e =>
      let sign := if s then "-" else "" in
      if (0 <=? e)%Z then (sign ++ string_of_Z (Zpos m * 2 ^ e))%string
      else
        let den := (2 ^ (- e))%Z in
        let ip := (Zpos m / den)%Z in
        let fp := (Zpos m mod den)%Z in
        if (fp =? 0)%Z then (sign ++ string_of_Z ip)%string
        else (sign ++ string_of_Z ip ++ "." ++ fraction_digits 6 fp den)%string
  end.

(** Reading of [digits] and [digits.digits], with an optional sign *)
Definition digit_of (c : ascii) : option Z :=
  let n := Z.of_nat (nat_of_ascii c) in
  if ((48 <=? n) && (n <=? 57))%Z then Some (n - 48)%Z else None.

Fixpoint read_digits (acc : Z) (count : nat) (s : string) : Z * nat * string :=
  match s with
  | EmptyString => (acc, count, s)
  | String c r =>
      match digit_of c with
      | Some d => read_digits (10 * acc + d) (S count) r
      | None => (acc, count, s)
      end
  end.

Definition is_space (c : ascii) : bool :=
  let n := nat_of_ascii c in
  (Nat.eqb n 32 || Nat.eqb n 9 || Nat.eqb n 10 || Nat.eqb n 11
   || Nat.eqb n 12 || Nat.eqb n 13)%bool.

Fixpoint trim_start (s : string) : string :=
  match s with
  | String c r => if is_space c then trim_start r else s
  | EmptyString => s
  end.

Fixpoint trim_end (s : string) : string :=
  match s with
  | EmptyString => EmptyString
  | String c r =>
      match trim_end r with
      | EmptyString => if is_space c then EmptyString else String c EmptyString
      | r' => String c r'
      end
  end.

Definition trim (s : string) : string := trim_end (trim_start s).

Definition read_sign (s : string) : bool * string :=
  match s with
  | String "-"%char r => (true, r)
  | String "+"%char r => (false, r)
  | _ => (false, s)
  end.

Definition parseInt_decimal (s : string) : float :=
  let '(neg, r) := read_sign (trim_start s) in
  let '(n, count, _) := read_digits 0 0 r in
  match count with
  | O => nan
  | _ => if neg then - float_of_Z n else float_of_Z n
  end.

Definition parseFloat_decimal (s : string) : float :=
  let '(neg, r) := read_sign (trim_start s) in
  let '(n, count, rest) := read_digits 0 0 r in
  let '(num, den, fcount) :=
    match rest with
    | String "."%char r' =>
        let '(n', k, _) := read_digits n 0 r' in (n', (10 ^ Z.of_nat k)%Z, k)
    | _ => (n, 1%Z, O)
    end in
  match (count + fcount)%nat with
  | O => nan
  | _ =>
      let v := float_of_Z num / float_of_Z den in
      if neg then - v else v
  end.

(** The documents that the sample [JSON.parse] knows; [quoted s] is [s]
    between double quotes. *)
Definition quoted (s : string) : string :=
  let q := String (ascii_of_nat 34) EmptyString in (q ++ s ++ q)%string.

Definition documents : list (string * value) :=
  [ ("null", Null);
    ("{}", Obj []);
    ("[]", Arr []);
    (("{" ++ quoted "all" ++ ":{" ++ quoted "1" ++ ":{" ++ quoted "myid" ++ ":"
       ++ quoted "5" ++ "}}}")%string,
       Obj [("all", Obj [("1", Obj [("myid", Str "5")])])]);
    (("{" ++ quoted "arrivals" ++ ":[null]}")%string,
       Obj [("arrivals", Arr [Null])]);
    (("{" ++ quoted "buses" ++ ":{" ++ quoted "hasOwnProperty" ++ ":[{"
       ++ quoted "busId" ++ ":1}]}}")%string,
       Obj [("buses", Obj [("hasOwnProperty", Arr [Obj [("busId", Num 1)]])])]) ].

Definition parse (s : string) : option value := lookup (trim s) documents.

#[export] Instance engine : Engine := {|
  Math_sin := sin;
  Math_cos := cos;
  Math_atan2 := atan2;
  Number_toString := toString;
  parseFloat_string := parseFloat_decimal;
  parseInt_string := parseInt_decimal;
  JSON_parse := parse;
  String_trim := trim
|}.

End Sample.


(** ** More of the code *)

(** *** [js/storage.js] over [localStorage] *)

Module Settings.
Import JS.

Definition STORAGE_KEY : string := "lma_bus_tracker_settings".

(** The browser's storage as the module meets it: when it is not
    [accessible] every call throws; [setItem] throws when the text is longer
    than [quota]; [item] is what is stored under [STORAGE_KEY]. *)
Record localStorage : Type := {
  accessible : bool;
  quota : nat;
  item : option string
}.

Definition with_item (i : option string) (ls : localStorage) : localStorage :=
  {| accessible := accessible ls; quota := quota ls; item := i |}.

Definition getItem (ls : localStorage) : completion (option string) :=
  if accessible ls then Normal (item ls) else Throw TypeError.

Definition setItem (text : string) (ls : localStorage) : completion localStorage :=
  if accessible ls && (String.length text <=? quota ls)%nat
  then Normal (with_item (Some text) ls)
  else Throw TypeError.

Definition removeItem (ls : localStorage) : completion localStorage :=
  if accessible ls then Normal (with_item None ls) else Throw TypeError.

(** [defaults] *)
Definition defaults : list (string * value) :=
  [("selectedRoutes", Arr []); ("defaultSource", Str "");
   ("defaultDest", Str ""); ("lastUpdated", Null)].

(** The place of a property name among the own keys of an object: array
    indices come first, in ascending order, then the other names in the
    order in which they were added. *)
Definition array_index (k : string) : option N :=
  match NilEmpty.uint_of_string k with
  | Some d =>
      let n := N.of_uint d in
      if String.eqb (NilZero.string_of_uint (N.to_uint n)) k && (n <? 4294967295)%N
      then Some n
      else None
  | None => None
  end.

Definition precedes (k k' : string) : bool :=
  match array_index k, array_index k' with
  | Some n, Some n' => (n <? n')%N
  | Some _, None => true
  | None, _ => false
  end.

Fixpoint replace (props : list (string * value)) (k : string) (v : value)
    : list (string * value) :=
  match props with
  | [] => []
  | (k', v') :: r =>
      if String.eqb k k' then (k', v) :: r else (k', v') :: replace r k v
  end.

Fixpoint insert_new (props : list (string * value)) (k : string) (v : value)
    : list (string * value) :=
  match props with
  | [] => [(k, v)]
  | (k', v') :: r =>
      if precedes k k' then (k, v) :: (k', v') :: r
      else (k', v') :: insert_new r k v
  end.

(** Assignment of one property: an existing key keeps its place, a new one
    takes the place its name gives it. *)
Definition set_prop (props : list (string * value)) (k : string) (v : value)
    : list (string * value) :=
  match lookup k props with
  | Some _ => replace props k v
  | None => insert_new props k v
  end.

(** [{ ...target, ...source }] continued: the own enumerable properties of
    [source] are assigned in order; [null], numbers and booleans have none. *)
Definition spread (target : list (string * value)) (source : value)
    : list (string * value) :=
  fold_left (fun acc kv => set_prop acc (fst kv) (snd kv)) (for_in source) target.

Section WithEngine.
Context {E : Engine}.

(** [JSON.stringify], which the engine of the other modules does not need. *)
Variable JSON_stringify : value -> string.

(** [getSettings]: never throws. *)
Definition getSettings (ls : localStorage) : list (string * value) :=
  match getItem ls with
  | Normal (Some stored) =>
      if negb (String.eqb stored "") then
        match JSON_parse stored with
        | Some parsed => spread (spread [] (Obj defaults)) parsed
        | None => spread [] (Obj defaults)
        end
      else spread [] (Obj defaults)
  | _ => spread [] (Obj defaults)
  end.

(** [saveSettings(settings)]: the object written, then the result and the
    storage afterwards; [now] is [Date.now()].  Reading the settings inside
    the [try] block does not throw. *)
Definition toSave (now : float) (settings : list (string * value))
    (ls : localStorage) : list (string * value) :=
  set_prop (spread (spread [] (Obj (getSettings ls))) (Obj settings))
           "lastUpdated" (Num now).

Definition saveSettings (now : float) (settings : list (string * value))
    (ls : localStorage) : bool * localStorage :=
  match setItem (JSON_stringify (Obj (toSave now settings ls))) ls with
  | Normal ls' => (true, ls')
  | Throw _ => (false, ls)
  end.

Definition read (ls : localStorage) (k : string) : value :=
  match lookup k (getSettings ls) with
  | Some v => v
  | None => Undefined
  end.

Definition getSelectedRoutes (ls : localStorage) : value :=
  or_else (read ls "selectedRoutes") (Arr []).

Definition setSelectedRoutes (now : float) (routeIds : value) (ls : localStorage)
    : bool * localStorage :=
  saveSettings now [("selectedRoutes", routeIds)] ls.

Definition getDefaultSource (ls : localStorage) : value :=
  or_else (read ls "defaultSource") (Str "").

Definition setDefaultSource (now : float) (stopId : value) (ls : localStorage)
    : bool * localStorage :=
  saveSettings now [("defaultSource", stopId)] ls.

Definition getDefaultDest (ls : localStorage) : value :=
  or_else (read ls "defaultDest") (Str "").

Definition setDefaultDest (now : float) (stopId : value) (ls : localStorage)
    : bool * localStorage :=
  saveSettings now [("defaultDest", stopId)] ls.

Definition clearSettings (ls : localStorage) : bool * localStorage :=
  match removeItem ls with
  | Normal ls' => (true, ls')
  | Throw _ => (false, ls)
  end.

End WithEngine.
End Settings.

(** *** Route visibility, as [Storage.isRouteVisible] and
    [MapManager.isRouteVisible] decide it from the list of selected routes *)

Module Visibility.
Import JS API.

Section WithEngine.
Context {E : Engine}.


End WithEngine.
End Visibility.

(** *** Clicks on buses and arrival cards (application module) *)

Module Clicks.
Import JS API.
Local Open Scope float_scope.

Section WithEngine.
Context {E : Engine}.

(** [routes.find(r => String(r.id) === String(bus.routeId))] *)
Definition routeOf (routes : list Route) (bus : Bus) : option Route :=
  find (fun r => same_string (route_id r) (bus_routeId bus)) routes.

(** [stops.filter(s => String(s.routeId) === String(bus.routeId))] *)
Definition routeStops (stops : list Stop) (bus : Bus) : list Stop :=
  filter (fun s => same_string (stop_routeId s) (bus_routeId bus)) stops.

(** One turn of the [forEach] of [handleBusClick]: the state is
    [(minDistance, nearestStop)]. *)
Definition nearer (userLocation : float * float) (state : float * option Stop)
    (stop : Stop) : float * option Stop :=
  let distance :=
    getDistanceKm (fst userLocation) (snd userLocation)
                  (stop_latitude stop) (stop_longitude stop) in
  if distance <? fst state then (distance, Some stop) else state.

(** The stop that [handleBusClick] hands to the bus view. *)
Definition nearestStopOf (userLocation : option (float * float))
    (stops : list Stop) (bus : Bus) : option Stop :=
  let nearestStop :=
    match userLocation with
    | Some loc => snd (fold_left (nearer loc) (routeStops stops bus) (infinity, None))
    | None => None
    end in
  match nearestStop with
  | Some s => Some s
  | None => find (fun s => same_string (stop_routeId s) (bus_routeId bus)) stops
  end.

(** [handleBusClick(bus)]: the route and the stop shown, and the view. *)
Definition handleBusClick (userLocation : option (float * float))
    (routes : list Route) (stops : list Stop) (bus : Bus) (u : UI.state)
    : option Route * option Stop * UI.state :=
  (routeOf routes bus, nearestStopOf userLocation stops bus, UI.showBusNavView u).


End WithEngine.
End Clicks.

(** *** The stop dropdowns ([populateStops] of [js/ui.js]) *)

Module Dropdown.
Import JS API.


Section WithEngine.
Context {E : Engine}.


End WithEngine.
End Dropdown.

(** *** Calls and handlers that overlap

    Every [await] lets other handlers and other calls run.  Here one call
    of [postRequest] and one search are followed across their awaits, what
    the others do meanwhile being given from outside. *)

Module InFlight.
Import JS API.

Section WithEngine.
Context {E : Engine}.

(** [postRequest] while other calls may be in flight on the shared
    [currentProxyIndex].  An attempt reads its proxy when it starts and then
    awaits the network; other calls can advance the index meanwhile (no
    call moves it back).  [seen] lists, attempt by attempt, how far the
    others have brought the index by the time the awaits of the attempt are
    over; an attempt without an entry meets no other call.  The [catch]
    block tests and increments the index as it stands then, and the retry
    reads its proxy at once.  The second component is the index when the
    call settles. *)
Fixpoint postRequest_among_fuel (fuel : nat) (net : Transport) (seen : list nat)
    (currentProxyIndex : nat) (endpoint : string) (body : value)
    : completion value * nat :=
  let settled := Nat.max currentProxyIndex (hd 0%nat seen) in
  match attempt (nth_error CORS_PROXIES currentProxyIndex) net endpoint body with
  | Normal v => (Normal v, settled)
  | Throw error =>
      if settled <? List.length CORS_PROXIES - 1 then
        match fuel with
        | S fuel' =>
            postRequest_among_fuel fuel' net (tl seen) (S settled) endpoint body
        | O => (Throw error, settled)
        end
      else (Throw error, settled)
  end%nat.

Definition postRequest_among (net : Transport) (seen : list nat)
    (currentProxyIndex : nat) (endpoint : string) (body : value)
    : completion value * nat :=
  postRequest_among_fuel (List.length CORS_PROXIES) net seen currentProxyIndex
                         endpoint body.

(** [handleSearch(sourceStop, destStop)] up to the [await]: the details
    view is shown, and [refreshArrivals] has read the route filter and
    started the fetch. *)
Definition handleSearch_begin (sourceStop : Stop) (destStop : option Stop)
    (w : App.world) : App.world * list string :=
  let w := App.with_ui (UI.showDetailsView sourceStop destStop (App.ui w)) w in
  (w, App.getRouteFilter w).

(** [refreshArrivals(stop)] from the point where the fetch has settled with
    [fetched], in the state [w] in which the application is by then;
    [selectedRoutes] was read before the [await], the buses and routes are
    read after it. *)
Definition refreshArrivals_resume (now : float) (stop : Stop)
    (selectedRoutes : list string) (fetched : completion (list Arrival))
    (w : App.world) : completion unit * App.world :=
  match fetched with
  | Normal arrivals =>
      let arrivals :=
        match arrivals with
        | [] => calculateETAs now (App.buses w) stop (App.routes w) (Some selectedRoutes)
        | _ :: _ => App.enrich (App.routes w) selectedRoutes arrivals
        end in
      (Normal tt, App.with_ui (UI.updateArrivals arrivals (App.ui w)) w)
  | Throw error =>
      let filteredRoutes := App.getRouteFilter w in
      let arrivals :=
        calculateETAs now (App.buses w) stop (App.routes w) (Some filteredRoutes) in
      (Normal tt, App.with_ui (UI.updateArrivals arrivals (App.ui w)) w)
  end.

(** [handleSearch] from the point where [await refreshArrivals(sourceStop)]
    resumes: the rest of [refreshArrivals], then [startArrivalsPolling]. *)
Definition handleSearch_resume (now : float) (sourceStop : Stop)
    (selectedRoutes : list string) (fetched : completion (list Arrival))
    (w : App.world) : App.world :=
  let '(_, w) := refreshArrivals_resume now sourceStop selectedRoutes fetched w in
  App.startArrivalsPolling sourceStop w.

End WithEngine.
End InFlight.

(** *** A sample engine that knows more replies *)

Module Replies.
Import JS.

Definition arrivals_text : string :=
  ("{" ++ Sample.quoted "arrivals" ++ ":[{" ++ Sample.quoted "busId" ++ ":7,"
   ++ Sample.quoted "eta" ++ ":" ++ Sample.quoted "soon" ++ "}]}")%string.

(** A sample of [JSON.stringify], for names and strings that need no
    escaping: properties holding [undefined] are left out, and a Number
    that is not finite is written as [null]. *)
Fixpoint stringify (v : value) : string :=
  match v with
  | Undefined | Null => "null"
  | Bool true => "true"
  | Bool false => "false"
  | Num x =>
      if PrimFloat.is_nan x || PrimFloat.is_infinity x then "null"
      else Sample.toString x
  | Str s => Sample.quoted s
  | Arr items =>
      ("[" ++ String.concat ","
                ((fix each (l : list value) : list string :=
                    match l with
                    | [] => []
                    | x :: r => stringify x :: each r
                    end) items) ++ "]")%string
  | Obj props =>
      ("{" ++ String.concat ","
                ((fix each (l : list (string * value)) : list string :=
                    match l with
                    | [] => []
                    | (k, x) :: r =>
                        match x with
                        | Undefined => each r
                        | _ => (Sample.quoted k ++ ":" ++ stringify x)%string :: each r
                        end
                    end) props) ++ "}")%string
  end.

(** The settings of a user who has selected route 5, saved at time 7. *)
Definition saved : value :=
  Obj [("selectedRoutes", Arr [Str "5"]); ("defaultSource", Str "");
       ("defaultDest", Str ""); ("lastUpdated", Num 7)].

Definition documents : list (string * value) :=
  (arrivals_text, Obj [("arrivals", Arr [Obj [("busId", Num 7); ("eta", Str "soon")]])])
    :: (stringify saved, saved)
    :: Sample.documents.

Definition parse (s : string) : option value := lookup (Sample.trim s) documents.

Definition engine : Engine := {|
  Math_sin := Sample.sin;
  Math_cos := Sample.cos;
  Math_atan2 := Sample.atan2;
  Number_toString := Sample.toString;
  parseFloat_string := Sample.parseFloat_decimal;
  parseInt_string := Sample.parseInt_decimal;
  JSON_parse := parse;
  String_trim := Sample.trim
|}.

End Replies.

(** ** Vocabulary of the properties *)

Section Vocabulary.
Import JS API.
Local Open Scope float_scope.
Context {E : Engine}.

(** The top-level container [key] of a payload is absent: the payload is
    [null] (or falsy), or the property is missing, [null] or falsy. *)
Definition container_absent (data : value) (key : string) : Prop :=
  truthy data = false \/ exists c, get data key = Normal c /\ truthy c = false.

(** The container is a number or a boolean. *)
Definition container_scalar (data : value) (key : string) : Prop :=
  truthy data = true /\
  exists c, get data key = Normal c /\
            match c with Num _ | Bool _ => True | _ => False end.

(** The records that one value of a keyed map contributes: a batch gives
    its elements, a single record itself. *)
Definition batch_of (item : value) : list value :=
  match item with
  | Arr batch => batch
  | _ => [item]
  end.

(** [a] is not later than [b]. *)
Definition eta_le (a b : Arrival) : Prop := (arr_eta a <=? arr_eta b) = true.

(** The ETA values are in non-decreasing order. *)
Definition eta_nondecreasing (l : list Arrival) : Prop := Sorted eta_le l.

(** Equality of Numbers as [==] and [===] decide it: NaN equals nothing. *)
Definition number_equal (x y : float) : Prop := (x =? y) = true.

(** What ECMAScript fixes of [Math.sin] and [Math.atan2] at zero. *)
Definition sin_at_zero : Prop := Math_sin 0 = 0.
Definition atan2_at_zero : Prop := forall x, (0 <? x) = true -> Math_atan2 0 x = 0.

(** [Math.sin] is an odd function.  The language does not require it; the
    fdlibm-derived implementations of the common engines provide it. *)
Definition sin_odd : Prop := forall x, Math_sin (- x) = - Math_sin x.

(** [sin(dLat/2)] of the source, as a function of the difference. *)
Definition half_angle_sin (d : float) : float := Math_sin (d * Math_PI / 180 / 2).

(** What the call does through the proxy at index [i]. *)
Definition tried (net : Transport) (endpoint : string) (body : value) (i : nat)
    : completion value :=
  attempt (nth_error CORS_PROXIES i) net endpoint body.

(** A reply body with nothing in it: empty, or white space only. *)
Definition blank (text : string) : Prop := text = "" \/ String_trim text = "".

(** [null] or [undefined]: the values whose properties cannot be read. *)
Definition nullish (v : value) : Prop := v = Null \/ v = Undefined.

(** [v.k] where the read cannot throw. *)
Definition prop (v : value) (k : string) : value :=
  match get v k with
  | Normal x => x
  | Throw _ => Undefined
  end.

(** Both coordinates of a point are numbers. *)
Definition is_point (p : float * float) : Prop :=
  PrimFloat.is_nan (fst p) = false /\ PrimFloat.is_nan (snd p) = false.

(** The bus timers that are still registered with the browser. *)
Definition bus_timers (w : App.world) : list App.timer :=
  filter (fun t => match App.timer_callback t with
                   | App.run_refreshBuses => true
                   | App.run_refreshArrivals _ => false
                   end) (App.timers w).

(** A timer variable of the application module names the timers [l]: it
    holds the id of the only one, or nothing when there is none. *)
Definition names_timers (var : option nat) (l : list App.timer) : Prop :=
  map App.timer_id l = match var with Some id => [id] | None => [] end.

(** The timer variables and the browser's timer table agree: ids are not
    reused, and each variable names the registered timers of its kind. *)
Definition timers_consistent (w : App.world) : Prop :=
  NoDup (map App.timer_id (App.timers w))
  /\ Forall (fun t => (App.timer_id t <= App.timer_counter w)%nat) (App.timers w)
  /\ names_timers (App.arrivalsRefreshInterval w) (App.arrivals_timers w)
  /\ names_timers (App.busRefreshInterval w) (bus_timers w).

(** The part of the application state that polling is made of. *)
Definition timer_state (w : App.world)
    : list App.timer * nat * option nat * option nat :=
  (App.timers w, App.timer_counter w, App.arrivalsRefreshInterval w,
   App.busRefreshInterval w).





(** What ranks an arrival and identifies its bus: everything but the
    route's name and colour and the time stamp. *)
Definition ranking_view (a : Arrival)
    : value * value * value * float * option float * option float :=
  (arr_busId a, arr_busName a, arr_routeId a, arr_eta a, arr_distance a, arr_speed a).


(** A rounded result that is an infinity or a finite number of sign [s]:
    neither zero nor NaN. *)
Definition positive_result (s : bool) (r : spec_float) : Prop :=
  r = S754_infinity s \/ exists m e, r = S754_finite s m e.

End Vocabulary.

(** ** Data of the examples *)

(** The data of the examples: the stop and the bus of the specification's
    scenario (coordinates read from text, as the normalizers do), and a world
    in which the stop is selected. *)
Module Scenario.
Import JS API.
Local Open Scope float_scope.

Definition coordinate (s : string) : float := Sample.parseFloat_decimal s.

Definition stopA : Stop :=
  {| stop_id := Str "ID1"; stop_name := Str "Vanderbilt";
     stop_latitude := coordinate "42.338"; stop_longitude := coordinate "-71.105";
     stop_routeId := Str "5"; stop_routeName := Undefined;
     stop_color := Str "#666666" |}.

Definition bus_at (id routeId : value) (lat lon : string) (speed : float) : Bus :=
  {| bus_id := id; bus_busName := template (E := Sample.engine) "Bus " id;
     bus_routeId := routeId;
     bus_latitude := coordinate lat; bus_longitude := coordinate lon;
     bus_heading := 0; bus_speed := speed;
     bus_paxLoad := Num 0; bus_timestamp := Num 0 |}.

Definition bus1 : Bus := bus_at (Str "b1") (Str "5") "42.340" "-71.110" 0.

Definition routeM2 : Route :=
  {| route_id := Str "5"; route_name := Str "M2 Cambridge";
     route_shortName := Str "M2"; route_color := Str "#ff0000";
     route_points := []; route_groupId := Undefined; route_active := true |}.

Definition ui0 : UI.state :=
  {| UI.stops := [stopA]; UI.routes := [routeM2];
     UI.currentView := UI.selection;
     UI.selectedSourceStop := Some stopA; UI.selectedDestStop := None;
     UI.sourceStop_value := "ID1"; UI.destStop_value := "";
     UI.stop_options := ["ID1"];
     UI.arrivalsList := None |}.

(** The application after [init]: data loaded, bus polling started. *)
Definition world0 : App.world :=
  App.startBusPolling
    {| App.routes := [routeM2]; App.stops := [stopA]; App.buses := [bus1];
       App.busRefreshInterval := None; App.arrivalsRefreshInterval := None;
       App.ui := ui0; App.settings := Storage.defaults;
       App.timers := []; App.timer_counter := 0;
       App.currentProxyIndex := 0 |}.

(** A network on which every proxy is unreachable. *)
Definition offline : Transport := fun _ _ _ => Rejected.

Definition busLost : Bus := bus_at (Str "b0") (Str "5") "" "-71.110" 0.

Definition eleven : list Bus :=
  map (fun id => bus_at (Str id) (Str "5") "42.340" "-71.110" 0)
      ["b1"; "b2"; "b3"; "b4"; "b5"; "b6"; "b7"; "b8"; "b9"; "b10"; "b11"].

End Scenario.

(** *** More places and people *)

Module Places.
Import JS API.
Local Open Scope float_scope.



(** A browser storage that works and holds nothing yet. *)
Definition emptyStorage : Settings.localStorage :=
  {| Settings.accessible := true; Settings.quota := 5000; Settings.item := None |}.

(** A browser in which the storage is blocked. *)
Definition blockedStorage : Settings.localStorage :=
  {| Settings.accessible := false; Settings.quota := 5000;
     Settings.item := Some "{}" |}.

(** A bus of route 7 whose position did not parse, and a bus of route 5
    across the river. *)
Definition busLost7 : Bus := Scenario.bus_at (Str "b0") (Str "7") "" "-71.110" 0.
Definition busFar5 : Bus := Scenario.bus_at (Str "b12") (Str "5") "42.373" "-71.119" 12.


End Places.

(** * Properties *)

(** ** Binary64 arithmetic

    Facts about the primitive operations, derived from their specification
    in [SpecFloat]: what changing a sign does to a product, a quotient and a
    difference, and that the sign of [x - y] tells how [x] and [y] compare
    (gradual underflow: a difference of distinct numbers is never rounded
    to zero). *)

Module Binary64.
Local Open Scope float_scope.

Lemma SFcompare_refl_finite s m e :
  SFcompare (S754_finite s m e) (S754_finite s m e) = Some Eq.
Proof.
  simpl. rewrite Z.compare_refl. rewrite Pos.compare_cont_refl. destruct s; reflexivity.
Qed.

Lemma is_nan_spec x : PrimFloat.is_nan x = match Prim2SF x with S754_nan => true | _ => false end.
Proof.
  unfold PrimFloat.is_nan. rewrite eqb_spec. unfold SFeqb.
  destruct (Prim2SF x) as [s|s| |s m e]; try (destruct s; reflexivity); try reflexivity.
  rewrite SFcompare_refl_finite. reflexivity.
Qed.

Lemma is_infinity_spec x : PrimFloat.is_infinity x = match Prim2SF x with S754_infinity _ => true | _ => false end.
Proof.
  unfold PrimFloat.is_infinity. rewrite eqb_spec, abs_spec. unfold SFeqb.
  replace (Prim2SF infinity) with (S754_infinity false) by reflexivity.
  destruct (Prim2SF x) as [s|s| |s m e]; try (destruct s; reflexivity); try reflexivity.
Qed.

Lemma sub_self x : PrimFloat.is_finite x = true -> x - x = 0.
Proof.
  unfold PrimFloat.is_finite. rewrite is_nan_spec, is_infinity_spec. intros H.
  apply Prim2SF_inj. rewrite sub_spec. replace (Prim2SF 0) with (S754_zero false) by reflexivity.
  destruct (Prim2SF x) as [s|s| |s m e]; try discriminate.
  - destruct s; reflexivity.
  - unfold SF64sub, SFsub. rewrite Z.min_id. unfold shl_align. rewrite Z.sub_diag. reflexivity.
Qed.

(** *** Sign symmetry of the rounded operations *)
Lemma binary_round_aux_opp s m e l :
  binary_round_aux prec emax (negb s) m e l = SFopp (binary_round_aux prec emax s m e l).
Proof.
  unfold binary_round_aux.
  destruct (shr_fexp prec emax m e l) as [mrs' e'].
  destruct (shr_fexp prec emax _ e' loc_Exact) as [mrs'' e''].
  destruct (shr_m mrs''); try reflexivity.
  destruct (e'' <=? emax - prec)%Z; reflexivity.
Qed.

Lemma binary_round_opp s m e :
  binary_round prec emax (negb s) m e = SFopp (binary_round prec emax s m e).
Proof.
  unfold binary_round. destruct (shl_align _ _ _) as [mz ez]. apply binary_round_aux_opp.
Qed.

Lemma binary_normalize_opp d e sz :
  d <> 0%Z ->
  binary_normalize prec emax (- d) e sz = SFopp (binary_normalize prec emax d e sz).
Proof.
  destruct d as [|p|p]; intros H; [congruence| |]; simpl.
  - apply (binary_round_opp false).
  - rewrite (binary_round_opp false). destruct (binary_round prec emax false p e) as [[]|[]| |[] ? ?]; reflexivity.
Qed.

Lemma SFsub_antisym x y :
  SF64sub x y = SFopp (SF64sub y x) \/
  (SF64sub x y = S754_zero false /\ SF64sub y x = S754_zero false).
Proof.
  destruct x as [sx|sx| |sx mx ex], y as [sy|sy| |sy my ey];
    try (destruct sx, sy; simpl; auto; fail); try (destruct sx; simpl; auto; fail);
    try (destruct sy; simpl; auto; fail); try (simpl; auto; fail).
  unfold SF64sub, SFsub. rewrite (Z.min_comm ey ex).
  set (A := cond_Zopp sx _). set (B := cond_Zopp sy _).
  destruct (Z.eq_dec (A - B) 0) as [Hz|Hz].
  - right. replace (B - A)%Z with 0%Z by lia. rewrite Hz. split; reflexivity.
  - left. replace (A - B)%Z with (- (B - A))%Z by lia. apply binary_normalize_opp. lia.
Qed.

Lemma sub_antisym x y : x - y = - (y - x) \/ (x - y = 0 /\ y - x = 0).
Proof.
  destruct (SFsub_antisym (Prim2SF x) (Prim2SF y)) as [H|[H1 H2]].
  - left. apply Prim2SF_inj. rewrite opp_spec, !sub_spec. exact H.
  - right. split; apply Prim2SF_inj; rewrite sub_spec; assumption.
Qed.

Lemma SFmul_opp_l x y : SF64mul (SFopp x) y = SFopp (SF64mul x y).
Proof.
  destruct x as [sx|sx| |sx mx ex], y as [sy|sy| |sy my ey]; simpl; try reflexivity;
    try (destruct sx, sy; reflexivity).
  replace (xorb (negb sx) sy) with (negb (xorb sx sy)) by (destruct sx, sy; reflexivity).
  apply binary_round_aux_opp.
Qed.

Lemma SFmul_comm x y : SF64mul x y = SF64mul y x.
Proof.
  destruct x as [sx|sx| |sx mx ex], y as [sy|sy| |sy my ey]; simpl; try reflexivity;
    try (destruct sx, sy; reflexivity).
  rewrite xorb_comm, Pos.mul_comm, Z.add_comm. reflexivity.
Qed.

Lemma SFdiv_opp_l x y : SF64div (SFopp x) y = SFopp (SF64div x y).
Proof.
  destruct x as [sx|sx| |sx mx ex], y as [sy|sy| |sy my ey]; simpl; try reflexivity;
    try (destruct sx, sy; reflexivity).
  destruct (SFdiv_core_binary prec emax (Z.pos mx) ex (Z.pos my) ey) as [[mz ez] lz].
  replace (xorb (negb sx) sy) with (negb (xorb sx sy)) by (destruct sx, sy; reflexivity).
  apply binary_round_aux_opp.
Qed.

Lemma mul_opp_l x y : (- x) * y = - (x * y).
Proof. apply Prim2SF_inj. rewrite opp_spec, !mul_spec, opp_spec. apply SFmul_opp_l. Qed.

Lemma mul_comm x y : x * y = y * x.
Proof. apply Prim2SF_inj. rewrite !mul_spec. apply SFmul_comm. Qed.

Lemma div_opp_l x y : (- x) / y = - (x / y).
Proof. apply Prim2SF_inj. rewrite opp_spec, !div_spec, opp_spec. apply SFdiv_opp_l. Qed.

Lemma mul_opp_opp x y : (- x) * (- y) = x * y.
Proof.
  rewrite mul_opp_l, (mul_comm x (- y)), mul_opp_l, (mul_comm y x).
  apply Prim2SF_inj. rewrite !opp_spec. destruct (Prim2SF (x * y)) as [[]|[]| |[] ? ?]; reflexivity.
Qed.

(** *** Rounding a positive integer mantissa never gives zero above [emin] *)
Lemma iter_pos_nat {A} (f : A -> A) p x : iter_pos f p x = Nat.iter (Pos.to_nat p) f x.
Proof.
  revert x. induction p as [p IH|p IH|]; intros x; simpl iter_pos.
  - rewrite !IH, <- Nat.iter_succ_r, <- Nat.iter_add. f_equal. lia.
  - rewrite !IH, <- Nat.iter_add. f_equal. lia.
  - reflexivity.
Qed.

Lemma digits2_pos_bounds m :
  (2 ^ (Zpos (digits2_pos m) - 1) <= Zpos m < 2 ^ Zpos (digits2_pos m))%Z.
Proof.
  induction m as [m IH|m IH|].
  - assert (H : (Zpos (digits2_pos m~1) = Z.succ (Zpos (digits2_pos m)))%Z)
      by (simpl; apply Pos2Z.inj_succ).
    rewrite H, (Pos2Z.inj_xI m).
    replace (Z.succ (Zpos (digits2_pos m)) - 1)%Z with (Z.succ (Zpos (digits2_pos m) - 1)) by lia.
    rewrite !Z.pow_succ_r by lia. lia.
  - assert (H : (Zpos (digits2_pos m~0) = Z.succ (Zpos (digits2_pos m)))%Z)
      by (simpl; apply Pos2Z.inj_succ).
    rewrite H, (Pos2Z.inj_xO m).
    replace (Z.succ (Zpos (digits2_pos m)) - 1)%Z with (Z.succ (Zpos (digits2_pos m) - 1)) by lia.
    rewrite !Z.pow_succ_r by lia. lia.
  - simpl. lia.
Qed.

Lemma shr_1_pos mrs p :
  shr_m mrs = Zpos p -> (1 < Zpos (digits2_pos p))%Z ->
  exists p', shr_m (shr_1 mrs) = Zpos p' /\ Zpos (digits2_pos p') = (Zpos (digits2_pos p) - 1)%Z.
Proof.
  destruct mrs as [m r s]. cbn [shr_m]. intros -> H.
  destruct p as [p|p|]; cbn [shr_1 shr_m digits2_pos] in *.
  - exists p. split; [reflexivity|rewrite Pos2Z.inj_succ; lia].
  - exists p. split; [reflexivity|rewrite Pos2Z.inj_succ; lia].
  - lia.
Qed.

Lemma shr_iter_pos n : forall mrs p,
  shr_m mrs = Zpos p -> (Z.of_nat n < Zpos (digits2_pos p))%Z ->
  exists p', shr_m (Nat.iter n shr_1 mrs) = Zpos p'.
Proof.
  induction n as [|n IH]; intros mrs p Hm Hn.
  - exists p. exact Hm.
  - rewrite Nat.iter_succ_r.
    destruct (shr_1_pos mrs p Hm) as [p' [Hp' Hd]]; [lia|].
    apply (IH _ p' Hp'). lia.
Qed.

Lemma shr_m_of_loc m l : shr_m (shr_record_of_loc m l) = m.
Proof. destruct l as [|[]]; reflexivity. Qed.

Lemma shr_fexp_pos m e l :
  (emin <= e)%Z ->
  exists mrs e' p, shr_fexp prec emax (Zpos m) e l = (mrs, e') /\ shr_m mrs = Zpos p /\ (emin <= e')%Z.
Proof.
  intros He. unfold shr_fexp, shr.
  set (n := (fexp prec emax (Zdigits2 (Z.pos m) + e) - e)%Z).
  assert (Hn : (n < Zpos (digits2_pos m))%Z).
  { subst n. unfold fexp, Zdigits2, SpecFloat.emin, prec, emax in *. lia. }
  destruct n as [|q|q] eqn:En.
  - eexists _, _, m. split; [reflexivity|]. split; [apply shr_m_of_loc|exact He].
  - rewrite iter_pos_nat.
    destruct (shr_iter_pos (Pos.to_nat q) (shr_record_of_loc (Z.pos m) l) m) as [p' Hp'].
    + apply shr_m_of_loc.
    + rewrite positive_nat_Z. exact Hn.
    + eexists _, _, p'. split; [reflexivity|]. split; [exact Hp'|lia].
  - eexists _, _, m. split; [reflexivity|]. split; [apply shr_m_of_loc|exact He].
Qed.

Lemma round_nearest_even_pos p l : exists p', round_nearest_even (Zpos p) l = Zpos p'.
Proof.
  destruct l as [|[]]; simpl; try (eexists; reflexivity).
  destruct p; simpl; eexists; reflexivity.
Qed.

Lemma binary_round_aux_pos s m e l :
  (emin <= e)%Z -> positive_result s (binary_round_aux prec emax s (Zpos m) e l).
Proof.
  intros He. unfold binary_round_aux.
  destruct (shr_fexp_pos m e l He) as (mrs' & e' & p & -> & Hp & He').
  rewrite Hp.
  destruct (round_nearest_even_pos p (loc_of_shr_record mrs')) as [p1 ->].
  destruct (shr_fexp_pos p1 e' loc_Exact He') as (mrs'' & e'' & p2 & -> & Hp2 & He'').
  rewrite Hp2.
  destruct (e'' <=? emax - prec)%Z; [right; eauto|left; reflexivity].
Qed.

Lemma binary_round_pos s m e :
  (emin <= e)%Z -> positive_result s (binary_round prec emax s m e).
Proof.
  intros He. unfold binary_round.
  destruct (shl_align m e (fexp prec emax (Z.pos (digits2_pos m) + e))) as [mz ez] eqn:Hs.
  apply binary_round_aux_pos.
  unfold shl_align in Hs.
  destruct (fexp prec emax (Z.pos (digits2_pos m) + e) - e)%Z eqn:Hd; inversion Hs; subst; try exact He.
  unfold fexp, SpecFloat.emin, prec, emax in *. lia.
Qed.

(** *** Order and the sign of a difference *)
Lemma valid_finite s m e :
  valid_binary (S754_finite s m e) = true ->
  (emin <= e)%Z /\ (Zpos (digits2_pos m) <= prec)%Z /\
  ((emin < e)%Z -> Zpos (digits2_pos m) = prec).
Proof.
  unfold SpecFloat.valid_binary, bounded, canonical_mantissa, fexp, SpecFloat.emin, prec, emax.
  intros H. apply andb_true_iff in H. destruct H as [H _].
  apply Z.eqb_eq in H. lia.
Qed.

Lemma shl_align_fst m e e' :
  (e' <= e)%Z -> Zpos (fst (shl_align m e e')) = (Zpos m * 2 ^ (e - e'))%Z.
Proof.
  intros H. unfold shl_align.
  destruct (e' - e)%Z as [|d|d] eqn:Hd; cbn [fst].
  - replace (e - e')%Z with 0%Z by lia. rewrite Z.pow_0_r. lia.
  - lia.
  - replace (e - e')%Z with (Zpos d) by lia.
    change (Pos.iter xO m d) with (shift_pos d m).
    rewrite shift_pos_correct. change (Z.pow_pos 2 d) with (2 ^ Zpos d)%Z. lia.
Qed.

Lemma mantissa_lt_pow m : (Zpos (digits2_pos m) <= prec)%Z -> (Zpos m < 2 ^ 53)%Z.
Proof.
  intros H. destruct (digits2_pos_bounds m) as [_ Hu].
  eapply Z.lt_le_trans; [exact Hu|]. apply Z.pow_le_mono_r; unfold prec in H; lia.
Qed.

Lemma mantissa_ge_pow m : Zpos (digits2_pos m) = prec -> (2 ^ 52 <= Zpos m)%Z.
Proof.
  intros H. destruct (digits2_pos_bounds m) as [Hl _]. rewrite H in Hl. exact Hl.
Qed.

(** Magnitudes of two valid finite numbers, aligned at the smaller exponent. *)
Lemma magnitude_lt s1 m1 e1 s2 m2 e2 :
  valid_binary (S754_finite s1 m1 e1) = true ->
  valid_binary (S754_finite s2 m2 e2) = true ->
  (e1 < e2)%Z \/ (e1 = e2 /\ (m1 < m2)%positive) ->
  (Zpos (fst (shl_align m1 e1 (Z.min e1 e2))) < Zpos (fst (shl_align m2 e2 (Z.min e1 e2))))%Z.
Proof.
  intros V1 V2 H.
  apply valid_finite in V1. apply valid_finite in V2.
  destruct V1 as (E1 & D1 & _). destruct V2 as (E2 & D2 & N2).
  rewrite !shl_align_fst by lia.
  destruct H as [H|[H1 H2]].
  - rewrite Z.min_l by lia. rewrite Z.sub_diag, Z.pow_0_r, Z.mul_1_r.
    pose proof (mantissa_lt_pow m1 D1) as B1.
    pose proof (mantissa_ge_pow m2 (N2 ltac:(lia))) as B2.
    assert (P : (2 ^ 1 <= 2 ^ (e2 - e1))%Z) by (apply Z.pow_le_mono_r; lia).
    change (2 ^ 1)%Z with 2%Z in P.
    change (2 ^ 53)%Z with (2 ^ 52 * 2)%Z in B1.
    eapply Z.lt_le_trans; [exact B1|].
    apply Z.mul_le_mono_nonneg; lia.
  - subst e2. rewrite Z.min_id, Z.sub_diag, Z.pow_0_r. lia.
Qed.

Lemma SFsub_finite_pos sx mx ex sy my ey :
  (emin <= ex)%Z -> (emin <= ey)%Z ->
  (0 < cond_Zopp sx (Zpos (fst (shl_align mx ex (Z.min ex ey))))
       - cond_Zopp sy (Zpos (fst (shl_align my ey (Z.min ex ey)))))%Z ->
  positive_result false (SF64sub (S754_finite sx mx ex) (S754_finite sy my ey)).
Proof.
  intros Ex Ey H. unfold SF64sub, SFsub.
  destruct (_ - _)%Z as [|p|p] eqn:Hd; try lia.
  cbn [binary_normalize]. apply binary_round_pos. lia.
Qed.

Lemma positive_result_gt r : positive_result false r -> SFltb (S754_zero false) r = true.
Proof. intros [->|(m & e & ->)]; reflexivity. Qed.

Lemma SFsub_pos x y :
  valid_binary x = true -> valid_binary y = true ->
  SFltb y x = true -> SFltb (S754_zero false) (SF64sub x y) = true.
Proof.
  intros Vx Vy H.
  destruct x as [sx|sx| |sx mx ex], y as [sy|sy| |sy my ey];
    try (destruct sx; discriminate H); try (destruct sy; discriminate H);
    try (destruct sx, sy; (discriminate H || reflexivity)); try discriminate H.
  apply positive_result_gt.
  pose proof (valid_finite _ _ _ Vx) as (Ex & _ & _).
  pose proof (valid_finite _ _ _ Vy) as (Ey & _ & _).
  apply SFsub_finite_pos; try assumption.
  unfold SFltb, SFcompare in H.
  destruct sy, sx; cbn [cond_Zopp]; try discriminate H.
  - (* both negative *)
    assert (M : (Zpos (fst (shl_align mx ex (Z.min ex ey))) < Zpos (fst (shl_align my ey (Z.min ex ey))))%Z).
    { apply (magnitude_lt true mx ex true my ey Vx Vy).
      destruct (Z.compare_spec ey ex) as [E|E|E]; try discriminate H.
      - right. split; [lia|].
        destruct (Pos.compare_cont Eq my mx) eqn:C; try discriminate H.
        change ((my ?= mx)%positive = Gt) in C. apply Pos.compare_gt_iff in C. exact C.
      - left. lia. }
    lia.
  - lia.
  - assert (M : (Zpos (fst (shl_align my ey (Z.min ey ex))) < Zpos (fst (shl_align mx ex (Z.min ey ex))))%Z).
    { apply (magnitude_lt false my ey false mx ex Vy Vx).
      destruct (Z.compare_spec ey ex) as [E|E|E]; try discriminate H.
      - right. split; [lia|].
        destruct (Pos.compare_cont Eq my mx) eqn:C; try discriminate H.
        exact C.
      - left. lia. }
    rewrite (Z.min_comm ex ey). lia.
Qed.

Lemma sub_pos x y : (y <? x) = true -> (0 <? x - y) = true.
Proof.
  rewrite !ltb_spec, sub_spec. intros H.
  apply SFsub_pos; auto using Prim2SF_valid.
Qed.

Lemma SFcompare_antisym x y :
  SFcompare y x = option_map CompOpp (SFcompare x y).
Proof.
  destruct x as [sx|sx| |sx mx ex], y as [sy|sy| |sy my ey]; cbn [SFcompare option_map];
    try reflexivity; try (destruct sx; reflexivity); try (destruct sy; reflexivity);
    try (destruct sx, sy; reflexivity).
  destruct sx, sy; cbn [CompOpp]; try reflexivity.
  - rewrite (Z.compare_antisym ex ey).
    destruct (ex ?= ey)%Z; cbn [CompOpp]; try reflexivity.
    change (Pos.compare_cont Eq my mx) with (my ?= mx)%positive.
    change (Pos.compare_cont Eq mx my) with (mx ?= my)%positive.
    rewrite (Pos.compare_antisym mx my). reflexivity.
  - rewrite (Z.compare_antisym ex ey).
    destruct (ex ?= ey)%Z; cbn [CompOpp]; try reflexivity.
    change (Pos.compare_cont Eq my mx) with (my ?= mx)%positive.
    change (Pos.compare_cont Eq mx my) with (mx ?= my)%positive.
    rewrite (Pos.compare_antisym mx my). reflexivity.
Qed.

Lemma leb_total x y :
  PrimFloat.is_nan x = false -> PrimFloat.is_nan y = false ->
  (x <=? y) = false -> (y <? x) = true.
Proof.
  rewrite !is_nan_spec, leb_spec, ltb_spec. unfold SFleb, SFltb.
  rewrite (SFcompare_antisym (Prim2SF x) (Prim2SF y)).
  destruct (Prim2SF x) as [sx|sx| |sx mx ex], (Prim2SF y) as [sy|sy| |sy my ey];
    intros Hx Hy; try discriminate;
    destruct (SFcompare _ _) as [[]|] eqn:C; cbn [option_map CompOpp];
      try discriminate; try reflexivity; discriminate C.
Qed.

Lemma pos_opp z : (0 <? - z) = true -> (0 <? z) = false.
Proof.
  rewrite !ltb_spec, opp_spec. replace (Prim2SF 0) with (S754_zero false) by reflexivity.
  destruct (Prim2SF z) as [[]|[]| |[] ? ?]; cbn; congruence.
Qed.

Lemma pos_not_nan_sub x y :
  (0 <? x - y) = true -> PrimFloat.is_nan x = false /\ PrimFloat.is_nan y = false.
Proof.
  rewrite ltb_spec, sub_spec, !is_nan_spec.
  destruct (Prim2SF x) as [sx|sx| |sx mx ex], (Prim2SF y) as [sy|sy| |sy my ey];
    cbn; intros H; try discriminate H; auto.
Qed.

(** [cmp x y > 0] puts [x] behind [y]: then [y <= x]. *)
Lemma sub_pos_leb x y : (0 <? x - y) = true -> (y <=? x) = true.
Proof.
  intros H. destruct (y <=? x) eqn:L; [reflexivity|exfalso].
  destruct (pos_not_nan_sub x y H) as [Nx Ny].
  pose proof (sub_pos y x (leb_total y x Ny Nx L)) as P.
  destruct (sub_antisym x y) as [A|[A _]].
  - rewrite A in H. apply pos_opp in H. congruence.
  - rewrite A in H. discriminate H.
Qed.

(** [cmp x y] not positive keeps [x] before [y]: then [x <= y], NaN apart. *)
Lemma sub_nonpos_leb x y :
  PrimFloat.is_nan x = false -> PrimFloat.is_nan y = false ->
  (0 <? x - y) = false -> (x <=? y) = true.
Proof.
  intros Nx Ny H. destruct (x <=? y) eqn:L; [reflexivity|exfalso].
  pose proof (sub_pos x y (leb_total x y Nx Ny L)) as P. congruence.
Qed.

Lemma is_finite_spec x :
  PrimFloat.is_finite x = match Prim2SF x with
                          | S754_zero _ | S754_finite _ _ _ => true
                          | _ => false
                          end.
Proof.
  unfold PrimFloat.is_finite. rewrite is_nan_spec, is_infinity_spec.
  destruct (Prim2SF x); reflexivity.
Qed.

Lemma mul_zero_r x :
  PrimFloat.is_finite x = true -> x * 0 = 0 \/ x * 0 = neg_zero.
Proof.
  rewrite is_finite_spec. intros H.
  assert (E : Prim2SF (x * 0) = S754_zero false \/ Prim2SF (x * 0) = S754_zero true).
  { rewrite mul_spec. replace (Prim2SF 0) with (S754_zero false) by reflexivity.
    destruct (Prim2SF x) as [[]|[]| |[] ? ?]; try discriminate H; cbn; auto. }
  destruct E as [E|E]; [left|right]; apply Prim2SF_inj; rewrite E; reflexivity.
Qed.

(** *** Negation and the tests against zero *)

Lemma opp_involutive x : - - x = x.
Proof.
  apply Prim2SF_inj. rewrite !opp_spec.
  destruct (Prim2SF x) as [[]|[]| |[] ? ?]; reflexivity.
Qed.

Lemma is_nan_opp x : PrimFloat.is_nan (- x) = PrimFloat.is_nan x.
Proof. rewrite !is_nan_spec, opp_spec. destruct (Prim2SF x); reflexivity. Qed.

Lemma is_infinity_opp x : PrimFloat.is_infinity (- x) = PrimFloat.is_infinity x.
Proof. rewrite !is_infinity_spec, opp_spec. destruct (Prim2SF x); reflexivity. Qed.

Lemma is_zero_spec x :
  PrimFloat.is_zero x = match Prim2SF x with S754_zero _ => true | _ => false end.
Proof.
  unfold PrimFloat.is_zero. rewrite eqb_spec.
  replace (Prim2SF zero) with (S754_zero false) by reflexivity.
  destruct (Prim2SF x) as [[]|[]| |[] ? ?]; reflexivity.
Qed.

Lemma is_zero_opp x : PrimFloat.is_zero (- x) = PrimFloat.is_zero x.
Proof. rewrite !is_zero_spec, opp_spec. destruct (Prim2SF x); reflexivity. Qed.

Lemma ltb_opp_zero x : (- x <? 0) = (0 <? x).
Proof.
  rewrite !ltb_spec, opp_spec. replace (Prim2SF 0) with (S754_zero false) by reflexivity.
  destruct (Prim2SF x) as [[]|[]| |[] ? ?]; reflexivity.
Qed.

Lemma ltb_zero_cases x :
  PrimFloat.is_nan x = false -> PrimFloat.is_zero x = false ->
  (x <? 0) = negb (0 <? x).
Proof.
  rewrite is_nan_spec, is_zero_spec, !ltb_spec.
  replace (Prim2SF 0) with (S754_zero false) by reflexivity.
  destruct (Prim2SF x) as [[]|[]| |[] ? ?]; intros; try discriminate; reflexivity.
Qed.

Lemma ltb_zero_not_nan x : (0 <? x) = true -> PrimFloat.is_nan x = false.
Proof.
  rewrite is_nan_spec, ltb_spec. replace (Prim2SF 0) with (S754_zero false) by reflexivity.
  destruct (Prim2SF x) as [[]|[]| |[] ? ?]; intros; try discriminate; reflexivity.
Qed.

Lemma leb_nan x y :
  PrimFloat.is_nan x = true -> (x <=? y) = false /\ (y <=? x) = false.
Proof.
  rewrite is_nan_spec, !leb_spec. unfold SFleb.
  destruct (Prim2SF x) as [[]|[]| |[] ? ?]; intros; try discriminate.
  split; [reflexivity|]. destruct (Prim2SF y) as [[]|[]| |[] ? ?]; reflexivity.
Qed.

End Binary64.

(** ** Rounding and maximum on sample values *)

Example Math_round_ties_up :
  (API.Math_round 2.5 = 3 /\ API.Math_round (-2.5) = -2 /\ API.Math_round 0.5 = 1)%float.
Proof. repeat split; reflexivity. Qed.

Example Math_round_signed_zero :
  (API.Math_round (-0.5) = neg_zero /\ API.Math_round (-0.25) = neg_zero
   /\ API.Math_round 0x1.fffffffffffffp-2 = 0 /\ API.Math_round neg_zero = neg_zero)%float.
Proof. repeat split; reflexivity. Qed.

Example Math_round_special :
  (API.Math_round nan = nan /\ API.Math_round infinity = infinity
   /\ API.Math_round 0x1p+60 = 0x1p+60 /\ API.Math_round 4503599627370495.5 = 4503599627370496)%float.
Proof. repeat split; reflexivity. Qed.

Example Math_max_floor :
  (API.Math_max 8 15 = 15 /\ API.Math_max 24 15 = 24 /\ API.Math_max nan 15 = nan
   /\ API.Math_max neg_zero 0 = 0)%float.
Proof. repeat split; reflexivity. Qed.

(** ** Transport and normalizers *)

Section Transport.
Import JS API.
Context {E : Engine}.

Lemma postRequest_fuel_enough (net : Transport) (endpoint : string) (body : value) :
  forall fuel1 fuel2 idx,
    (List.length CORS_PROXIES - 1 - idx <= fuel1)%nat ->
    (List.length CORS_PROXIES - 1 - idx <= fuel2)%nat ->
    postRequest_fuel fuel1 net idx endpoint body
    = postRequest_fuel fuel2 net idx endpoint body.
Proof.
  induction fuel1 as [|f1 IH]; intros fuel2 idx H1 H2.
  - destruct fuel2 as [|f2]; [reflexivity|].
    cbn [postRequest_fuel].
    destruct (attempt _ net endpoint body); [reflexivity|].
    destruct (Nat.ltb_spec idx (List.length CORS_PROXIES - 1)); [lia|reflexivity].
  - destruct fuel2 as [|f2]; cbn [postRequest_fuel];
      (destruct (attempt _ net endpoint body); [reflexivity|]);
      (destruct (Nat.ltb_spec idx (List.length CORS_PROXIES - 1)); [|reflexivity]).
    + lia.
    + apply IH; lia.
Qed.

Lemma postRequest_fuel_S (fuel : nat) (net : Transport) (idx : nat)
    (endpoint : string) (body : value) :
  postRequest_fuel (S fuel) net idx endpoint body =
  match attempt (nth_error CORS_PROXIES idx) net endpoint body with
  | Normal v => (Normal v, idx)
  | Throw error =>
      if (idx <? List.length CORS_PROXIES - 1)%nat
      then postRequest_fuel fuel net (S idx) endpoint body
      else (Throw error, idx)
  end.
Proof. reflexivity. Qed.

(** [postRequest] unfolds as the JavaScript reads: on an error, one more
    call with the next proxy while one is left. *)
Lemma postRequest_unfold (net : Transport) (idx : nat) (endpoint : string) (body : value) :
  postRequest net idx endpoint body =
  match attempt (nth_error CORS_PROXIES idx) net endpoint body with
  | Normal v => (Normal v, idx)
  | Throw error =>
      if (idx <? List.length CORS_PROXIES - 1)%nat
      then postRequest net (S idx) endpoint body
      else (Throw error, idx)
  end.
Proof.
  unfold postRequest. change (List.length CORS_PROXIES) with 3%nat.
  rewrite postRequest_fuel_S. change (List.length CORS_PROXIES) with 3%nat.
  destruct (attempt _ net endpoint body); [reflexivity|].
  destruct (Nat.ltb_spec idx (3 - 1)); [|reflexivity].
  apply postRequest_fuel_enough; change (List.length CORS_PROXIES) with 3%nat; lia.
Qed.

Lemma getStopArrivals_fallback (now : float) (net : Transport) (idx : nat) (stopId : value) :
  forall e,
    fst (postRequest net idx "getStopArrivals=2"
           (Obj [("stop", stopId); ("s0", Str SYSTEM_ID); ("sA", Num 1)])) = Throw e ->
    fst (getStopArrivals now net idx stopId) = Normal [].
Proof.
  intros e H. unfold getStopArrivals.
  destruct (postRequest net idx _ _) as [res idx']. cbn [fst] in *. subst res. reflexivity.
Qed.

End Transport.

(** C10: whatever the transport does (a rejected fetch, an HTTP error, an
    empty or unparseable body on one proxy or on all of them, a payload whose
    arrivals container or records are malformed) and whatever the stop id and
    the proxy index are, [getStopArrivals] completes normally with a list:
    no exception reaches its caller. *)
Theorem getStopArrivals_never_throws :
  forall (E : JS.Engine) (now : float) (net : API.Transport) (currentProxyIndex : nat)
         (stopId : JS.value),
  exists arrivals : list API.Arrival,
    fst (API.getStopArrivals now net currentProxyIndex stopId) = JS.Normal arrivals.
Proof.
  intros E now net idx stopId. unfold API.getStopArrivals.
  destruct (API.postRequest net idx _ _) as [res idx']. cbn [fst].
  destruct res as [data|e]; cbn [JS.bind JS.try_catch].
  - destruct (API.arrivals_of_payload now data) as [l|e]; eexists; reflexivity.
  - eexists. reflexivity.
Qed.

(** Three runs of [getStopArrivals] on the sample engine: every proxy
    unreachable; an empty body; a container holding [null], on which the
    mapping function throws inside the [try]. *)
Example getStopArrivals_all_proxies_down :
  API.getStopArrivals (E := Sample.engine) 0%float (fun _ _ _ => API.Rejected) 0 (JS.Num 7)
  = (JS.Normal [], 2).
Proof. reflexivity. Qed.

Example getStopArrivals_empty_body :
  API.getStopArrivals (E := Sample.engine) 0%float
    (fun _ _ _ => API.Response true "") 1 (JS.Num 7)
  = (JS.Normal [], 1).
Proof. reflexivity. Qed.

Example getStopArrivals_null_record :
  API.getStopArrivals (E := Sample.engine) 0%float
    (fun _ _ _ => API.Response true ("{" ++ Sample.quoted "arrivals" ++ ":[null]}")%string)
    1 (JS.Num 7)
  = (JS.Normal [], 1).
Proof. vm_compute. reflexivity. Qed.

(** ** Absent and malformed containers *)

Section Containers.
Import JS API.
Context {E : Engine}.

Lemma routes_of_absent (data : value) :
  container_absent data "all" -> routes_of_payload data = Normal [].
Proof.
  intros [H|(c & Hc & Ht)]; unfold routes_of_payload.
  - rewrite H. reflexivity.
  - destruct (truthy data); [|reflexivity]. cbn [negb].
    rewrite Hc. cbn [bind]. unfold or_else. rewrite Ht. reflexivity.
Qed.

Lemma stops_of_absent (data : value) :
  container_absent data "stops" -> stops_of_payload data = Normal [].
Proof.
  intros [H|(c & Hc & Ht)]; unfold stops_of_payload.
  - rewrite H. reflexivity.
  - destruct (truthy data); [|reflexivity]. cbn [negb].
    rewrite Hc. cbn [bind]. rewrite Ht. reflexivity.
Qed.

Lemma buses_of_absent (now : float) (data : value) :
  container_absent data "buses" -> buses_of_payload now data = Normal [].
Proof.
  intros [H|(c & Hc & Ht)]; unfold buses_of_payload.
  - rewrite H. reflexivity.
  - destruct (truthy data); [|reflexivity]. cbn [negb].
    rewrite Hc. cbn [bind]. rewrite Ht. reflexivity.
Qed.

Lemma stops_of_scalar (data : value) :
  container_scalar data "stops" -> stops_of_payload data = Normal [].
Proof.
  intros (Hd & c & Hc & Hs). unfold stops_of_payload.
  rewrite Hd, Hc. cbn [negb bind].
  destruct c as [| |b|x| | |]; try contradiction; cbn [truthy for_in];
    [destruct b|destruct (negb _)]; reflexivity.
Qed.

Lemma buses_of_scalar (now : float) (data : value) :
  container_scalar data "buses" -> buses_of_payload now data = Normal [].
Proof.
  intros (Hd & c & Hc & Hs). unfold buses_of_payload.
  rewrite Hd, Hc. cbn [negb bind].
  destruct c as [| |b|x| | |]; try contradiction; cbn [truthy for_in];
    [destruct b|destruct (negb _)]; reflexivity.
Qed.

Lemma own_items_flatten (o : value) (props : list (string * value)) :
  (forall key, hasOwnProperty_call o key = Normal true) ->
  own_items o (fun item => match item with
                           | Arr batch => Normal batch
                           | _ => Normal [item]
                           end) props
  = Normal (List.concat (map (fun kv => batch_of (snd kv)) props)).
Proof.
  intros Hown. induction props as [|[key item] r IH]; [reflexivity|].
  cbn [own_items map List.concat snd]. rewrite Hown. cbn [bind].
  rewrite IH. destruct item; reflexivity.
Qed.

Lemma flatten_keyed_map (props : list (string * value)) :
  lookup "hasOwnProperty" props = None ->
  flatten_container (Obj props)
  = Normal (List.concat (map (fun kv => batch_of (snd kv)) props)).
Proof.
  intros H. unfold flatten_container. cbn [for_in].
  apply own_items_flatten. intros key. cbn [hasOwnProperty_call]. rewrite H. reflexivity.
Qed.

(** The bus normalizer on a keyed map of batches and on the flat array of
    the same records, when no key of the map is named [hasOwnProperty]. *)
Lemma buses_keyed_map_as_flat_array (now : float) (props : list (string * value)) :
  lookup "hasOwnProperty" props = None ->
  buses_of_payload now (Obj [("buses", Obj props)])
  = buses_of_payload now
      (Obj [("buses", Arr (List.concat (map (fun kv => batch_of (snd kv)) props)))]).
Proof.
  intros H. unfold buses_of_payload.
  change (get (Obj [("buses", Obj props)]) "buses") with (Normal (Obj props)).
  change (get (Obj [("buses", Arr (List.concat (map (fun kv => batch_of (snd kv)) props)))])
              "buses")
    with (Normal (Arr (List.concat (map (fun kv => batch_of (snd kv)) props)))).
  cbn [truthy negb bind]. rewrite (flatten_keyed_map props H). reflexivity.
Qed.

End Containers.

(** C7 (amended): when the top-level container of a payload is absent (the
    payload itself is [null] or falsy, or the key is missing, [null] or
    falsy) the three normalizers return the empty sequence and raise nothing;
    [getStops] and [getBuses] do the same for a container that is a number
    or a boolean.  Containers of other wrong shapes are not covered. *)
Theorem absent_container_yields_empty :
  forall (E : JS.Engine) (now : float) (data : JS.value),
    (container_absent data "all" -> API.routes_of_payload data = JS.Normal []) /\
    (container_absent data "stops" \/ container_scalar data "stops" ->
     API.stops_of_payload data = JS.Normal []) /\
    (container_absent data "buses" \/ container_scalar data "buses" ->
     API.buses_of_payload now data = JS.Normal []).
Proof.
  intros E now data. split; [|split].
  - apply routes_of_absent.
  - intros [H|H]; [apply stops_of_absent|apply stops_of_scalar]; exact H.
  - intros [H|H]; [apply buses_of_absent|apply buses_of_scalar]; exact H.
Qed.

Lemma absent_container_yields_empty_witness :
  API.routes_of_payload (E := Sample.engine) (JS.Obj []) = JS.Normal [] /\
  API.stops_of_payload (E := Sample.engine) JS.Null = JS.Normal [] /\
  API.buses_of_payload (E := Sample.engine) 0%float
    (JS.Obj [("buses", JS.Bool true)]) = JS.Normal [].
Proof.
  split; [|split].
  - apply (absent_container_yields_empty Sample.engine 0%float (JS.Obj [])).
    right. exists JS.Undefined. split; reflexivity.
  - apply (absent_container_yields_empty Sample.engine 0%float JS.Null).
    left. left. reflexivity.
  - apply (absent_container_yields_empty Sample.engine 0%float
             (JS.Obj [("buses", JS.Bool true)])).
    right. split; [reflexivity|]. exists (JS.Bool true). split; [reflexivity|exact I].
Defined.

(** C7 as stated fails: a routes container that is a keyed map (the shape of
    the stops container) instead of an array makes [getRoutes] raise a
    TypeError, which it does not catch. *)
Lemma malformed_routes_container_throws :
  API.routes_of_payload (E := Sample.engine)
    (JS.Obj [("all", JS.Obj [("1", JS.Obj [("myid", JS.Str "5")])])])
  = JS.Throw JS.TypeError
  /\ fst (API.getRoutes (E := Sample.engine)
            (fun _ _ _ =>
               API.Response true
                 ("{" ++ Sample.quoted "all" ++ ":{" ++ Sample.quoted "1" ++ ":{"
                  ++ Sample.quoted "myid" ++ ":" ++ Sample.quoted "5" ++ "}}}")%string)
            0)
     = JS.Throw JS.TypeError.
Proof. split; vm_compute; reflexivity. Qed.

(** C6: on a keyed map of batches one of whose keys is [hasOwnProperty],
    the guard [data.buses.hasOwnProperty(key)] calls the batch stored under
    that key instead of the inherited method: [getBuses] raises a TypeError,
    while the flat array of the same records is normalized. *)
Theorem buses_keyed_map_with_shadowing_key :
  let record := JS.Obj [("busId", JS.Num 1)] in
  API.buses_of_payload (E := Sample.engine) 0%float
    (JS.Obj [("buses", JS.Obj [("hasOwnProperty", JS.Arr [record])])])
  = JS.Throw JS.TypeError
  /\ (exists bus,
        API.buses_of_payload (E := Sample.engine) 0%float
          (JS.Obj [("buses", JS.Arr [record])]) = JS.Normal [bus])
  /\ fst (API.getBuses (E := Sample.engine) 0%float
            (fun _ _ _ =>
               API.Response true
                 ("{" ++ Sample.quoted "buses" ++ ":{" ++ Sample.quoted "hasOwnProperty"
                  ++ ":[{" ++ Sample.quoted "busId" ++ ":1}]}}")%string)
            0)
     = JS.Throw JS.TypeError.
Proof.
  cbv zeta. split; [|split].
  - vm_compute. reflexivity.
  - eexists. vm_compute. reflexivity.
  - vm_compute. reflexivity.
Qed.

(** ** Reconciliation and polling *)



(** The same through the real fetch: [getStopArrivals] turns every failure
    into the empty list, on which [refreshArrivals] computes the ETAs from
    the bus snapshot. *)
Lemma refreshArrivals_on_empty_fetch :
  forall (E : JS.Engine) (net : API.Transport) (now : float) (stop : API.Stop)
         (w : App.world),
    fst (API.getStopArrivals now net (App.currentProxyIndex w) (API.stop_id stop))
    = JS.Normal [] ->
    fst (App.refreshArrivals net now stop w) = JS.Normal tt
    /\ UI.arrivalsList (App.ui (snd (App.refreshArrivals net now stop w)))
       = Some (API.calculateETAs now (App.buses w) stop (App.routes w)
                 (Some (App.getRouteFilter w))).
Proof.
  intros E net now stop w H. unfold App.refreshArrivals.
  destruct (API.getStopArrivals _ _ _ _) as [fetched idx]. cbn [fst] in H. subst fetched.
  split; reflexivity.
Qed.

(** With every proxy unreachable the view shows the computed ETAs of the
    scenario, one arrival one minute away. *)
Example refreshArrivals_offline :
  let '(outcome, w) :=
    App.refreshArrivals (E := Sample.engine) Scenario.offline 0%float
                        Scenario.stopA Scenario.world0 in
  outcome = JS.Normal tt
  /\ UI.arrivalsList (App.ui w)
     = Some (API.calculateETAs (E := Sample.engine) 0%float [Scenario.bus1]
               Scenario.stopA [Scenario.routeM2] (Some []))
  /\ option_map (map API.arr_eta) (UI.arrivalsList (App.ui w)) = Some [1%float].
Proof. vm_compute. repeat split; reflexivity. Qed.

(** [showSelectionView], and the back button outside the bus view, leave
    the timers and the module's timer variables alone. *)
Lemma backClicked_keeps_timers :
  forall (E : JS.Engine) (net : API.Transport) (now : float) (w : App.world),
    UI.currentView (App.ui w) <> UI.busNav ->
    let w' := App.backClicked net now w in
    UI.currentView (App.ui w') = UI.selection
    /\ App.timers w' = App.timers w
    /\ App.arrivalsRefreshInterval w' = App.arrivalsRefreshInterval w
    /\ App.busRefreshInterval w' = App.busRefreshInterval w.
Proof.
  intros E net now w H. unfold App.backClicked.
  destruct (UI.currentView (App.ui w)); try congruence; repeat split; reflexivity.
Qed.

(** No handler cancels the arrivals polling: once the module holds an
    arrivals timer id it holds one after every further event. *)
Lemma arrivals_polling_never_stops :
  forall (E : JS.Engine) (evs : list App.event) (w : App.world),
    App.arrivalsRefreshInterval w <> None ->
    App.arrivalsRefreshInterval (App.run w evs) <> None.
Proof.
  intros E evs. unfold App.run.
  induction evs as [|ev evs IH]; intros w H; [exact H|].
  cbn [fold_left]. apply IH.
  destruct ev as [net now|net now| |id net now]; cbn [App.step].
  - destruct (UI.selectedSourceStop (App.ui w)); [|exact H].
    unfold App.handleSearch, App.refreshArrivals.
    destruct (API.getStopArrivals _ _ _ _) as [fetched idx].
    destruct (App.refreshArrivals_after _ _ _ _) as [o w'].
    unfold App.startArrivalsPolling.
    destruct (App.arrivalsRefreshInterval w'); cbn; discriminate.
  - unfold App.backClicked, App.goBackToDetailsView.
    destruct (UI.currentView (App.ui w)); try exact H.
    destruct (match UI.selectedSourceStop (App.ui w) with
              | Some s => Some s
              | None => _
              end); [|exact H].
    unfold App.refreshArrivals.
    destruct (API.getStopArrivals _ _ _ _) as [fetched idx].
    destruct fetched as [[|a l]|e]; exact H.
  - exact H.
  - destruct (App.find_timer id w) as [t|]; [|exact H].
    destruct (App.timer_callback t) as [|stop].
    + unfold App.refreshBuses.
      destruct (API.getBuses _ _ _) as [fetched idx].
      destruct fetched as [l|e]; [|exact H]. cbn.
      destruct (UI.currentView (App.ui w)); try exact H.
      destruct (UI.selectedSourceStop (App.ui w)); exact H.
    + unfold App.refreshArrivals.
      destruct (API.getStopArrivals _ _ _ _) as [fetched idx].
      destruct fetched as [[|a l]|e]; exact H.
Qed.

(** C9: searching from the selected stop starts the arrivals timer (id 2,
    next to the bus timer 1); pressing Back returns to the selection view,
    but the arrivals timer stays registered and the module still holds its
    id, because [stopArrivalsPolling] is never called; when the timer fires,
    [refreshArrivals] runs again for the stop that was left.  Calling
    [stopArrivalsPolling] there would have left only the bus timer. *)
Theorem arrivals_timer_survives_back :
  let net := Scenario.offline in
  let w1 := App.step (E := Sample.engine) Scenario.world0 (App.SearchClicked net 0%float) in
  let w2 := App.step (E := Sample.engine) w1 (App.BackClicked net 0%float) in
  let w3 := App.step (E := Sample.engine) w2 (App.TimerFired 2 net 10000%float) in
  UI.currentView (App.ui w1) = UI.details
  /\ UI.currentView (App.ui w2) = UI.selection
  /\ map App.timer_id (App.arrivals_timers w2) = [2]
  /\ map App.timer_callback (App.arrivals_timers w2)
     = [App.run_refreshArrivals Scenario.stopA]
  /\ App.arrivalsRefreshInterval w2 = Some 2
  /\ UI.arrivalsList (App.ui w3)
     = Some (API.calculateETAs (E := Sample.engine) 10000%float [Scenario.bus1]
               Scenario.stopA [Scenario.routeM2] (Some []))
  /\ map App.timer_id (App.timers (App.stopArrivalsPolling w2)) = [1].
Proof. vm_compute. repeat split; reflexivity. Qed.

(** ** Joins by route id *)

Section Joins.
Import JS API.
Context {E : Engine}.

(** [routeMap.get] finds a route only under a key that is the same value as
    the id it was stored under: no string conversion takes place. *)
Lemma Map_get_same_value (m : list (value * Route)) (k : value) (r : Route) :
  Map_get m k = Some r -> exists k', In (k', r) m /\ same_value_zero k' k = true.
Proof.
  induction m as [|[k' r'] rest IH]; cbn [Map_get]; [discriminate|].
  destruct (same_value_zero k' k) eqn:Hk.
  - intros [= ->]. exists k'. split; [left; reflexivity|exact Hk].
  - intros H. destruct (IH H) as (k'' & Hin & Hs). exists k''. split; [right; exact Hin|exact Hs].
Qed.

Lemma same_value_zero_num_str (x : float) (s : string) :
  same_value_zero (Str s) (Num x) = false /\ same_value_zero (Num x) (Str s) = false.
Proof. split; reflexivity. Qed.

End Joins.

(** C5: a bus whose [routeId] is the number 5 and a route whose [id] is the
    string "5" have the same string form, the route filter ["5"] keeps the
    bus, and the join of [refreshArrivals] finds the route for an upstream
    arrival of that bus; but the lookup [routeMap.get(bus.routeId)] of
    [calculateETAs] misses it, and the arrival gets the defaults
    ["Route 5"] and [#4a90d9] instead of the route's name and colour. *)
Theorem calculateETAs_route_lookup_is_not_string_normalized :
  let bus := Scenario.bus_at (JS.Str "b1") (JS.Num 5) "42.340" "-71.110" 0%float in
  let upstream :=
    {| API.arr_busId := JS.Str "b1"; API.arr_busName := JS.Str "Bus b1";
       API.arr_routeId := JS.Num 5; API.arr_routeName := JS.Undefined;
       API.arr_routeColor := JS.Undefined; API.arr_eta := 3%float;
       API.arr_distance := None; API.arr_speed := None;
       API.arr_scheduledTime := JS.Undefined; API.arr_timestamp := JS.Num 0 |} in
  JS.same_string (E := Sample.engine) (API.bus_routeId bus)
                 (API.route_id Scenario.routeM2) = true
  /\ map (fun a => (API.arr_routeName a, API.arr_routeColor a))
         (API.calculateETAs (E := Sample.engine) 0%float [bus] Scenario.stopA
                            [Scenario.routeM2] (Some ["5"]))
     = [(JS.Str "Route 5", JS.Str "#4a90d9")]
  /\ map (fun a => (API.arr_routeName a, API.arr_routeColor a))
         (App.enrich (E := Sample.engine) [Scenario.routeM2] ["5"] [upstream])
     = [(JS.Str "M2", JS.Str "#ff0000")].
Proof. vm_compute. repeat split; reflexivity. Qed.

(** ** The ETA calculator *)

Section Sorting.
Import JS API.
Local Open Scope float_scope.

Lemma sort_insert_perm {A} (cmp : A -> A -> float) (x : A) (l : list A) :
  Permutation (sort_insert cmp x l) (x :: l).
Proof.
  induction l as [|y r IH]; cbn [sort_insert]; [apply Permutation_refl|].
  destruct (0 <? cmp x y).
  - apply perm_trans with (y :: x :: r); [apply perm_skip; exact IH|apply perm_swap].
  - apply Permutation_refl.
Qed.

Lemma Array_sort_perm {A} (cmp : A -> A -> float) (l : list A) :
  Permutation (Array_sort cmp l) l.
Proof.
  induction l as [|x r IH]; cbn [Array_sort]; [apply perm_nil|].
  apply perm_trans with (x :: Array_sort cmp r);
    [apply sort_insert_perm|apply perm_skip; exact IH].
Qed.

Lemma sort_insert_hd (x : Arrival) (l : list Arrival) (y : Arrival) :
  eta_le y x -> HdRel eta_le y l -> HdRel eta_le y (sort_insert by_eta x l).
Proof.
  intros Hyx Hl. destruct l as [|z r]; cbn [sort_insert].
  - constructor. exact Hyx.
  - destruct (0 <? by_eta x z); constructor; [|exact Hyx].
    inversion Hl; assumption.
Qed.

Lemma sort_insert_sorted (x : Arrival) (l : list Arrival) :
  PrimFloat.is_nan (arr_eta x) = false ->
  Forall (fun a => PrimFloat.is_nan (arr_eta a) = false) l ->
  Sorted eta_le l -> Sorted eta_le (sort_insert by_eta x l).
Proof.
  intros Nx Nl Hs. induction l as [|y r IH]; cbn [sort_insert].
  - repeat constructor.
  - inversion Nl as [|? ? Ny Nr]; subst. inversion Hs as [|? ? Sr Hr]; subst.
    destruct (0 <? by_eta x y) eqn:C.
    + constructor; [apply IH; assumption|].
      apply sort_insert_hd; [|exact Hr].
      apply Binary64.sub_pos_leb. exact C.
    + constructor; [exact Hs|]. constructor.
      apply Binary64.sub_nonpos_leb; assumption.
Qed.

Lemma Array_sort_sorted (l : list Arrival) :
  Forall (fun a => PrimFloat.is_nan (arr_eta a) = false) l ->
  Sorted eta_le (Array_sort by_eta l).
Proof.
  induction l as [|x r IH]; intros H; cbn [Array_sort]; [constructor|].
  inversion H as [|? ? Nx Nr]; subst.
  apply sort_insert_sorted; [exact Nx| |apply IH; exact Nr].
  apply Forall_forall. intros a Ha.
  apply (Permutation_in _ (Array_sort_perm by_eta r)) in Ha.
  revert a Ha. apply Forall_forall. exact Nr.
Qed.

Lemma Sorted_firstn {A} (R : A -> A -> Prop) (n : nat) (l : list A) :
  Sorted R l -> Sorted R (firstn n l).
Proof.
  revert l. induction n as [|n IH]; intros l H; [constructor|].
  destruct l as [|x r]; [constructor|]. cbn [firstn].
  inversion H as [|? ? Sr Hr]; subst. constructor; [apply IH; exact Sr|].
  destruct n; [constructor|]. destruct r as [|y r']; [constructor|].
  cbn [firstn]. constructor. inversion Hr; assumption.
Qed.

(** A NaN among two or more ETA values rules the order out, wherever it
    stands: whatever order an engine's sort leaves for an inconsistent
    compare function, the result is not non-decreasing. *)
Lemma nan_eta_never_ordered (l : list Arrival) :
  (2 <= List.length l)%nat ->
  (exists a, In a l /\ PrimFloat.is_nan (arr_eta a) = true) ->
  ~ eta_nondecreasing l.
Proof.
  unfold eta_nondecreasing.
  induction l as [|x r IH]; cbn [List.length]; [lia|].
  intros Hlen (a & Ha & Hnan) Hs.
  destruct r as [|y r']; [cbn [List.length] in Hlen; lia|].
  inversion Hs as [|? ? Sr Hr]; subst. inversion Hr as [|? ? Hxy]; subst.
  unfold eta_le in Hxy.
  destruct Ha as [->|[->|Ha]].
  - destruct (Binary64.leb_nan (arr_eta a) (arr_eta y) Hnan) as [H _]. congruence.
  - destruct (Binary64.leb_nan (arr_eta a) (arr_eta x) Hnan) as [_ H]. congruence.
  - apply IH; [|exists a; split; [right; exact Ha|exact Hnan]|exact Sr].
    destruct r' as [|z r'']; [contradiction|]. cbn [List.length]. lia.
Qed.

Lemma In_firstn {A} (n : nat) (l : list A) (a : A) : In a (firstn n l) -> In a l.
Proof.
  intros H. rewrite <- (firstn_skipn n l). apply in_or_app. left. exact H.
Qed.

End Sorting.

Section Calculator.
Import JS API.
Local Open Scope float_scope.
Context {E : Engine}.

Lemma arr_eta_arrivalOf now stop routeMap bus :
  arr_eta (arrivalOf now stop routeMap bus) = etaMinutes stop bus.
Proof. reflexivity. Qed.

Lemma filterBuses_In (buses : list Bus) (f : option (list string)) (b : Bus) :
  In b (filterBuses buses f) ->
  In b buses /\
  (forall ids, f = Some ids -> ids <> [] -> In (ToString (bus_routeId b)) ids).
Proof.
  unfold filterBuses. destruct f as [[|id ids]|].
  - intros H. split; [exact H|]. intros ids' [= <-] Hne. congruence.
  - intros H. apply filter_In in H. destruct H as [Hin Hinc]. split; [exact Hin|].
    intros ids' [= <-] _. unfold includes_route in Hinc.
    apply existsb_exists in Hinc. destruct Hinc as (s & Hs & Heq).
    apply String.eqb_eq in Heq. rewrite Heq. exact Hs.
  - intros H. split; [exact H|]. intros ids' [=].
Qed.


(** Every arrival that [calculateETAs] returns was computed from a bus that
    passed the route filter. *)
Lemma calculateETAs_In now buses stop routes f (a : Arrival) :
  In a (calculateETAs now buses stop routes f) ->
  exists b, In b (filterBuses buses f)
            /\ a = arrivalOf now stop (routeMap_of routes) b.
Proof.
  unfold calculateETAs. intros H.
  apply In_firstn in H.
  apply (Permutation_in _ (Array_sort_perm by_eta _)) in H.
  apply in_map_iff in H. destruct H as (b & Hb & Hin). exists b. split; [exact Hin|].
  symmetry. exact Hb.
Qed.

End Calculator.


(** C2 (amended): [calculateETAs] returns at most 10 arrivals, and when no
    computed ETA is NaN (the ETA of no bus that passes the route filter;
    the buses that the filter removes do not matter) their ETA values are
    in non-decreasing order. *)
Theorem calculateETAs_length_and_order :
  forall (E : JS.Engine) (now : float) (buses : list API.Bus) (stop : API.Stop)
         (routes : list API.Route) (filterRouteIds : option (list string)),
    (List.length (API.calculateETAs now buses stop routes filterRouteIds) <= 10)%nat
    /\ (Forall (fun bus => PrimFloat.is_nan (API.etaMinutes stop bus) = false)
               (API.filterBuses buses filterRouteIds) ->
        eta_nondecreasing (API.calculateETAs now buses stop routes filterRouteIds)).
Proof.
  intros E now buses stop routes f. split.
  - unfold API.calculateETAs. apply firstn_le_length.
  - intros H. unfold eta_nondecreasing, API.calculateETAs.
    apply Sorted_firstn, Array_sort_sorted.
    apply Forall_forall. intros a Ha.
    apply in_map_iff in Ha. destruct Ha as (b & <- & Hb).
    rewrite arr_eta_arrivalOf.
    revert b Hb. apply Forall_forall. exact H.
Qed.

Lemma calculateETAs_length_and_order_witness :
  let buses := [Places.busLost7; Places.busFar5; Scenario.bus1] in
  PrimFloat.is_nan (API.etaMinutes (E := Sample.engine) Scenario.stopA Places.busLost7)
  = true
  /\ eta_nondecreasing
       (API.calculateETAs (E := Sample.engine) 0%float buses Scenario.stopA
                          [Scenario.routeM2] (Some ["5"]))
  /\ map API.arr_eta
         (API.calculateETAs (E := Sample.engine) 0%float buses Scenario.stopA
                            [Scenario.routeM2] (Some ["5"]))
     = [1%float; 13%float].
Proof.
  cbv zeta. split; [vm_compute; reflexivity|]. split.
  - apply (calculateETAs_length_and_order Sample.engine 0%float
             [Places.busLost7; Places.busFar5; Scenario.bus1] Scenario.stopA
             [Scenario.routeM2] (Some ["5"])).
    change (API.filterBuses [Places.busLost7; Places.busFar5; Scenario.bus1] (Some ["5"]))
      with [Places.busFar5; Scenario.bus1].
    repeat constructor; vm_compute; reflexivity.
  - vm_compute. reflexivity.
Defined.

(** C2 as stated fails: a bus whose latitude is NaN gets a NaN ETA, and a
    list holding a NaN next to a number is not in non-decreasing order,
    wherever the sort leaves it. *)
Lemma calculateETAs_nan_breaks_order :
  ~ eta_nondecreasing
      (API.calculateETAs (E := Sample.engine) 0%float [Scenario.busLost; Scenario.bus1]
                         Scenario.stopA [Scenario.routeM2] None).
Proof.
  intros H. unfold eta_nondecreasing in H. vm_compute in H.
  inversion H as [|? ? _ Hd]; subst. inversion Hd as [|? ? Hle]; subst.
  discriminate Hle.
Qed.




(** C4: every arrival that [calculateETAs] returns is that of a bus of the
    input, with the haversine distance from the bus to the stop, the
    effective speed [max(speed * 1.6, 15)] when [speed > 0] and 20 otherwise
    (so 20 for speed 0), and [eta = round(distance / effectiveSpeed * 60)]. *)
Theorem calculateETAs_eta_formula :
  forall (E : JS.Engine) (now : float) (buses : list API.Bus) (stop : API.Stop)
         (routes : list API.Route) (filterRouteIds : option (list string))
         (a : API.Arrival),
    In a (API.calculateETAs now buses stop routes filterRouteIds) ->
    exists bus,
      In bus buses
      /\ API.arr_busId a = API.bus_id bus
      /\ let distance :=
           API.getDistanceKm (API.bus_latitude bus) (API.bus_longitude bus)
                             (API.stop_latitude stop) (API.stop_longitude stop) in
         let effectiveSpeed :=
           if (0 <? API.bus_speed bus)%float
           then API.Math_max (API.bus_speed bus * 0x1.999999999999ap+0)%float 15%float
           else 20%float in
         API.arr_distance a = Some distance
         /\ API.arr_speed a = Some (API.bus_speed bus)
         /\ API.arr_eta a = API.Math_round ((distance / effectiveSpeed) * 60)%float
         /\ (((API.bus_speed bus =? 0) = true)%float -> effectiveSpeed = 20%float).
Proof.
  intros E now buses stop routes f a Ha.
  apply calculateETAs_In in Ha. destruct Ha as (bus & Hb & ->).
  apply filterBuses_In in Hb. destruct Hb as [Hin _].
  exists bus. split; [exact Hin|]. split; [reflexivity|]. cbv zeta.
  repeat split.
  intros Hz. destruct (0 <? API.bus_speed bus)%float eqn:Hp; [|reflexivity].
  exfalso. revert Hz Hp. rewrite eqb_spec, ltb_spec. unfold SFeqb, SFltb.
  rewrite (Binary64.SFcompare_antisym (Prim2SF (API.bus_speed bus)) (Prim2SF 0%float)).
  destruct (SFcompare _ _) as [[]|]; cbn; congruence.
Qed.

Lemma calculateETAs_eta_formula_witness :
  let a := API.arrivalOf (E := Sample.engine) 0%float Scenario.stopA
             (API.routeMap_of [Scenario.routeM2]) Scenario.bus1 in
  API.arr_eta a = 1%float
  /\ exists bus,
       In bus [Scenario.bus1]
       /\ API.arr_busId a = API.bus_id bus
       /\ let distance :=
            API.getDistanceKm (E := Sample.engine)
              (API.bus_latitude bus) (API.bus_longitude bus)
              (API.stop_latitude Scenario.stopA) (API.stop_longitude Scenario.stopA) in
          let effectiveSpeed :=
            if (0 <? API.bus_speed bus)%float
            then API.Math_max (API.bus_speed bus * 0x1.999999999999ap+0)%float 15%float
            else 20%float in
          API.arr_distance a = Some distance
          /\ API.arr_speed a = Some (API.bus_speed bus)
          /\ API.arr_eta a = API.Math_round ((distance / effectiveSpeed) * 60)%float
          /\ (((API.bus_speed bus =? 0) = true)%float -> effectiveSpeed = 20%float).
Proof.
  cbv zeta. split; [vm_compute; reflexivity|].
  apply (calculateETAs_eta_formula Sample.engine 0%float [Scenario.bus1]
           Scenario.stopA [Scenario.routeM2] None).
  vm_compute. left. reflexivity.
Defined.

(** ** The haversine distance *)

Section Haversine.
Import JS API.
Local Open Scope float_scope.
Context {E : Engine}.

Lemma half_angle_sin_swap (u v : float) :
  sin_odd ->
  half_angle_sin (u - v) = - half_angle_sin (v - u)
  \/ half_angle_sin (u - v) = half_angle_sin (v - u).
Proof.
  intros Hodd. destruct (Binary64.sub_antisym u v) as [H|[H1 H2]].
  - left. unfold half_angle_sin.
    rewrite H, Binary64.mul_opp_l, !Binary64.div_opp_l. apply Hodd.
  - right. rewrite H1, H2. reflexivity.
Qed.

Lemma square_term_swap (c s s' : float) :
  s' = - s \/ s' = s -> c * s' * s' = c * s * s.
Proof.
  intros [->| ->]; [|reflexivity].
  rewrite (Binary64.mul_comm c (- s)), Binary64.mul_opp_l, (Binary64.mul_comm s c).
  apply Binary64.mul_opp_opp.
Qed.

Lemma getDistanceKm_symmetric (lat1 lon1 lat2 lon2 : float) :
  sin_odd ->
  getDistanceKm lat1 lon1 lat2 lon2 = getDistanceKm lat2 lon2 lat1 lon1.
Proof.
  intros Hodd. unfold getDistanceKm.
  fold (half_angle_sin (lat2 - lat1)). fold (half_angle_sin (lon2 - lon1)).
  fold (half_angle_sin (lat1 - lat2)). fold (half_angle_sin (lon1 - lon2)).
  assert (Hlat : half_angle_sin (lat1 - lat2) * half_angle_sin (lat1 - lat2)
                 = half_angle_sin (lat2 - lat1) * half_angle_sin (lat2 - lat1)).
  { destruct (half_angle_sin_swap lat1 lat2 Hodd) as [->| ->];
      [apply Binary64.mul_opp_opp|reflexivity]. }
  rewrite Hlat.
  rewrite (Binary64.mul_comm (Math_cos (lat2 * Math_PI / 180))
                             (Math_cos (lat1 * Math_PI / 180))).
  rewrite (square_term_swap _ (half_angle_sin (lon2 - lon1))
                            (half_angle_sin (lon1 - lon2))
                            (half_angle_sin_swap lon1 lon2 Hodd)).
  reflexivity.
Qed.

Lemma getDistanceKm_same_point (lat lon : float) :
  sin_at_zero -> atan2_at_zero ->
  PrimFloat.is_finite lat = true -> PrimFloat.is_finite lon = true ->
  PrimFloat.is_finite (Math_cos (lat * Math_PI / 180) * Math_cos (lat * Math_PI / 180))
  = true ->
  getDistanceKm lat lon lat lon = 0.
Proof.
  intros Hsin Hatan Flat Flon Fcos. unfold getDistanceKm.
  rewrite (Binary64.sub_self lat Flat), (Binary64.sub_self lon Flon).
  change (0 * Math_PI / 180 / 2) with 0. rewrite Hsin.
  destruct (Binary64.mul_zero_r _ Fcos) as [H|H]; rewrite H.
  - change (Math_sqrt (0 * 0 + 0 * 0)) with 0.
    change (Math_sqrt (1 - (0 * 0 + 0 * 0))) with 1.
    rewrite (Hatan 1 eq_refl). reflexivity.
  - change (Math_sqrt (0 * 0 + neg_zero * 0)) with 0.
    change (Math_sqrt (1 - (0 * 0 + neg_zero * 0))) with 1.
    rewrite (Hatan 1 eq_refl). reflexivity.
Qed.

End Haversine.

(** The sample engine has the three properties. *)
Lemma Sample_sin_at_zero : sin_at_zero (E := Sample.engine).
Proof. reflexivity. Qed.

Lemma Sample_atan2_at_zero : atan2_at_zero (E := Sample.engine).
Proof.
  intros x Hx. cbn [JS.Math_atan2 Sample.engine]. unfold Sample.atan2.
  rewrite (Binary64.ltb_zero_not_nan x Hx), Hx. reflexivity.
Qed.

Lemma Sample_sin_odd : sin_odd (E := Sample.engine).
Proof.
  intros x. cbn [JS.Math_sin Sample.engine]. unfold Sample.sin.
  rewrite Binary64.is_nan_opp, Binary64.is_infinity_opp, Binary64.is_zero_opp.
  destruct (PrimFloat.is_nan x) eqn:Hn; [reflexivity|].
  destruct (PrimFloat.is_infinity x); [reflexivity|]. cbn [orb].
  destruct (PrimFloat.is_zero x) eqn:Hz; [reflexivity|].
  rewrite Binary64.ltb_opp_zero, (Binary64.ltb_zero_cases x Hn Hz).
  destruct (0 <? x)%float; cbn [negb].
  - rewrite Binary64.opp_involutive. reflexivity.
  - rewrite Binary64.opp_involutive. reflexivity.
Qed.

(** C8 (amended): on an engine with [Math.sin(+0) = +0] and
    [Math.atan2(+0, x) = +0] for [x > 0] (both required by ECMAScript) and
    an odd [Math.sin]: for every point with finite coordinates at which the
    squared cosine of the latitude is finite, [getDistanceKm] from the point
    to itself is 0; and for every two points [getDistanceKm(a, b)] and
    [getDistanceKm(b, a)] are the same Number, equal under [==] unless they
    are NaN. *)
Theorem getDistanceKm_zero_and_symmetric :
  forall (E : JS.Engine),
    sin_at_zero -> atan2_at_zero -> sin_odd ->
    (forall lat lon,
       PrimFloat.is_finite lat = true -> PrimFloat.is_finite lon = true ->
       PrimFloat.is_finite
         (JS.Math_cos (lat * API.Math_PI / 180) * JS.Math_cos (lat * API.Math_PI / 180))%float
       = true ->
       API.getDistanceKm lat lon lat lon = 0%float
       /\ number_equal (API.getDistanceKm lat lon lat lon) 0%float)
    /\ (forall lat1 lon1 lat2 lon2,
          API.getDistanceKm lat1 lon1 lat2 lon2 = API.getDistanceKm lat2 lon2 lat1 lon1
          /\ (PrimFloat.is_nan (API.getDistanceKm lat1 lon1 lat2 lon2) = false ->
              number_equal (API.getDistanceKm lat1 lon1 lat2 lon2)
                           (API.getDistanceKm lat2 lon2 lat1 lon1))).
Proof.
  intros E Hsin Hatan Hodd. split.
  - intros lat lon Flat Flon Fcos.
    rewrite (getDistanceKm_same_point lat lon Hsin Hatan Flat Flon Fcos).
    split; reflexivity.
  - intros lat1 lon1 lat2 lon2.
    rewrite <- (getDistanceKm_symmetric lat1 lon1 lat2 lon2 Hodd).
    split; [reflexivity|]. intros Hn. unfold number_equal.
    unfold PrimFloat.is_nan in Hn. apply negb_false_iff in Hn. exact Hn.
Qed.

Lemma getDistanceKm_zero_and_symmetric_witness :
  let lat := API.stop_latitude Scenario.stopA in
  let lon := API.stop_longitude Scenario.stopA in
  let lat' := API.bus_latitude Scenario.bus1 in
  let lon' := API.bus_longitude Scenario.bus1 in
  (API.getDistanceKm (E := Sample.engine) lat lon lat lon = 0%float
   /\ number_equal (API.getDistanceKm (E := Sample.engine) lat lon lat lon) 0%float)
  /\ (API.getDistanceKm (E := Sample.engine) lat lon lat' lon'
      = API.getDistanceKm (E := Sample.engine) lat' lon' lat lon
      /\ (PrimFloat.is_nan (API.getDistanceKm (E := Sample.engine) lat lon lat' lon') = false ->
          number_equal (API.getDistanceKm (E := Sample.engine) lat lon lat' lon')
                       (API.getDistanceKm (E := Sample.engine) lat' lon' lat lon))).
Proof.
  cbv zeta.
  destruct (getDistanceKm_zero_and_symmetric Sample.engine
              Sample_sin_at_zero Sample_atan2_at_zero Sample_sin_odd) as [Hzero Hsym].
  split.
  - apply Hzero; vm_compute; reflexivity.
  - apply Hsym.
Defined.

(** C8 as stated fails: a position that did not parse has a NaN coordinate,
    its distance to itself is NaN, which equals neither 0 nor itself. *)
Lemma getDistanceKm_nan_coordinate :
  let lat := API.bus_latitude Scenario.busLost in
  let lon := API.bus_longitude Scenario.busLost in
  ~ number_equal (API.getDistanceKm (E := Sample.engine) lat lon lat lon) 0%float
  /\ ~ number_equal
         (API.getDistanceKm (E := Sample.engine) lat lon
            (API.stop_latitude Scenario.stopA) (API.stop_longitude Scenario.stopA))
         (API.getDistanceKm (E := Sample.engine)
            (API.stop_latitude Scenario.stopA) (API.stop_longitude Scenario.stopA) lat lon).
Proof.
  cbv zeta. unfold number_equal. split; vm_compute; discriminate.
Qed.

(** * Further properties of the code *)

(** ** More of binary64: the order is transitive, products of positive
    numbers are numbers *)

Module Binary64Order.
Local Open Scope float_scope.

Ltac three_way sx sy sz mx my mz ex ey ez :=
  change (Pos.compare_cont Eq mx my) with (mx ?= my)%positive;
  change (Pos.compare_cont Eq my mz) with (my ?= mz)%positive;
  change (Pos.compare_cont Eq mx mz) with (mx ?= mz)%positive;
  destruct sx, sy, sz; try discriminate; try reflexivity;
  destruct (Z.compare_spec ex ey), (Z.compare_spec ey ez), (Z.compare_spec ex ez);
  try discriminate; try reflexivity; try lia;
  destruct (Pos.compare_spec mx my), (Pos.compare_spec my mz), (Pos.compare_spec mx mz);
  cbn [CompOpp]; try discriminate; try reflexivity; try lia.

Ltac special_cases sx sy sz :=
  try discriminate; try reflexivity;
  try (destruct sx; try discriminate; try reflexivity; fail);
  try (destruct sy; try discriminate; try reflexivity; fail);
  try (destruct sz; try discriminate; try reflexivity; fail);
  try (destruct sx, sy; try discriminate; try reflexivity; fail);
  try (destruct sx, sz; try discriminate; try reflexivity; fail);
  try (destruct sy, sz; try discriminate; try reflexivity; fail);
  try (destruct sx, sy, sz; try discriminate; try reflexivity; fail).

Lemma SFleb_trans x y z : SFleb x y = true -> SFleb y z = true -> SFleb x z = true.
Proof.
  unfold SFleb.
  destruct x as [sx|sx| |sx mx ex], y as [sy|sy| |sy my ey], z as [sz|sz| |sz mz ez];
    cbn [SFcompare]; special_cases sx sy sz.
  all: three_way sx sy sz mx my mz ex ey ez.
Qed.


Lemma leb_trans x y z : (x <=? y) = true -> (y <=? z) = true -> (x <=? z) = true.
Proof. rewrite !leb_spec. apply SFleb_trans. Qed.




Lemma eqb_leb x y : (x =? y) = ((x <=? y) && (y <=? x))%bool.
Proof.
  rewrite eqb_spec, !leb_spec. unfold SFeqb, SFleb.
  rewrite (Binary64.SFcompare_antisym (Prim2SF x) (Prim2SF y)).
  destruct (SFcompare _ _) as [[]|]; reflexivity.
Qed.

Lemma eqb_sym x y : (x =? y) = (y =? x).
Proof. rewrite !eqb_leb. apply andb_comm. Qed.

Lemma eqb_trans x y z : (x =? y) = true -> (y =? z) = true -> (x =? z) = true.
Proof.
  rewrite !eqb_leb, !andb_true_iff. intros [A B] [C D].
  split; eapply leb_trans; eassumption.
Qed.

Lemma eqb_not_nan x y : (x =? y) = true -> PrimFloat.is_nan x = false /\ PrimFloat.is_nan y = false.
Proof.
  rewrite eqb_spec, !Binary64.is_nan_spec. unfold SFeqb.
  destruct (Prim2SF x) as [[]|[]| |[] ? ?], (Prim2SF y) as [[]|[]| |[] ? ?];
    cbn [SFcompare]; intros H; try discriminate H; split; reflexivity.
Qed.

(** *** Rounding a non-negative mantissa never gives NaN *)







End Binary64Order.

(** ** The proxy chain of [postRequest] *)

Section ProxyChain.
Import JS API.
Context {E : Engine}.

Lemma postRequest_fuel_index (net : Transport) (endpoint : string) (body : value) :
  forall fuel idx,
    (idx <= snd (postRequest_fuel fuel net idx endpoint body))%nat
    /\ (snd (postRequest_fuel fuel net idx endpoint body)
        <= Nat.max idx (List.length CORS_PROXIES - 1))%nat.
Proof.
  induction fuel as [|fuel IH]; intros idx; cbn [postRequest_fuel];
    destruct (attempt _ net endpoint body); cbn [snd]; try lia;
    destruct (Nat.ltb_spec idx (List.length CORS_PROXIES - 1)); cbn [snd]; try lia.
  destruct (IH (S idx)) as [H1 H2]. lia.
Qed.

Lemma postRequest_fuel_outcome (net : Transport) (endpoint : string) (body : value) :
  forall fuel idx,
    (List.length CORS_PROXIES - 1 - idx <= fuel)%nat ->
    let '(res, idx') := postRequest_fuel fuel net idx endpoint body in
    tried net endpoint body idx' = res
    /\ (forall i, (idx <= i < idx')%nat -> exists e, tried net endpoint body i = Throw e)
    /\ (forall e, res = Throw e -> (List.length CORS_PROXIES - 1 <= idx')%nat).
Proof.
  unfold tried.
  induction fuel as [|fuel IH]; intros idx Hfuel; cbn [postRequest_fuel];
    destruct (attempt (nth_error CORS_PROXIES idx) net endpoint body) as [v|e] eqn:Ha.
  - repeat split; [exact Ha|intros; lia|discriminate].
  - destruct (Nat.ltb_spec idx (List.length CORS_PROXIES - 1)); [lia|].
    repeat split; [exact Ha|intros; lia|intros; lia].
  - repeat split; [exact Ha|intros; lia|discriminate].
  - destruct (Nat.ltb_spec idx (List.length CORS_PROXIES - 1)) as [Hlt|Hge].
    + specialize (IH (S idx) ltac:(lia)).
      destruct (postRequest_fuel fuel net (S idx) endpoint body) as [res idx'].
      destruct IH as (H1 & H2 & H3). repeat split; [exact H1| |exact H3].
      intros i Hi. destruct (Nat.eq_dec i idx) as [->|Hne].
      * exists e. exact Ha.
      * apply H2. lia.
    + repeat split; [exact Ha|intros; lia|intros; lia].
Qed.

End ProxyChain.

(** X1: a call never moves [currentProxyIndex] back, and never past the last
    proxy of the table: the index it leaves is between the index it found
    and the larger of that index and 2. *)
Theorem postRequest_index_only_advances :
  forall (E : JS.Engine) (net : API.Transport) (idx : nat) (endpoint : string)
         (body : JS.value),
    (idx <= snd (API.postRequest net idx endpoint body))%nat
    /\ (snd (API.postRequest net idx endpoint body) <= Nat.max idx 2)%nat.
Proof.
  intros E net idx endpoint body. unfold API.postRequest.
  apply (postRequest_fuel_index net endpoint body).
Qed.

Section Overlap.
Import JS API.
Context {E : Engine}.

Lemma postRequest_among_quiet (net : Transport) (endpoint : string) (body : value) :
  forall fuel seen idx,
    Forall (fun s => (s <= idx)%nat) seen ->
    InFlight.postRequest_among_fuel fuel net seen idx endpoint body
    = postRequest_fuel fuel net idx endpoint body.
Proof.
  induction fuel as [|fuel IH]; intros seen idx Hq;
    cbn [InFlight.postRequest_among_fuel postRequest_fuel].
  - assert (Hm : Nat.max idx (hd 0%nat seen) = idx)
      by (destruct Hq; cbn [hd]; lia).
    rewrite Hm. reflexivity.
  - assert (Hm : Nat.max idx (hd 0%nat seen) = idx)
      by (destruct Hq; cbn [hd]; lia).
    rewrite Hm. destruct (attempt _ net endpoint body); [reflexivity|].
    destruct (idx <? List.length CORS_PROXIES - 1)%nat; [|reflexivity].
    apply IH. destruct Hq as [|s r Hs Hr]; cbn [tl]; [constructor|].
    apply Forall_forall. intros x Hx. rewrite Forall_forall in Hr.
    specialize (Hr x Hx). lia.
Qed.

Lemma postRequest_among_outcome (net : Transport) (endpoint : string) (body : value) :
  forall fuel seen idx,
    (List.length CORS_PROXIES - 1 - idx <= fuel)%nat ->
    let '(res, idx') :=
      InFlight.postRequest_among_fuel fuel net seen idx endpoint body in
    (exists j, (idx <= j <= idx')%nat /\ tried net endpoint body j = res)
    /\ (forall e, res = Throw e -> (List.length CORS_PROXIES - 1 <= idx')%nat).
Proof.
  unfold tried.
  induction fuel as [|fuel IH]; intros seen idx Hfuel;
    cbn [InFlight.postRequest_among_fuel];
    set (settled := Nat.max idx (hd 0%nat seen));
    assert (Hs : (idx <= settled)%nat) by (subst settled; lia);
    destruct (attempt (nth_error CORS_PROXIES idx) net endpoint body) as [v|e] eqn:Ha.
  - split; [exists idx; split; [lia|exact Ha]|discriminate].
  - destruct (Nat.ltb_spec settled (List.length CORS_PROXIES - 1)); [lia|].
    split; [exists idx; split; [lia|exact Ha]|intros; lia].
  - split; [exists idx; split; [lia|exact Ha]|discriminate].
  - destruct (Nat.ltb_spec settled (List.length CORS_PROXIES - 1)) as [Hlt|Hge].
    + specialize (IH (tl seen) (S settled) ltac:(lia)).
      destruct (InFlight.postRequest_among_fuel fuel net (tl seen) (S settled)
                  endpoint body) as [res idx'].
      destruct IH as ((j & Hj & Hres) & H3). split; [|exact H3].
      exists j. split; [lia|exact Hres].
    + split; [exists idx; split; [lia|exact Ha]|intros; lia].
Qed.

End Overlap.

(** X2: [postRequest] returns what one of the proxies from the current
    index on gives, and it throws only once the index is on the last proxy.
    When no other call advances the index while the call is in flight, the
    proxy is the first one that does not fail: every proxy between the
    index found and the index left has failed.  (With another call in
    flight that need not be so, see [postRequest_among_skips_a_working_proxy].) *)
Theorem postRequest_first_working_proxy :
  forall (E : JS.Engine) (net : API.Transport) (seen : list nat) (idx : nat)
         (endpoint : string) (body : JS.value),
    let res := fst (InFlight.postRequest_among net seen idx endpoint body) in
    let idx' := snd (InFlight.postRequest_among net seen idx endpoint body) in
    (exists j, (idx <= j <= idx')%nat /\ tried net endpoint body j = res)
    /\ (forall e, res = JS.Throw e -> (2 <= idx')%nat)
    /\ (Forall (fun s => (s <= idx)%nat) seen ->
        InFlight.postRequest_among net seen idx endpoint body
        = API.postRequest net idx endpoint body
        /\ tried net endpoint body idx' = res
        /\ (forall i, (idx <= i < idx')%nat ->
              exists e, tried net endpoint body i = JS.Throw e)).
Proof.
  intros E net seen idx endpoint body. cbv zeta.
  assert (Hfuel : (List.length API.CORS_PROXIES - 1 - idx
                   <= List.length API.CORS_PROXIES)%nat) by lia.
  pose proof (postRequest_among_outcome net endpoint body
                (List.length API.CORS_PROXIES) seen idx Hfuel) as H.
  unfold InFlight.postRequest_among.
  destruct (InFlight.postRequest_among_fuel _ net seen idx endpoint body)
    as [res idx'] eqn:Hrun.
  cbn [fst snd]. destruct H as [H1 H2]. split; [exact H1|]. split; [exact H2|].
  intros Hq.
  rewrite (postRequest_among_quiet net endpoint body _ seen idx Hq) in Hrun.
  unfold API.postRequest. split; [symmetry; exact Hrun|].
  pose proof (postRequest_fuel_outcome net endpoint body
                (List.length API.CORS_PROXIES) idx Hfuel) as H.
  rewrite Hrun in H. destruct H as (A & B & _). split; assumption.
Qed.

(** The second proxy answers after the first was unreachable. *)
Example postRequest_second_proxy :
  API.postRequest (E := Sample.engine)
    (fun p _ _ => match API.proxy_kind p with
                  | API.allorigins => API.Rejected
                  | _ => API.Response true "{}"
                  end)
    0 "getBuses=1" JS.Null
  = (JS.Normal (JS.Obj []), 1).
Proof. vm_compute. reflexivity. Qed.

(** Two calls start together on the first proxy, which fails for both, as
    [getRoutes] and [getStops] do at start-up.  The call whose failure is
    handled second finds the index already advanced by the other, moves it
    on to the third proxy, and throws when that one fails, although the
    second proxy works; running alone it would have got the answer. *)
Example postRequest_among_skips_a_working_proxy :
  let net : API.Transport :=
    fun p _ _ => match API.proxy_kind p with
                 | API.standard => API.Response true "{}"
                 | _ => API.Rejected
                 end in
  map API.proxy_kind API.CORS_PROXIES = [API.allorigins; API.standard; API.corssh]
  /\ InFlight.postRequest_among (E := Sample.engine) net [1] 0 "getStops=2" JS.Null
     = (JS.Throw JS.NetworkError, 2)
  /\ API.postRequest (E := Sample.engine) net 0 "getStops=2" JS.Null
     = (JS.Normal (JS.Obj []), 1).
Proof. vm_compute. repeat split; reflexivity. Qed.

Lemma postRequest_first_working_proxy_witness :
  let net : API.Transport :=
    fun p _ _ => match API.proxy_kind p with
                 | API.allorigins => API.Rejected
                 | _ => API.Response true "{}"
                 end in
  tried (E := Sample.engine) net "getBuses=1" JS.Null 1 = JS.Normal (JS.Obj [])
  /\ exists e, tried (E := Sample.engine) net "getBuses=1" JS.Null 0 = JS.Throw e.
Proof.
  cbv zeta.
  pose proof (postRequest_first_working_proxy Sample.engine
                (fun p _ _ => match API.proxy_kind p with
                              | API.allorigins => API.Rejected
                              | _ => API.Response true "{}"
                              end)
                [0] 0 "getBuses=1" JS.Null) as H.
  cbv zeta in H.
  change (InFlight.postRequest_among _ [0] 0 "getBuses=1" JS.Null)
    with (JS.Normal (JS.Obj []), 1) in H.
  cbn [fst snd] in H. destruct H as (_ & _ & H).
  destruct (H ltac:(repeat constructor)) as (_ & H1 & H2).
  split; [exact H1|]. apply H2. split; [apply le_n|apply le_n].
Defined.

(** ** Blank replies, route points, and records *)

Section Records.
Import JS API.
Local Open Scope float_scope.
Context {E : Engine}.

Lemma attempt_blank (net : Transport) (idx : nat) (p : Proxy) (endpoint : string)
    (body : value) (text : string) :
  nth_error CORS_PROXIES idx = Some p ->
  net p endpoint body = Response true text ->
  blank text -> JSON_parse text = None ->
  postRequest net idx endpoint body = (Normal Null, idx).
Proof.
  intros Hp Hnet Hblank Hparse. rewrite postRequest_unfold.
  unfold attempt. rewrite Hp, Hnet. cbn [negb].
  assert (Ht : (match proxy_kind p with
                | allorigins =>
                    match JSON_parse text with
                    | Some wrapped =>
                        match get wrapped "contents" with
                        | Normal c => or_else c (Str text)
                        | Throw _ => Str text
                        end
                    | None => Str text
                    end
                | _ => Str text
                end) = Str text).
  { rewrite Hparse. destruct (proxy_kind p); reflexivity. }
  rewrite Ht. cbn [truthy]. destruct (String.eqb_spec text "") as [->|Hne]; [reflexivity|].
  cbn [negb]. destruct Hblank as [->|Htrim]; [congruence|].
  rewrite Htrim. reflexivity.
Qed.

Lemma point_pairs_spec (n : nat) :
  forall parts, (List.length parts <= n)%nat ->
    Forall is_point (point_pairs parts)
    /\ (2 * List.length (point_pairs parts) <= List.length parts)%nat.
Proof.
  induction n as [|n IH]; intros parts Hlen.
  - destruct parts; [split; [constructor|cbn; lia]|cbn in Hlen; lia].
  - destruct parts as [|a [|b r]]; try (split; [constructor|cbn; lia]).
    cbn [point_pairs].
    destruct (IH r ltac:(cbn [List.length] in Hlen; lia)) as [HF HL].
    destruct (PrimFloat.is_nan (parseFloat_string a)) eqn:Ha; cbn [negb andb];
      [split; [exact HF|cbn [List.length]; lia]|].
    destruct (PrimFloat.is_nan (parseFloat_string b)) eqn:Hb; cbn [negb];
      [split; [exact HF|cbn [List.length]; lia]|].
    split; [constructor; [split; assumption|exact HF]|cbn [List.length]; lia].
Qed.

Lemma mapM_Forall2 {A B} (f : A -> completion B) (l : list A) (l' : list B) :
  mapM f l = Normal l' -> Forall2 (fun x y => f x = Normal y) l l'.
Proof.
  revert l'. induction l as [|x r IH]; intros l'; cbn [mapM].
  - intros [= <-]. constructor.
  - destruct (f x) as [y|e] eqn:Hx; [|discriminate].
    destruct (mapM f r) as [ys|e]; [|discriminate].
    intros [= <-]. constructor; [exact Hx|apply IH; reflexivity].
Qed.

Lemma mapM_total {A B} (f : A -> completion B) (l : list A) :
  Forall (fun x => exists y, f x = Normal y) l -> exists l', mapM f l = Normal l'.
Proof.
  induction 1 as [|x r [y Hy] _ [ys Hys]]; cbn [mapM]; [eexists; reflexivity|].
  rewrite Hy, Hys. eexists. reflexivity.
Qed.


Lemma get_record (v : value) (k : string) :
  ~ nullish v -> get v k = Normal (prop v k).
Proof.
  intros H. unfold prop.
  destruct v; cbn [get]; try reflexivity;
    try (exfalso; apply H; unfold nullish; auto; fail).
  destruct (lookup k props); reflexivity.
Qed.

Lemma num_or_zero_not_nan (x : float) : PrimFloat.is_nan (num_or x 0) = false.
Proof.
  unfold num_or. destruct (PrimFloat.is_nan x) eqn:H; cbn [orb]; [reflexivity|].
  destruct (PrimFloat.is_zero x); [reflexivity|exact H].
Qed.

Lemma normalizeBus_nullish (now : float) (v : value) :
  nullish v -> normalizeBus now v = Throw TypeError.
Proof. intros [->| ->]; reflexivity. Qed.

Lemma normalizeBus_record (now : float) (v : value) :
  ~ nullish v ->
  exists b, normalizeBus now v = Normal b
            /\ bus_id b = or_else (prop v "busId") (prop v "id")
            /\ bus_routeId b = or_else (prop v "routeId") (prop v "route")
            /\ PrimFloat.is_nan (bus_speed b) = false
            /\ PrimFloat.is_nan (bus_heading b) = false.
Proof.
  intros H. unfold normalizeBus. rewrite !(get_record v _ H). cbn [bind].
  eexists. split; [reflexivity|]. cbn [bus_id bus_routeId bus_speed bus_heading].
  repeat split; apply num_or_zero_not_nan.
Qed.

Lemma nullish_dec (v : value) : nullish v \/ ~ nullish v.
Proof.
  destruct v; try (right; intros [H|H]; discriminate H); left; unfold nullish; auto.
Qed.

Lemma normalizeArrival_eta (now : float) (v : value) (a : Arrival) :
  normalizeArrival now v = Normal a -> PrimFloat.is_nan (arr_eta a) = false.
Proof.
  destruct (nullish_dec v) as [[->| ->]|H]; try discriminate.
  unfold normalizeArrival. rewrite !(get_record v _ H). cbn [bind].
  intros [= <-]. apply num_or_zero_not_nan.
Qed.

End Records.

(** X3: when the proxy in use replies with a blank body (empty or white
    space, which [JSON.parse] rejects), [postRequest] returns [null] without
    trying another proxy, and the four API functions return the empty
    list. *)
Theorem blank_reply_gives_empty_results :
  forall (E : JS.Engine) (now : float) (net : API.Transport) (idx : nat)
         (p : API.Proxy) (text : string) (stopId : JS.value),
    nth_error API.CORS_PROXIES idx = Some p ->
    (forall endpoint body, net p endpoint body = API.Response true text) ->
    blank text -> JS.JSON_parse text = None ->
    API.getRoutes net idx = (JS.Normal [], idx)
    /\ API.getStops net idx = (JS.Normal [], idx)
    /\ API.getBuses now net idx = (JS.Normal [], idx)
    /\ API.getStopArrivals now net idx stopId = (JS.Normal [], idx).
Proof.
  intros E now net idx p text stopId Hp Hnet Hblank Hparse.
  unfold API.getRoutes, API.getStops, API.getBuses, API.getStopArrivals.
  rewrite !(attempt_blank net idx p _ _ text Hp (Hnet _ _) Hblank Hparse).
  repeat split; reflexivity.
Qed.

Lemma blank_reply_gives_empty_results_witness :
  let net : API.Transport := fun _ _ _ => API.Response true "  " in
  API.getRoutes (E := Sample.engine) net 1 = (JS.Normal [], 1)
  /\ API.getStops (E := Sample.engine) net 1 = (JS.Normal [], 1)
  /\ API.getBuses (E := Sample.engine) 0%float net 1 = (JS.Normal [], 1)
  /\ API.getStopArrivals (E := Sample.engine) 0%float net 1 (JS.Num 7) = (JS.Normal [], 1).
Proof.
  cbv zeta.
  apply (blank_reply_gives_empty_results Sample.engine 0%float
           (fun _ _ _ => API.Response true "  ") 1
           {| API.proxy_url := "https://corsproxy.io/?"; API.proxy_kind := API.standard |}
           "  " (JS.Num 7)).
  - reflexivity.
  - intros endpoint body. reflexivity.
  - right. reflexivity.
  - reflexivity.
Defined.

(** X4: [parseRoutePoints] gives no point for a missing (falsy) value; for
    a string it gives points whose two coordinates are both numbers, at most
    one for every two comma-separated parts; for any other value it throws
    a TypeError. *)
Theorem parseRoutePoints_points_are_numbers :
  forall (E : JS.Engine) (pointsStr : JS.value),
    (JS.truthy pointsStr = false -> API.parseRoutePoints pointsStr = JS.Normal [])
    /\ (forall s, pointsStr = JS.Str s ->
          exists points,
            API.parseRoutePoints pointsStr = JS.Normal points
            /\ Forall is_point points
            /\ (2 * List.length points <= List.length (API.split_comma s))%nat)
    /\ (JS.truthy pointsStr = true -> (forall s, pointsStr <> JS.Str s) ->
        API.parseRoutePoints pointsStr = JS.Throw JS.TypeError).
Proof.
  intros E v. unfold API.parseRoutePoints. split; [|split].
  - intros ->. reflexivity.
  - intros s ->.
    destruct (point_pairs_spec (List.length (API.split_comma s)) (API.split_comma s)
                (le_n _)) as [HF HL].
    destruct (JS.truthy (JS.Str s)) eqn:Ht; cbn [negb].
    + eexists. repeat split; [exact HF|exact HL].
    + exists []. repeat split; [constructor|cbn; lia].
  - intros -> Hs. cbn [negb]. destruct v; try reflexivity. exfalso. apply (Hs s). reflexivity.
Qed.

Lemma parseRoutePoints_points_are_numbers_witness :
  (exists points,
     API.parseRoutePoints (E := Sample.engine) (JS.Str "42,-71,abc,3,7") = JS.Normal points
     /\ Forall is_point points
     /\ (2 * List.length points <= List.length (API.split_comma "42,-71,abc,3,7"))%nat)
  /\ API.parseRoutePoints (E := Sample.engine) (JS.Str "42,-71,abc,3,7")
     = JS.Normal [(42%float, (-71)%float)]
  /\ API.parseRoutePoints (E := Sample.engine) (JS.Num 5) = JS.Throw JS.TypeError.
Proof.
  split; [|split].
  - apply (parseRoutePoints_points_are_numbers Sample.engine (JS.Str "42,-71,abc,3,7")).
    reflexivity.
  - vm_compute. reflexivity.
  - apply (parseRoutePoints_points_are_numbers Sample.engine (JS.Num 5)).
    + reflexivity.
    + intros s. discriminate.
Defined.

(** X5: whatever the payload, every bus that [getBuses] builds has a speed
    and a heading that are numbers: a missing or unparseable value has
    become 0. *)
Theorem buses_speed_and_heading_are_numbers :
  forall (E : JS.Engine) (now : float) (data : JS.value) (buses : list API.Bus),
    API.buses_of_payload now data = JS.Normal buses ->
    Forall (fun bus => PrimFloat.is_nan (API.bus_speed bus) = false
                       /\ PrimFloat.is_nan (API.bus_heading bus) = false) buses.
Proof.
  intros E now data buses. unfold API.buses_of_payload.
  destruct (negb (JS.truthy data)); [intros [= <-]; constructor|].
  destruct (JS.get data "buses") as [c|e]; cbn [JS.bind]; [|discriminate].
  destruct (negb (JS.truthy c)); [intros [= <-]; constructor|].
  destruct (API.flatten_container c) as [items|e]; cbn [JS.bind]; [|discriminate].
  intros H. apply mapM_Forall2 in H.
  induction H as [|r b items l Hr _ IH]; constructor; [|exact IH].
  destruct (nullish_dec r) as [Hn|Hn].
  - rewrite (normalizeBus_nullish now r Hn) in Hr. discriminate.
  - destruct (normalizeBus_record now r Hn) as (b' & Hb' & _ & _ & Hs & Hh).
    rewrite Hb' in Hr. injection Hr as <-. split; assumption.
Qed.

Lemma buses_speed_and_heading_are_numbers_witness :
  exists buses,
    API.buses_of_payload (E := Sample.engine) 0%float
      (JS.Obj [("buses", JS.Arr [JS.Obj [("busId", JS.Num 1); ("speed", JS.Str "fast")]])])
    = JS.Normal buses
    /\ map API.bus_speed buses = [0%float]
    /\ Forall (fun bus => PrimFloat.is_nan (API.bus_speed bus) = false
                          /\ PrimFloat.is_nan (API.bus_heading bus) = false) buses.
Proof.
  eexists. split; [vm_compute; reflexivity|]. split; [reflexivity|].
  apply (buses_speed_and_heading_are_numbers Sample.engine 0%float
           (JS.Obj [("buses", JS.Arr [JS.Obj [("busId", JS.Num 1);
                                              ("speed", JS.Str "fast")]])])).
  vm_compute. reflexivity.
Defined.



(** X7: every arrival that [getStopArrivals] returns has an ETA that is a
    number: a missing or unparseable [eta] (or [minutes]) has become 0. *)
Theorem upstream_arrivals_eta_are_numbers :
  forall (E : JS.Engine) (now : float) (net : API.Transport) (idx : nat)
         (stopId : JS.value) (arrivals : list API.Arrival),
    fst (API.getStopArrivals now net idx stopId) = JS.Normal arrivals ->
    Forall (fun a => PrimFloat.is_nan (API.arr_eta a) = false) arrivals.
Proof.
  intros E now net idx stopId arrivals. unfold API.getStopArrivals.
  destruct (API.postRequest net idx _ _) as [res idx']. cbn [fst].
  destruct res as [data|e]; cbn [JS.bind JS.try_catch]; [|intros [= <-]; constructor].
  destruct (API.arrivals_of_payload now data) as [l|e] eqn:Hp;
    [|intros [= <-]; constructor].
  intros [= <-]. revert Hp. unfold API.arrivals_of_payload.
  destruct (negb (JS.truthy data)); [intros [= <-]; constructor|].
  destruct (JS.get data "arrivals") as [c|e]; cbn [JS.bind]; [|discriminate].
  destruct (if JS.truthy c then API.flatten_container c else JS.Normal []) as [items|e];
    cbn [JS.bind]; [|discriminate].
  intros H. apply mapM_Forall2 in H.
  induction H as [|r a items l' Hr _ IH]; constructor; [|exact IH].
  apply (normalizeArrival_eta now r a Hr).
Qed.

Lemma upstream_arrivals_eta_are_numbers_witness :
  exists arrivals,
    fst (API.getStopArrivals (E := Replies.engine) 0%float
           (fun _ _ _ => API.Response true Replies.arrivals_text) 1 (JS.Num 3))
    = JS.Normal arrivals
    /\ map API.arr_eta arrivals = [0%float]
    /\ Forall (fun a => PrimFloat.is_nan (API.arr_eta a) = false) arrivals.
Proof.
  eexists. split; [vm_compute; reflexivity|]. split; [reflexivity|].
  apply (upstream_arrivals_eta_are_numbers Replies.engine 0%float
           (fun _ _ _ => API.Response true Replies.arrivals_text) 1 (JS.Num 3)).
  vm_compute. reflexivity.
Defined.

(** ** Effective speed, ranking and route metadata *)

Section Ranking.
Import JS API.
Local Open Scope float_scope.


Lemma eta_le_trans (a b c : Arrival) : eta_le a b -> eta_le b c -> eta_le a c.
Proof. unfold eta_le. apply Binary64Order.leb_trans. Qed.

Lemma Sorted_eta_hd_all (x : Arrival) (l : list Arrival) :
  Sorted eta_le l -> HdRel eta_le x l -> Forall (eta_le x) l.
Proof.
  intros Hs. revert x. induction Hs as [|y r Sr IH Hr]; intros x Hx; constructor.
  - inversion Hx; assumption.
  - apply IH. inversion Hx as [|? ? Hxy]; subst.
    destruct Hr as [|z r' Hyz]; constructor.
    apply (eta_le_trans x y z); assumption.
Qed.

Lemma Sorted_eta_firstn_skipn (n : nat) (l : list Arrival) :
  Sorted eta_le l ->
  forall a b, In a (firstn n l) -> In b (skipn n l) -> eta_le a b.
Proof.
  revert l. induction n as [|n IH]; intros l Hs a b Ha Hb; [contradiction|].
  destruct l as [|x r]; [contradiction|]. cbn [firstn skipn] in *.
  inversion Hs as [|? ? Sr Hr]; subst. destruct Ha as [->|Ha].
  - pose proof (Sorted_eta_hd_all a r Sr Hr) as Hall.
    rewrite Forall_forall in Hall. apply Hall.
    rewrite <- (firstn_skipn n r). apply in_or_app. right. exact Hb.
  - apply (IH r Sr a b Ha Hb).
Qed.

Lemma sort_insert_related (R : Arrival -> Arrival -> Prop)
    (HR : forall a b, R a b -> arr_eta a = arr_eta b)
    (x y : Arrival) (l1 l2 : list Arrival) :
  R x y -> Forall2 R l1 l2 ->
  Forall2 R (sort_insert by_eta x l1) (sort_insert by_eta y l2).
Proof.
  intros Hxy HF. induction HF as [|a b r1 r2 Hab HF IH]; cbn [sort_insert].
  - repeat constructor. exact Hxy.
  - unfold by_eta at 1 3. rewrite (HR _ _ Hxy), (HR _ _ Hab).
    destruct (0 <? arr_eta y - arr_eta b); repeat constructor; assumption.
Qed.

Lemma Array_sort_related (R : Arrival -> Arrival -> Prop)
    (HR : forall a b, R a b -> arr_eta a = arr_eta b)
    (l1 l2 : list Arrival) :
  Forall2 R l1 l2 -> Forall2 R (Array_sort by_eta l1) (Array_sort by_eta l2).
Proof.
  intros HF. induction HF as [|a b r1 r2 Hab HF IH]; cbn [Array_sort]; [constructor|].
  apply sort_insert_related; assumption.
Qed.

Lemma Forall2_firstn {A B} (R : A -> B -> Prop) (n : nat) (l1 : list A) (l2 : list B) :
  Forall2 R l1 l2 -> Forall2 R (firstn n l1) (firstn n l2).
Proof.
  intros HF. revert n. induction HF; intros [|n]; cbn [firstn]; constructor; auto.
Qed.

Lemma Forall2_map_eq {A B C} (f : A -> C) (g : B -> C) (l1 : list A) (l2 : list B) :
  Forall2 (fun a b => f a = g b) l1 l2 -> map f l1 = map g l2.
Proof. intros HF. induction HF; cbn [map]; [reflexivity|]. f_equal; assumption. Qed.

Lemma Forall2_map_same {A B} (R : B -> B -> Prop) (f g : A -> B) (l : list A) :
  (forall a, R (f a) (g a)) -> Forall2 R (map f l) (map g l).
Proof. intros H. induction l; cbn [map]; constructor; auto. Qed.

(** SameValueZero is symmetric and transitive. *)
Lemma same_value_zero_sym (a b : value) : same_value_zero a b = same_value_zero b a.
Proof.
  destruct a, b; cbn [same_value_zero]; try reflexivity.
  - destruct b, b0; reflexivity.
  - rewrite andb_comm. f_equal. apply Binary64Order.eqb_sym.
  - apply String.eqb_sym.
Qed.

Lemma same_value_zero_trans (a b c : value) :
  same_value_zero a b = true -> same_value_zero b c = true ->
  same_value_zero a c = true.
Proof.
  destruct a, b; cbn [same_value_zero]; try discriminate;
    destruct c; cbn [same_value_zero]; try discriminate; try reflexivity.
  - intros H1 H2. apply Bool.eqb_prop in H1, H2. subst. apply Bool.eqb_reflx.
  - intros H1 H2. apply orb_true_iff in H1, H2. apply orb_true_iff.
    destruct H1 as [H1|H1], H2 as [H2|H2].
    + left. apply andb_true_iff in H1, H2. apply andb_true_iff. tauto.
    + apply andb_true_iff in H1. destruct (Binary64Order.eqb_not_nan _ _ H2). intuition congruence.
    + apply andb_true_iff in H2. destruct (Binary64Order.eqb_not_nan _ _ H1). intuition congruence.
    + right. apply (Binary64Order.eqb_trans _ _ _ H1 H2).
  - intros H1 H2. apply String.eqb_eq in H1, H2. subst. apply String.eqb_refl.
Qed.

Lemma same_value_zero_left (k k1 k' : value) :
  same_value_zero k1 k = true -> same_value_zero k1 k' = same_value_zero k k'.
Proof.
  intros H. destruct (same_value_zero k k') eqn:H1.
  - apply (same_value_zero_trans _ _ _ H H1).
  - destruct (same_value_zero k1 k') eqn:H2; [|reflexivity].
    rewrite same_value_zero_sym in H.
    rewrite (same_value_zero_trans _ _ _ H H2) in H1. discriminate.
Qed.

(** [get] after [set]: the entry just set answers for every key that is the
    same value, and no other key is touched. *)
Lemma Map_get_set (m : list (value * Route)) (k k' : value) (r : Route) :
  Map_get (Map_set m k r) k'
  = if same_value_zero k k' then Some r else Map_get m k'.
Proof.
  induction m as [|[k1 r1] rest IH]; cbn [Map_set Map_get]; [reflexivity|].
  destruct (same_value_zero k1 k) eqn:H1; cbn [Map_get].
  - rewrite (same_value_zero_left k k1 k' H1).
    destruct (same_value_zero k k'); reflexivity.
  - rewrite IH. destruct (same_value_zero k1 k') eqn:H2; [|reflexivity].
    destruct (same_value_zero k k') eqn:H3; [|reflexivity].
    rewrite same_value_zero_sym in H3.
    rewrite (same_value_zero_trans _ _ _ H2 H3) in H1. discriminate.
Qed.

Lemma find_append {A} (f : A -> bool) (l1 l2 : list A) :
  find f (l1 ++ l2) = match find f l1 with Some x => Some x | None => find f l2 end.
Proof.
  induction l1 as [|x r IH]; cbn [app find]; [reflexivity|].
  destruct (f x); [reflexivity|exact IH].
Qed.

Lemma Map_get_fold (routes : list Route) (m : list (value * Route)) (k : value) :
  Map_get (fold_left (fun m r => Map_set m (route_id r) r) routes m) k
  = match find (fun r => same_value_zero (route_id r) k) (rev routes) with
    | Some r => Some r
    | None => Map_get m k
    end.
Proof.
  revert m. induction routes as [|r rs IH]; intros m; cbn [fold_left rev]; [reflexivity|].
  rewrite IH, find_append.
  destruct (find _ (rev rs)); [reflexivity|]. cbn [find].
  rewrite Map_get_set. destruct (same_value_zero (route_id r) k); reflexivity.
Qed.

Lemma Map_get_routeMap_of (routes : list Route) (k : value) :
  Map_get (routeMap_of routes) k
  = find (fun r => same_value_zero (route_id r) k) (rev routes).
Proof.
  unfold routeMap_of. rewrite Map_get_fold. destruct (find _ _); reflexivity.
Qed.

End Ranking.


(** X9: when no computed ETA is NaN (the ETA of no bus that passes the
    route filter), [calculateETAs] keeps the soonest: an arrival it returns
    is never later than the arrival of a bus that passed the route filter
    and was left out. *)
Theorem calculateETAs_keeps_the_soonest :
  forall (E : JS.Engine) (now : float) (buses : list API.Bus) (stop : API.Stop)
         (routes : list API.Route) (filterRouteIds : option (list string)),
    Forall (fun bus => PrimFloat.is_nan (API.etaMinutes stop bus) = false)
           (API.filterBuses buses filterRouteIds) ->
    forall (a : API.Arrival) (bus : API.Bus),
      In a (API.calculateETAs now buses stop routes filterRouteIds) ->
      In bus (API.filterBuses buses filterRouteIds) ->
      ~ In (API.arrivalOf now stop (API.routeMap_of routes) bus)
           (API.calculateETAs now buses stop routes filterRouteIds) ->
      (API.arr_eta a <=? API.etaMinutes stop bus)%float = true.
Proof.
  intros E now buses stop routes f Hnan a bus Ha Hbus Hout.
  unfold API.calculateETAs in *.
  set (all := API.Array_sort API.by_eta
                (map (API.arrivalOf now stop (API.routeMap_of routes))
                     (API.filterBuses buses f))) in *.
  assert (Hs : Sorted eta_le all).
  { apply Array_sort_sorted. apply Forall_forall. intros x Hx.
    apply in_map_iff in Hx. destruct Hx as (b & <- & Hb).
    rewrite arr_eta_arrivalOf.
    rewrite Forall_forall in Hnan. apply Hnan. exact Hb. }
  assert (Hin : In (API.arrivalOf now stop (API.routeMap_of routes) bus) all).
  { apply (Permutation_in _ (Permutation_sym (Array_sort_perm API.by_eta _))).
    apply in_map. exact Hbus. }
  rewrite <- (firstn_skipn 10 all) in Hin. apply in_app_or in Hin.
  destruct Hin as [Hin|Hin]; [contradiction|].
  apply (Sorted_eta_firstn_skipn 10 all Hs a _ Ha Hin).
Qed.

(** X10: the ranking does not depend on the route list: with any two route
    lists [calculateETAs] returns the same buses in the same order with the
    same ETA, distance and speed; only route names and colours can differ. *)
Theorem calculateETAs_ranking_ignores_routes :
  forall (E : JS.Engine) (now : float) (buses : list API.Bus) (stop : API.Stop)
         (routes1 routes2 : list API.Route) (filterRouteIds : option (list string)),
    map ranking_view (API.calculateETAs now buses stop routes1 filterRouteIds)
    = map ranking_view (API.calculateETAs now buses stop routes2 filterRouteIds).
Proof.
  intros E now buses stop routes1 routes2 f. unfold API.calculateETAs.
  apply Forall2_map_eq. apply Forall2_firstn.
  apply (Array_sort_related (fun a b => ranking_view a = ranking_view b)).
  - intros a b H. unfold ranking_view in H. congruence.
  - apply Forall2_map_same. intros bus. reflexivity.
Qed.

(** X11: the route name and colour of a calculated arrival come from the
    last route of the list whose id is the same value as the bus's route id
    (the map keeps the latest [set]); with no such route the arrival gets
    the placeholder name and the default colour. *)
Theorem calculateETAs_route_metadata_from_last_match :
  forall (E : JS.Engine) (now : float) (stop : API.Stop) (routes : list API.Route)
         (bus : API.Bus),
    let hit := find (fun r => JS.same_value_zero (API.route_id r) (API.bus_routeId bus))
                    (rev routes) in
    let a := API.arrivalOf now stop (API.routeMap_of routes) bus in
    API.arr_routeName a
    = match hit with
      | Some r => JS.or_else (API.route_shortName r) (API.route_name r)
      | None => API.template "Route " (API.bus_routeId bus)
      end
    /\ API.arr_routeColor a
       = match hit with
         | Some r => API.route_color r
         | None => JS.Str "#4a90d9"
         end.
Proof.
  intros E now stop routes bus. cbv zeta. unfold API.arrivalOf.
  cbn [API.arr_routeName API.arr_routeColor].
  rewrite Map_get_routeMap_of. split; reflexivity.
Qed.

(** ** Polling *)

Section Polling.
Import JS API.

Lemma NoDup_map_inj {A B} (f : A -> B) (l : list A) (a b : A) :
  NoDup (map f l) -> In a l -> In b l -> f a = f b -> a = b.
Proof.
  induction l as [|x r IH]; cbn [map]; intros Hn Ha Hb Hab; [contradiction|].
  inversion Hn as [|? ? Hx Hr]; subst.
  destruct Ha as [->|Ha], Hb as [->|Hb]; [reflexivity| | |apply IH; assumption].
  - exfalso. apply Hx. rewrite Hab. apply in_map. exact Hb.
  - exfalso. apply Hx. rewrite <- Hab. apply in_map. exact Ha.
Qed.

Lemma filter_keeps_ids_distinct {T K} (id_of : T -> K) (keep : T -> bool) (ts : list T) :
  NoDup (map id_of ts) -> NoDup (map id_of (filter keep ts)).
Proof.
  induction ts as [|t rest IH]; cbn [map filter]; intros Hn; [constructor|].
  inversion Hn as [|? ? Ht Hrest]; subst.
  destruct (keep t); cbn [map]; [constructor|]; auto.
  intros Hin. apply Ht. apply in_map_iff in Hin. destruct Hin as (y & Hy & Hin).
  apply filter_In in Hin. rewrite <- Hy. apply in_map. tauto.
Qed.

Lemma filter_none {A} (p : A -> bool) (l : list A) :
  (forall x, In x l -> p x = false) -> filter p l = [].
Proof.
  induction l as [|x r IH]; intros H; cbn [filter]; [reflexivity|].
  rewrite (H x (or_introl eq_refl)). apply IH. intros y Hy. apply H. right. exact Hy.
Qed.

Lemma filter_all {A} (p : A -> bool) (l : list A) :
  (forall x, In x l -> p x = true) -> filter p l = l.
Proof.
  induction l as [|x r IH]; intros H; cbn [filter]; [reflexivity|].
  rewrite (H x (or_introl eq_refl)). f_equal. apply IH. intros y Hy. apply H. right. exact Hy.
Qed.

Lemma filter_comm {A} (p q : A -> bool) (l : list A) :
  filter p (filter q l) = filter q (filter p l).
Proof.
  induction l as [|x r IH]; cbn [filter]; [reflexivity|].
  destruct (p x) eqn:Hp, (q x) eqn:Hq; cbn [filter]; rewrite ?Hp, ?Hq, IH; reflexivity.
Qed.

Lemma timers_consistent_ext (w w' : App.world) :
  timer_state w' = timer_state w -> timers_consistent w -> timers_consistent w'.
Proof.
  unfold timer_state, timers_consistent, bus_timers, App.arrivals_timers.
  intros [= -> -> -> ->]. tauto.
Qed.

Lemma bus_timers_ext (w w' : App.world) :
  timer_state w' = timer_state w ->
  bus_timers w' = bus_timers w
  /\ App.busRefreshInterval w' = App.busRefreshInterval w.
Proof.
  unfold timer_state, bus_timers. intros [= -> _ _ ->]. split; reflexivity.
Qed.

(** Cancelling the timer that the arrivals variable names removes the
    arrivals timer and no other. *)
Lemma clearInterval_arrivals (w : App.world) (id : nat) :
  timers_consistent w -> App.arrivalsRefreshInterval w = Some id ->
  let w1 := App.clearInterval id w in
  App.arrivals_timers w1 = [] /\ bus_timers w1 = bus_timers w
  /\ NoDup (map App.timer_id (App.timers w1))
  /\ Forall (fun t => (App.timer_id t <= App.timer_counter w1)%nat) (App.timers w1).
Proof.
  intros (Hn & Hle & Ha & Hb) Hid. rewrite Hid in Ha.
  unfold names_timers, App.arrivals_timers, bus_timers in *.
  cbv zeta. unfold App.clearInterval, App.arrivals_timers, bus_timers.
  cbn [App.timers App.timer_counter App.with_timers].
  repeat split.
  - apply filter_none. intros t Ht. apply filter_In in Ht. destruct Ht as [Hin Hne].
    destruct (App.timer_callback t) eqn:Hc; [reflexivity|]. exfalso.
    assert (Hi : In (App.timer_id t) [id]).
    { rewrite <- Ha. apply in_map. apply filter_In. rewrite Hc. tauto. }
    destruct Hi as [Hi|[]]. rewrite <- Hi, Nat.eqb_refl in Hne. discriminate.
  - rewrite filter_comm. apply filter_all. intros t Ht.
    apply filter_In in Ht. destruct Ht as [Hin Hbus].
    destruct (Nat.eqb (App.timer_id t) id) eqn:Heq; [|reflexivity]. exfalso.
    apply Nat.eqb_eq in Heq.
    destruct (filter _ (App.timers w)) as [|ta [|? ?]] eqn:Hf; try discriminate.
    injection Ha as Hta.
    assert (Hina : In ta (filter (fun t0 => match App.timer_callback t0 with
                                             | App.run_refreshBuses => false
                                             | App.run_refreshArrivals _ => true
                                             end) (App.timers w)))
      by (rewrite Hf; left; reflexivity).
    apply filter_In in Hina. destruct Hina as [Hina Harr].
    assert (t = ta) by (apply (NoDup_map_inj App.timer_id (App.timers w)); congruence).
    subst ta. destruct (App.timer_callback t); discriminate.
  - apply filter_keeps_ids_distinct. exact Hn.
  - apply Forall_forall. intros t Ht. apply filter_In in Ht.
    rewrite Forall_forall in Hle. apply Hle. tauto.
Qed.

Lemma startArrivalsPolling_consistent (stop : Stop) (w : App.world) :
  timers_consistent w ->
  timers_consistent (App.startArrivalsPolling stop w)
  /\ bus_timers (App.startArrivalsPolling stop w) = bus_timers w
  /\ App.busRefreshInterval (App.startArrivalsPolling stop w) = App.busRefreshInterval w
  /\ map App.timer_callback (App.arrivals_timers (App.startArrivalsPolling stop w))
     = [App.run_refreshArrivals stop].
Proof.
  intros Hc. unfold App.startArrivalsPolling.
  set (w1 := match App.arrivalsRefreshInterval w with
             | Some id => App.clearInterval id w
             | None => w
             end).
  assert (H1 : App.arrivals_timers w1 = [] /\ bus_timers w1 = bus_timers w
               /\ NoDup (map App.timer_id (App.timers w1))
               /\ Forall (fun t => (App.timer_id t <= App.timer_counter w1)%nat)
                         (App.timers w1)
               /\ App.busRefreshInterval w1 = App.busRefreshInterval w
               /\ names_timers (App.busRefreshInterval w) (bus_timers w)).
  { subst w1. destruct (App.arrivalsRefreshInterval w) as [id|] eqn:Hid.
    - destruct (clearInterval_arrivals w id Hc Hid) as (A & B & C & D).
      destruct Hc as (_ & _ & _ & Hb). repeat split; assumption.
    - destruct Hc as (Hn & Hle & Ha & Hb). rewrite Hid in Ha.
      unfold names_timers in Ha. apply map_eq_nil in Ha. repeat split; assumption. }
  clearbody w1. destruct H1 as (Ha & Hb & Hn & Hle & Hv & Hnb).
  unfold App.setInterval, timers_consistent, names_timers, App.arrivals_timers, bus_timers in *.
  cbn [App.timers App.timer_counter App.with_timers App.with_arrivalsRefreshInterval
       App.arrivalsRefreshInterval App.busRefreshInterval].
  rewrite !filter_app, !map_app. cbn [filter App.timer_callback map App.timer_id].
  rewrite Ha, Hb, Hv, app_nil_r. cbn [map app].
  repeat split; try reflexivity; try assumption.
  - apply (Permutation_NoDup (l := S (App.timer_counter w1) :: map App.timer_id (App.timers w1))).
    + apply Permutation_cons_append.
    + constructor; [|exact Hn]. intros Hin. apply in_map_iff in Hin.
      destruct Hin as (t & Ht & Hin). rewrite Forall_forall in Hle.
      specialize (Hle t Hin). lia.
  - apply Forall_app. split.
    + apply Forall_forall. intros t Ht. rewrite Forall_forall in Hle.
      specialize (Hle t Ht). lia.
    + constructor; [cbn; lia|constructor].
  - apply app_nil_r.
Qed.

Lemma refreshArrivals_timer_state (E : Engine) net now stop (w : App.world) :
  timer_state (snd (App.refreshArrivals net now stop w)) = timer_state w.
Proof.
  unfold App.refreshArrivals.
  destruct (getStopArrivals _ _ _ _) as [fetched idx].
  destruct fetched as [[|a l]|e]; reflexivity.
Qed.

Lemma refreshBuses_timer_state (E : Engine) net now (w : App.world) :
  timer_state (snd (App.refreshBuses net now w)) = timer_state w.
Proof.
  unfold App.refreshBuses.
  destruct (getBuses _ _ _) as [fetched idx].
  destruct fetched as [l|e]; [|reflexivity]. cbn.
  destruct (UI.currentView (App.ui w)); try reflexivity.
  destruct (UI.selectedSourceStop (App.ui w)); reflexivity.
Qed.

Lemma backClicked_timer_state (E : Engine) net now (w : App.world) :
  timer_state (App.backClicked net now w) = timer_state w.
Proof.
  unfold App.backClicked, App.goBackToDetailsView.
  destruct (UI.currentView (App.ui w)); try reflexivity.
  destruct (match UI.selectedSourceStop (App.ui w) with
            | Some s => Some s
            | None => _
            end); [|reflexivity].
  rewrite refreshArrivals_timer_state. reflexivity.
Qed.

(** Only a search touches the timers, and it does so by restarting the
    arrivals polling. *)
Lemma step_timer_state (E : Engine) (w : App.world) (ev : App.event) :
  timer_state (App.step w ev) = timer_state w
  \/ exists stop w', timer_state w' = timer_state w
                     /\ App.step w ev = App.startArrivalsPolling stop w'.
Proof.
  destruct ev as [net now|net now| |id net now]; cbn [App.step].
  - destruct (UI.selectedSourceStop (App.ui w)) as [s|]; [|left; reflexivity].
    right. unfold App.handleSearch.
    set (w0 := App.with_ui _ w).
    pose proof (refreshArrivals_timer_state E net now s w0) as H.
    destruct (App.refreshArrivals net now s w0) as [o w']. cbn [snd] in H.
    exists s, w'. split; [rewrite H|]; reflexivity.
  - left. apply backClicked_timer_state.
  - left. reflexivity.
  - left. destruct (App.find_timer id w) as [t|]; [|reflexivity].
    destruct (App.timer_callback t) as [|stop];
      [apply refreshBuses_timer_state|apply refreshArrivals_timer_state].
Qed.

Lemma step_consistent (E : Engine) (w : App.world) (ev : App.event) :
  timers_consistent w ->
  timers_consistent (App.step w ev)
  /\ bus_timers (App.step w ev) = bus_timers w
  /\ App.busRefreshInterval (App.step w ev) = App.busRefreshInterval w.
Proof.
  intros Hc. destruct (step_timer_state E w ev) as [H|(stop & w' & H & ->)].
  - split; [apply (timers_consistent_ext w _ H Hc)|apply bus_timers_ext; exact H].
  - pose proof (timers_consistent_ext w w' H Hc) as Hc'.
    destruct (startArrivalsPolling_consistent stop w' Hc') as (A & B & C & _).
    destruct (bus_timers_ext w w' H) as [B' C'].
    split; [exact A|]. split; congruence.
Qed.

Lemma run_consistent (E : Engine) (evs : list App.event) (w : App.world) :
  timers_consistent w ->
  timers_consistent (App.run w evs)
  /\ bus_timers (App.run w evs) = bus_timers w
  /\ App.busRefreshInterval (App.run w evs) = App.busRefreshInterval w.
Proof.
  unfold App.run. revert w. induction evs as [|ev evs IH]; intros w Hc; cbn [fold_left].
  - split; [exact Hc|split; reflexivity].
  - destruct (step_consistent E w ev Hc) as (A & B & C).
    destruct (IH _ A) as (A' & B' & C'). split; [exact A'|]. split; congruence.
Qed.

End Polling.

(** X12: searches do not pile up arrivals timers.  From a state in which the
    timer variables name the registered timers, every sequence of searches,
    back and bus clicks and timer ticks leads to such a state again, so at
    most one arrivals timer is registered, and the module holds its id. *)
Theorem at_most_one_arrivals_timer :
  forall (E : JS.Engine) (w : App.world) (evs : list App.event),
    timers_consistent w ->
    timers_consistent (App.run w evs)
    /\ (List.length (App.arrivals_timers (App.run w evs)) <= 1)%nat.
Proof.
  intros E w evs Hc. destruct (run_consistent E evs w Hc) as (A & _). split; [exact A|].
  destruct A as (_ & _ & Ha & _). unfold names_timers in Ha.
  rewrite <- (length_map App.timer_id), Ha.
  destruct (App.arrivalsRefreshInterval _); cbn; lia.
Qed.

Lemma at_most_one_arrivals_timer_witness :
  let net := Scenario.offline in
  let evs := [App.SearchClicked net 0%float; App.BackClicked net 0%float;
              App.SearchClicked net 0%float; App.TimerFired 3 net 0%float;
              App.SearchClicked net 0%float] in
  map App.timer_id (App.timers (App.run (E := Sample.engine) Scenario.world0 evs)) = [1; 4]
  /\ timers_consistent (App.run (E := Sample.engine) Scenario.world0 evs)
  /\ (List.length (App.arrivals_timers (App.run (E := Sample.engine) Scenario.world0 evs))
      <= 1)%nat.
Proof.
  cbv zeta. split; [vm_compute; reflexivity|].
  apply (at_most_one_arrivals_timer Sample.engine Scenario.world0).
  unfold timers_consistent, names_timers. repeat split.
  - vm_compute. repeat constructor; intros []; try discriminate; contradiction.
  - vm_compute. repeat constructor.
Defined.

(** X13: nothing but [startBusPolling] touches the bus polling: from a
    consistent state, no sequence of searches, clicks and ticks cancels or
    replaces the bus timer. *)
Theorem bus_polling_is_never_disturbed :
  forall (E : JS.Engine) (w : App.world) (evs : list App.event),
    timers_consistent w ->
    bus_timers (App.run w evs) = bus_timers w
    /\ App.busRefreshInterval (App.run w evs) = App.busRefreshInterval w.
Proof.
  intros E w evs Hc. destruct (run_consistent E evs w Hc) as (_ & B). exact B.
Qed.

Lemma bus_polling_is_never_disturbed_witness :
  let net := Scenario.offline in
  let evs := [App.SearchClicked net 0%float; App.TimerFired 1 net 0%float;
              App.SearchClicked net 0%float; App.BackClicked net 0%float] in
  map App.timer_id (bus_timers (App.run (E := Sample.engine) Scenario.world0 evs)) = [1]
  /\ bus_timers (App.run (E := Sample.engine) Scenario.world0 evs)
     = bus_timers Scenario.world0
  /\ App.busRefreshInterval (App.run (E := Sample.engine) Scenario.world0 evs)
     = App.busRefreshInterval Scenario.world0.
Proof.
  cbv zeta. split; [vm_compute; reflexivity|].
  apply (bus_polling_is_never_disturbed Sample.engine Scenario.world0).
  unfold timers_consistent, names_timers. repeat split.
  - vm_compute. repeat constructor; intros []; try discriminate; contradiction.
  - vm_compute. repeat constructor.
Defined.

Lemma calculateETAs_keeps_the_soonest_witness :
  let buses := Places.busLost7 :: Places.busFar5 :: Scenario.eleven in
  PrimFloat.is_nan (API.etaMinutes (E := Sample.engine) Scenario.stopA Places.busLost7)
  = true
  /\ map API.arr_eta
         (API.calculateETAs (E := Sample.engine) 0%float buses Scenario.stopA
                            [Scenario.routeM2] (Some ["5"]))
     = repeat 1%float 10
  /\ API.etaMinutes (E := Sample.engine) Scenario.stopA Places.busFar5 = 13%float
  /\ (API.arr_eta (API.arrivalOf (E := Sample.engine) 0%float Scenario.stopA
                     (API.routeMap_of [Scenario.routeM2]) Scenario.bus1)
      <=? API.etaMinutes (E := Sample.engine) Scenario.stopA Places.busFar5)%float = true.
Proof.
  cbv zeta. split; [vm_compute; reflexivity|]. split; [vm_compute; reflexivity|].
  split; [vm_compute; reflexivity|].
  apply (calculateETAs_keeps_the_soonest Sample.engine 0%float
           (Places.busLost7 :: Places.busFar5 :: Scenario.eleven) Scenario.stopA
           [Scenario.routeM2] (Some ["5"])).
  - change (API.filterBuses (Places.busLost7 :: Places.busFar5 :: Scenario.eleven)
              (Some ["5"]))
      with (Places.busFar5 :: Scenario.eleven).
    repeat constructor; vm_compute; reflexivity.
  - vm_compute. left. reflexivity.
  - vm_compute. left. reflexivity.
  - intros H. vm_compute in H.
    repeat (destruct H as [H|H]; [discriminate H|]). exact H.
Defined.

(** ** Refreshing *)

(** X14: a bus refresh never throws, and a failed fetch costs nothing that
    is on screen: the last bus snapshot, the view and the timers stay as
    they were.  Outside the details view, or with no source stop selected,
    a successful refresh leaves the arrivals list alone as well. *)
Theorem refreshBuses_failure_keeps_snapshot :
  forall (E : JS.Engine) (net : API.Transport) (now : float) (w : App.world),
    let w' := snd (App.refreshBuses net now w) in
    fst (App.refreshBuses net now w) = JS.Normal tt
    /\ timer_state w' = timer_state w
    /\ ((forall l, fst (API.getBuses now net (App.currentProxyIndex w)) <> JS.Normal l) ->
        App.buses w' = App.buses w /\ App.ui w' = App.ui w)
    /\ (UI.currentView (App.ui w) <> UI.details \/ UI.selectedSourceStop (App.ui w) = None ->
        App.ui w' = App.ui w).
Proof.
  intros E net now w. cbv zeta. split; [|split; [apply refreshBuses_timer_state|]];
    unfold App.refreshBuses;
    destruct (API.getBuses _ _ _) as [fetched idx]; cbn [fst].
  - destruct fetched as [l|e]; [|reflexivity]. cbn.
    destruct (UI.currentView (App.ui w)); try reflexivity.
    destruct (UI.selectedSourceStop (App.ui w)); reflexivity.
  - split.
    + intros H. destruct fetched as [l|e]; [destruct (H l eq_refl)|]. split; reflexivity.
    + intros H. destruct fetched as [l|e]; [|reflexivity]. cbn.
      destruct (UI.currentView (App.ui w)); try reflexivity.
      destruct (UI.selectedSourceStop (App.ui w)); [|reflexivity].
      destruct H as [H|H]; [destruct (H eq_refl)|discriminate].
Qed.

Lemma refreshBuses_failure_keeps_snapshot_witness :
  let w' := snd (App.refreshBuses (E := Sample.engine) Scenario.offline 0%float
                                  Scenario.world0) in
  App.buses w' = [Scenario.bus1] /\ App.ui w' = Scenario.ui0.
Proof.
  cbv zeta.
  destruct (refreshBuses_failure_keeps_snapshot Sample.engine Scenario.offline 0%float
              Scenario.world0) as (_ & _ & H & _).
  apply H. intros l. vm_compute. discriminate.
Defined.

Section Upstream.
Import JS API.
Context {E : Engine}.


End Upstream.



(** ** Clicks on buses *)

Section NearestStop.
Import JS API.
Local Open Scope float_scope.
Context {E : Engine}.



End NearestStop.



(** ** Route visibility *)

Section Visible.
Import JS API.
Context {E : Engine}.


End Visible.



(** ** Saved settings *)

Section SavedSettings.
Import JS Settings.

Lemma lookup_app (q : string) (l1 l2 : list (string * value)) :
  lookup q (l1 ++ l2)
  = match lookup q l1 with Some v => Some v | None => lookup q l2 end.
Proof.
  induction l1 as [|[k v] r IH]; cbn [app lookup]; [reflexivity|].
  destruct (String.eqb q k); [reflexivity|exact IH].
Qed.

Lemma lookup_None (q : string) (l : list (string * value)) :
  lookup q l = None <-> ~ In q (map fst l).
Proof.
  induction l as [|[k v] r IH]; cbn [lookup map fst In]; [tauto|].
  destruct (String.eqb_spec q k) as [->|Hne].
  - split; [discriminate|]. intros H. exfalso. apply H. left. reflexivity.
  - rewrite IH. split; [intros H [Hk|Hin]; [congruence|tauto]|tauto].
Qed.

Lemma lookup_rev (q : string) (l : list (string * value)) :
  NoDup (map fst l) -> lookup q (rev l) = lookup q l.
Proof.
  induction l as [|[k v] r IH]; cbn [map fst rev lookup]; intros Hn; [reflexivity|].
  inversion Hn as [|? ? Hk Hr]; subst. rewrite lookup_app, (IH Hr). cbn [lookup].
  destruct (String.eqb_spec q k) as [->|Hne].
  - apply lookup_None in Hk. rewrite Hk. reflexivity.
  - destruct (lookup q r); reflexivity.
Qed.

Lemma lookup_replace (props : list (string * value)) (k q : string) (v : value) :
  lookup k props <> None ->
  lookup q (replace props k v) = if String.eqb q k then Some v else lookup q props.
Proof.
  induction props as [|[k' v'] r IH]; cbn [lookup replace]; [congruence|].
  destruct (String.eqb_spec k k') as [<-|Hne]; cbn [lookup]; intros H.
  - destruct (String.eqb q k); reflexivity.
  - rewrite (IH H). destruct (String.eqb_spec q k') as [->|Hq]; [|reflexivity].
    destruct (String.eqb_spec k' k); [congruence|reflexivity].
Qed.

Lemma lookup_insert_new (props : list (string * value)) (k q : string) (v : value) :
  lookup k props = None ->
  lookup q (insert_new props k v) = if String.eqb q k then Some v else lookup q props.
Proof.
  induction props as [|[k' v'] r IH]; cbn [lookup insert_new]; [reflexivity|].
  destruct (String.eqb_spec k k') as [<-|Hne]; [discriminate|]. intros H.
  destruct (precedes k k'); cbn [lookup]; [reflexivity|]. rewrite (IH H).
  destruct (String.eqb_spec q k') as [->|Hq]; [|reflexivity].
  destruct (String.eqb_spec k' k); [congruence|reflexivity].
Qed.

(** Reading after writing one property: the property written has the new
    value, every other one its old value. *)
Lemma lookup_set_prop (props : list (string * value)) (k q : string) (v : value) :
  lookup q (set_prop props k v) = if String.eqb q k then Some v else lookup q props.
Proof.
  unfold set_prop. destruct (lookup k props) eqn:H.
  - apply lookup_replace. congruence.
  - apply lookup_insert_new. exact H.
Qed.

Lemma keys_replace (props : list (string * value)) (k : string) (v : value) :
  map fst (replace props k v) = map fst props.
Proof.
  induction props as [|[k' v'] r IH]; cbn [replace map fst]; [reflexivity|].
  destruct (String.eqb k k'); cbn [map fst]; [reflexivity|]. f_equal. exact IH.
Qed.

Lemma keys_insert_new (props : list (string * value)) (k : string) (v : value) :
  Permutation (map fst (insert_new props k v)) (k :: map fst props).
Proof.
  induction props as [|[k' v'] r IH]; cbn [insert_new map fst]; [apply Permutation_refl|].
  destruct (precedes k k'); cbn [map fst]; [apply Permutation_refl|].
  apply perm_trans with (k' :: k :: map fst r); [apply perm_skip; exact IH|apply perm_swap].
Qed.

Lemma keys_set_prop (props : list (string * value)) (k : string) (v : value) :
  NoDup (map fst props) -> NoDup (map fst (set_prop props k v)).
Proof.
  intros Hn. unfold set_prop. destruct (lookup k props) eqn:H.
  - rewrite keys_replace. exact Hn.
  - apply (Permutation_NoDup (Permutation_sym (keys_insert_new props k v))).
    constructor; [apply lookup_None; exact H|exact Hn].
Qed.

Lemma keys_fold (l : list (string * value)) (target : list (string * value)) :
  NoDup (map fst target) ->
  NoDup (map fst (fold_left (fun acc kv => set_prop acc (fst kv) (snd kv)) l target)).
Proof.
  revert target. induction l as [|[k v] r IH]; intros target Hn; cbn [fold_left]; [exact Hn|].
  apply IH. apply keys_set_prop. exact Hn.
Qed.

Lemma keys_spread (target : list (string * value)) (source : value) :
  NoDup (map fst target) -> NoDup (map fst (spread target source)).
Proof. apply keys_fold. Qed.

Lemma lookup_fold (q : string) (l : list (string * value)) (target : list (string * value)) :
  lookup q (fold_left (fun acc kv => set_prop acc (fst kv) (snd kv)) l target)
  = match lookup q (rev l) with Some v => Some v | None => lookup q target end.
Proof.
  revert target. induction l as [|[k v] r IH]; intros target; cbn [fold_left rev];
    [reflexivity|].
  rewrite IH, lookup_app. cbn [fst snd lookup]. rewrite lookup_set_prop.
  destruct (lookup q (rev r)); [reflexivity|]. destruct (String.eqb q k); reflexivity.
Qed.

(** Reading from [{ ...target, ...source }]: what [source] has wins. *)
Lemma lookup_spread (q : string) (target source : list (string * value)) :
  NoDup (map fst source) ->
  lookup q (spread target (Obj source))
  = match lookup q source with Some v => Some v | None => lookup q target end.
Proof.
  intros Hn. unfold spread. cbn [for_in]. rewrite lookup_fold, (lookup_rev q source Hn).
  reflexivity.
Qed.

Lemma spread_defaults : spread [] (Obj defaults) = defaults.
Proof. reflexivity. Qed.

Context {E : Engine}.

Lemma keys_getSettings (ls : localStorage) : NoDup (map fst (getSettings ls)).
Proof.
  assert (Hd : NoDup (map fst (spread [] (Obj defaults))))
    by (apply keys_spread; constructor).
  unfold getSettings. destruct (getItem ls) as [[stored|]|e]; try exact Hd.
  destruct (negb _); [|exact Hd].
  destruct (JSON_parse stored); [|exact Hd]. apply keys_spread. exact Hd.
Qed.

Lemma getSettings_has_defaults (ls : localStorage) (k : string) :
  lookup k defaults <> None -> lookup k (getSettings ls) <> None.
Proof.
  intros Hk. unfold getSettings.
  destruct (getItem ls) as [[stored|]|e]; try (rewrite spread_defaults; exact Hk).
  destruct (negb _); [|rewrite spread_defaults; exact Hk].
  destruct (JSON_parse stored); [|rewrite spread_defaults; exact Hk].
  unfold spread at 1. rewrite lookup_fold. destruct (lookup k (rev _)); [discriminate|].
  rewrite spread_defaults. exact Hk.
Qed.

End SavedSettings.

(** X18: reading the settings never fails and falls back to the defaults:
    when the storage is blocked, holds nothing, holds the empty text, text
    that does not parse, or a document with nothing to enumerate ([null], a
    number, an empty object), [getSettings] is the default settings; and
    whatever is stored, every default setting is present in the result.
    After a successful [clearSettings] the defaults are read again. *)
Theorem getSettings_falls_back_to_defaults :
  forall (E : JS.Engine) (ls : Settings.localStorage),
    (Settings.accessible ls = false
     \/ Settings.item ls = None
     \/ Settings.item ls = Some ""
     \/ (exists s, Settings.item ls = Some s
                   /\ (JS.JSON_parse s = None
                       \/ exists v, JS.JSON_parse s = Some v /\ JS.for_in v = [])) ->
     Settings.getSettings ls = Settings.defaults)
    /\ (forall k, JS.lookup k Settings.defaults <> None ->
                  JS.lookup k (Settings.getSettings ls) <> None)
    /\ (fst (Settings.clearSettings ls) = true ->
        Settings.getSettings (snd (Settings.clearSettings ls)) = Settings.defaults).
Proof.
  intros E ls. split; [|split].
  - unfold Settings.getSettings, Settings.getItem.
    intros [H|[H|[H|(s & H & Hs)]]]; rewrite H; try reflexivity.
    + destruct (Settings.accessible ls); reflexivity.
    + destruct (Settings.accessible ls); reflexivity.
    + destruct (Settings.accessible ls); [|reflexivity].
      destruct (negb _); [|reflexivity].
      destruct Hs as [->|(v & -> & Hv)]; [reflexivity|].
      unfold Settings.spread at 1. rewrite Hv. reflexivity.
  - apply getSettings_has_defaults.
  - unfold Settings.clearSettings, Settings.removeItem, Settings.getSettings, Settings.getItem.
    destruct (Settings.accessible ls) eqn:Ha; cbn [fst snd]; [|discriminate].
    intros _. cbn [Settings.with_item Settings.accessible Settings.item]. rewrite Ha.
    reflexivity.
Qed.

Lemma getSettings_falls_back_to_defaults_witness :
  Settings.getSettings (E := Sample.engine) Places.blockedStorage = Settings.defaults
  /\ Settings.getDefaultSource (E := Sample.engine) Places.blockedStorage = JS.Str "".
Proof.
  split; [|vm_compute; reflexivity].
  destruct (getSettings_falls_back_to_defaults Sample.engine Places.blockedStorage)
    as [H _].
  apply H. left. reflexivity.
Defined.

Section RoundTrip.
Import JS Settings.
Context {E : Engine}.

Lemma keys_toSave now (settings : list (string * value)) (ls : localStorage) :
  NoDup (map fst (toSave now settings ls)).
Proof.
  unfold toSave. apply keys_set_prop. apply keys_spread. apply keys_spread. constructor.
Qed.

Lemma lookup_toSave now (settings : list (string * value)) (ls : localStorage) (k : string) :
  NoDup (map fst settings) ->
  lookup k (toSave now settings ls)
  = if String.eqb k "lastUpdated" then Some (Num now)
    else match lookup k settings with
         | Some v => Some v
         | None => lookup k (getSettings ls)
         end.
Proof.
  intros Hn. unfold toSave. rewrite lookup_set_prop.
  destruct (String.eqb k "lastUpdated"); [reflexivity|].
  rewrite (lookup_spread k _ settings Hn).
  destruct (lookup k settings); [reflexivity|].
  rewrite (lookup_spread k [] (getSettings ls) (keys_getSettings ls)).
  destruct (lookup k (getSettings ls)); reflexivity.
Qed.

End RoundTrip.

(** X19: what is saved is read back.  When [saveSettings] succeeds and the
    text written parses back to the object written, every setting named in
    the call then reads as given, [lastUpdated] reads as the time of the
    call, and every other setting reads as before: saving one setting keeps
    the others. *)
Theorem saveSettings_then_read :
  forall (E : JS.Engine) (JSON_stringify : JS.value -> string) (now : float)
         (settings : list (string * JS.value)) (ls : Settings.localStorage),
    NoDup (map fst settings) ->
    fst (Settings.saveSettings JSON_stringify now settings ls) = true ->
    JSON_stringify (JS.Obj (Settings.toSave now settings ls)) <> "" ->
    JS.JSON_parse (JSON_stringify (JS.Obj (Settings.toSave now settings ls)))
    = Some (JS.Obj (Settings.toSave now settings ls)) ->
    forall k : string,
      Settings.read (snd (Settings.saveSettings JSON_stringify now settings ls)) k
      = if String.eqb k "lastUpdated" then JS.Num now
        else match JS.lookup k settings with
             | Some v => v
             | None => Settings.read ls k
             end.
Proof.
  intros E stringify now settings ls Hn Hok Hne Hparse k.
  unfold Settings.saveSettings, Settings.setItem in *.
  destruct (Settings.accessible ls) eqn:Ha; [|discriminate Hok].
  cbn [andb] in *.
  destruct (Nat.leb _ _); [|discriminate Hok]. cbn [snd].
  unfold Settings.read at 1.
  assert (Hget : Settings.getSettings
                   (Settings.with_item
                      (Some (stringify (JS.Obj (Settings.toSave now settings ls)))) ls)
                 = Settings.spread (Settings.spread [] (JS.Obj Settings.defaults))
                     (JS.Obj (Settings.toSave now settings ls))).
  { unfold Settings.getSettings at 1, Settings.getItem.
    cbn [Settings.with_item Settings.accessible Settings.item]. rewrite Ha.
    destruct (String.eqb_spec (stringify (JS.Obj (Settings.toSave now settings ls))) "")
      as [Heq|_]; [destruct (Hne Heq)|].
    cbn [negb]. rewrite Hparse. reflexivity. }
  rewrite Hget, (lookup_spread k _ _ (keys_toSave now settings ls)), spread_defaults.
  rewrite (lookup_toSave now settings ls k Hn).
  destruct (String.eqb k "lastUpdated"); [reflexivity|].
  destruct (JS.lookup k settings); [reflexivity|].
  unfold Settings.read.
  destruct (JS.lookup k (Settings.getSettings ls)) eqn:Hold; [reflexivity|].
  destruct (JS.lookup k Settings.defaults) eqn:Hd; [|reflexivity].
  exfalso. apply (getSettings_has_defaults ls k); [congruence|exact Hold].
Qed.

Lemma saveSettings_then_read_witness :
  let ls' := snd (Settings.setSelectedRoutes (E := Replies.engine) Replies.stringify
                    7%float (JS.Arr [JS.Str "5"]) Places.emptyStorage) in
  Settings.read (E := Replies.engine) ls' "selectedRoutes" = JS.Arr [JS.Str "5"]
  /\ Settings.read (E := Replies.engine) ls' "lastUpdated" = JS.Num 7
  /\ Settings.read (E := Replies.engine) ls' "defaultDest"
     = Settings.read (E := Replies.engine) Places.emptyStorage "defaultDest".
Proof.
  cbv zeta.
  pose proof (saveSettings_then_read Replies.engine Replies.stringify 7%float
                [("selectedRoutes", JS.Arr [JS.Str "5"])] Places.emptyStorage) as H.
  assert (H1 : NoDup (map fst [("selectedRoutes", JS.Arr [JS.Str "5"])]))
    by (repeat constructor; intros []).
  assert (H2 : fst (Settings.saveSettings (E := Replies.engine) Replies.stringify 7%float
                      [("selectedRoutes", JS.Arr [JS.Str "5"])] Places.emptyStorage)
               = true) by (vm_compute; reflexivity).
  assert (H3 : Replies.stringify
                 (JS.Obj (Settings.toSave (E := Replies.engine) 7%float
                            [("selectedRoutes", JS.Arr [JS.Str "5"])] Places.emptyStorage))
               <> "") by (vm_compute; discriminate).
  assert (H4 : JS.JSON_parse (Engine := Replies.engine)
                 (Replies.stringify
                    (JS.Obj (Settings.toSave (E := Replies.engine) 7%float
                               [("selectedRoutes", JS.Arr [JS.Str "5"])]
                               Places.emptyStorage)))
               = Some (JS.Obj (Settings.toSave (E := Replies.engine) 7%float
                                 [("selectedRoutes", JS.Arr [JS.Str "5"])]
                                 Places.emptyStorage)))
    by (vm_compute; reflexivity).
  specialize (H H1 H2 H3 H4).
  split; [exact (H "selectedRoutes")|]. split; [exact (H "lastUpdated")|].
  exact (H "defaultDest").
Defined.

(** ** The stop dropdowns *)

Section FirstOfEach.
Import JS API.
Context {A : Type} (key : A -> value).




End FirstOfEach.



(** ** Names and colours of the records *)

Section Named.
Import JS API.
Context {E : Engine}.

Lemma or_else_truthy (a b : value) : truthy b = true -> truthy (or_else a b) = true.
Proof. intros H. unfold or_else. destruct (truthy a) eqn:Ha; assumption. Qed.

Lemma normalizeRoute_named (v : value) (r : Route) :
  normalizeRoute v = Normal r ->
  truthy (route_name r) = true /\ truthy (route_color r) = true
  /\ route_active r = true.
Proof.
  destruct (nullish_dec v) as [[->| ->]|H]; try discriminate.
  unfold normalizeRoute. rewrite !(get_record v _ H). cbn [bind].
  destruct (parseRoutePoints _); cbn [bind]; [|discriminate].
  intros [= <-]. cbn [route_name route_color route_active].
  repeat split; apply or_else_truthy; reflexivity.
Qed.

Lemma normalizeStop_named (v : value) (s : Stop) :
  normalizeStop v = Normal s ->
  truthy (stop_name s) = true /\ truthy (stop_color s) = true.
Proof.
  destruct (nullish_dec v) as [[->| ->]|H]; try discriminate.
  unfold normalizeStop. rewrite !(get_record v _ H). cbn [bind].
  intros [= <-]. cbn [stop_name stop_color].
  split; apply or_else_truthy; reflexivity.
Qed.

Lemma own_items_Forall {A} (P : A -> Prop) (o : value) (each : value -> completion (list A))
    (props : list (string * value)) (l : list A) :
  (forall item l', each item = Normal l' -> Forall P l') ->
  own_items o each props = Normal l -> Forall P l.
Proof.
  intros Heach. revert l. induction props as [|[key item] r IH]; intros l; cbn [own_items].
  - intros [= <-]. constructor.
  - destruct (hasOwnProperty_call o key) as [own|e]; cbn [bind]; [|discriminate].
    destruct (if own then each item else Normal []) as [pushed|e] eqn:Hp; cbn [bind];
      [|discriminate].
    destruct (own_items o each r) as [rest|e]; cbn [bind]; [|discriminate].
    intros [= <-]. apply Forall_app. split; [|apply IH; reflexivity].
    destruct own; [apply (Heach item); exact Hp|injection Hp as <-; constructor].
Qed.

End Named.

(** X21: no route and no stop comes out of the fetchers without a name and
    a colour: whatever the payload, when [getRoutes] or [getStops] builds
    its list, every record in it has a non-empty (truthy) name and colour,
    the placeholder name and the default colour standing in for what the
    feed left out, and every route is marked active. *)
Theorem routes_and_stops_have_name_and_colour :
  forall (E : JS.Engine) (data : JS.value),
    (forall routes, API.routes_of_payload data = JS.Normal routes ->
       Forall (fun r => JS.truthy (API.route_name r) = true
                        /\ JS.truthy (API.route_color r) = true
                        /\ API.route_active r = true) routes)
    /\ (forall stops, API.stops_of_payload data = JS.Normal stops ->
          Forall (fun s => JS.truthy (API.stop_name s) = true
                           /\ JS.truthy (API.stop_color s) = true) stops).
Proof.
  intros E data. split.
  - intros routes. unfold API.routes_of_payload.
    destruct (negb (JS.truthy data)); [intros [= <-]; constructor|].
    destruct (JS.get data "all") as [c|e]; cbn [JS.bind]; [|discriminate].
    destruct (JS.or_else c (JS.Arr [])) as [| | | | |items|]; try discriminate.
    intros H. apply mapM_Forall2 in H.
    induction H as [|v r items l Hr _ IH]; constructor; [|exact IH].
    apply (normalizeRoute_named v r Hr).
  - intros stops. unfold API.stops_of_payload.
    destruct (negb (JS.truthy data)); [intros [= <-]; constructor|].
    destruct (JS.get data "stops") as [c|e]; cbn [JS.bind]; [|discriminate].
    destruct (negb (JS.truthy c)); [intros [= <-]; constructor|].
    apply own_items_Forall. intros item l'.
    destruct (API.normalizeStop item) as [s|e] eqn:Hs; cbn [JS.bind]; [|discriminate].
    intros [= <-]. constructor; [|constructor]. apply (normalizeStop_named item s Hs).
Qed.

Lemma routes_and_stops_have_name_and_colour_witness :
  exists routes,
    API.routes_of_payload (E := Sample.engine)
      (JS.Obj [("all", JS.Arr [JS.Obj [("id", JS.Num 5)]])]) = JS.Normal routes
    /\ map API.route_name routes = [JS.Str "Route 5"]
    /\ Forall (fun r => JS.truthy (API.route_name r) = true
                        /\ JS.truthy (API.route_color r) = true
                        /\ API.route_active r = true) routes.
Proof.
  eexists. split; [vm_compute; reflexivity|]. split; [vm_compute; reflexivity|].
  destruct (routes_and_stops_have_name_and_colour Sample.engine
              (JS.Obj [("all", JS.Arr [JS.Obj [("id", JS.Num 5)]])])) as [H _].
  apply H. vm_compute. reflexivity.
Defined.

(** ** Searching *)

Section Searching.
Import JS API.
Context {E : Engine}.


End Searching.

Section SearchAcrossTheAwait.
Import JS API.
Context {E : Engine}.



End SearchAcrossTheAwait.


(** Back is clicked while the fetch of a search is under way: the search
    ends in the selection view, with the arrivals timer started for the
    stop that was left. *)
Example search_interrupted_by_back :
  let w1 := fst (InFlight.handleSearch_begin Scenario.stopA None Scenario.world0) in
  let w2 := App.step (E := Sample.engine) w1 (App.BackClicked Scenario.offline 0%float) in
  let w3 := InFlight.handleSearch_resume (E := Sample.engine) 0%float Scenario.stopA []
              (JS.Normal []) w2 in
  UI.currentView (App.ui w1) = UI.details
  /\ UI.currentView (App.ui w3) = UI.selection
  /\ map App.timer_callback (App.arrivals_timers w3)
     = [App.run_refreshArrivals Scenario.stopA].
Proof. vm_compute. repeat split; reflexivity. Qed.


(** ** Clicks on arrival cards *)

Section Cards.
Import JS API.
Context {E : Engine}.


End Cards.


